(** * protocol-loop: cognitive state, memory bank, evolution engine and
      loop manager

    A shallow embedding of
      - backend/models/cognitive_state.py
      - backend/models/memory.py
      - backend/services/evolution_engine.py
      - backend/services/loop_manager.py
      - backend/models/protocol.py (decisions and sessions)
      - backend/utils/decision_tree.py
      - the tables of backend/config.py these use.

    Conventions of the embedding.
      - A Python [float] is a rational [Q]; Python's [==], [<], [>=] on
        floats are [Qeq_bool], [Qltb], [Qleb].  Every constant of the
        source (5.0, 0.05, 10.0, 0.1, ...) is the rational it denotes.
        Infinities and NaN are outside the model.
      - Where the rounding of a float operation decides what the caller
        sees ([int(amount * 100)], the mean compared with the
        breakpoints of [calculate_protocol_difficulty], the progress
        returned by [update_loop_timer]) the operation is the IEEE-754
        binary64 one: [round_double] is round to nearest, ties to even,
        with 53 significant bits and the subnormal range, and an operand
        stands for the double nearest to it.  Everywhere else the
        arithmetic is the exact one.
      - A [datetime] is a number of seconds [Z]; [datetime.utcnow()] is
        an explicit argument [now].
      - [random.random()] and [random.choice] are an explicit [Oracle].
      - A Python [dict] whose iteration order is observed (the modules of
        a state, an impact map, unlock requirements) is an association
        list in insertion order; the two tables of the loop manager, only
        ever read by key, are [gmap]s.
      - A method that mutates [self] is a function to the new value. *)

From Stdlib Require Import ZArith QArith Qminmax Qround Qpower Lqa Lia.
From stdpp Require Import gmap strings list pretty.

Open Scope Q_scope.

(* ===================================================================== *)
(** * Floats as rationals *)
(* ===================================================================== *)

(** [x < y] *)
Definition Qltb (x y : Q) : bool := negb (Qle_bool y x).
(** [x <= y] *)
Definition Qleb (x y : Q) : bool := Qle_bool x y.
(** [x > y] *)
Definition Qgtb (x y : Q) : bool := Qltb y x.

(** Python's [int(x)] on a float: truncation towards zero. *)
Definition int_of_float (x : Q) : Z := Z.quot (Qnum x) (Zpos (Qden x)).

(** Python's [abs]. *)
Definition Qabs' (x : Q) : Q := if Qltb x 0 then - x else x.

(** Python's [sum] over floats. *)
Definition Qsum (l : list Q) : Q := fold_left Qplus l 0.

(* ===================================================================== *)
(** * Floats with their rounding *)
(* ===================================================================== *)

(** Rounding to the nearest integer, ties to the even one. *)
Definition round_half_even (q : Q) : Z :=
  let f := Qfloor q in
  match Qcompare (q - inject_Z f) (1 # 2) with
  | Lt => f
  | Gt => (f + 1)%Z
  | Eq => if Z.even f then f else (f + 1)%Z
  end.

(** The exponent [e] with [2^e <= q < 2^(e+1)], for [0 < q]. *)
Definition binade (q : Q) : Z :=
  let e := (Z.log2 (Qnum q) - Z.log2 (Zpos (Qden q)))%Z in
  if Qle_bool (2 ^ e) q then e else (e - 1)%Z.

(** The spacing of the doubles around [q], for [0 < q]: 53 significant
    bits, and the fixed spacing of the subnormal range below [2^-1022]. *)
Definition ulp (q : Q) : Q := 2 ^ (Z.max (binade q) (-1022) - 52).

(** The multiple of [u] nearest to [q]. *)
Definition round_to (u q : Q) : Q := inject_Z (round_half_even (q / u)) * u.

(** The double nearest to [q]: round to nearest, ties to even.  A result
    beyond the largest double (an infinity, or Python's [OverflowError])
    is outside the model. *)
Definition round_double (q : Q) : Q :=
  match Qcompare 0 q with
  | Eq => 0
  | Lt => round_to (ulp q) q
  | Gt => - round_to (ulp (- q)) (- q)
  end.

(** [x + y], [x * y] and [x / y] on floats; an [int] operand is
    converted first, which [round_double] does as well. *)
Definition float_add (x y : Q) : Q :=
  round_double (round_double x + round_double y).
Definition float_mul (x y : Q) : Q :=
  round_double (round_double x * round_double y).
Definition float_div (x y : Q) : Q :=
  round_double (round_double x / round_double y).

(** [a / b] on two [int]s: the quotient itself is rounded, once. *)
Definition int_truediv (a b : Z) : Q :=
  round_double (inject_Z a / inject_Z b).

(** [sum] over floats, from the [int] 0, left to right, each addition
    rounded: what the interpreters the project declares (Python 3.9 to
    3.11) do.  The compensated summation of later versions is not
    modelled. *)
Definition float_sum (l : list Q) : Q := fold_left float_add l 0.

(* ===================================================================== *)
(** * Python dictionaries in insertion order *)
(* ===================================================================== *)

Section Dict.
Context {V : Type}.

(** [d.get(k)], [None] when the key is absent. *)
Fixpoint dict_get (k : string) (d : list (string * V)) : option V :=
  match d with
  | [] => None
  | (k', v) :: d' => if String.eqb k k' then Some v else dict_get k d'
  end.

(** [k in d] *)
Definition dict_mem (k : string) (d : list (string * V)) : bool :=
  match dict_get k d with Some _ => true | None => false end.

(** [d[k] = v]: an existing key keeps its place, a new one goes last. *)
Fixpoint dict_set (k : string) (v : V) (d : list (string * V))
  : list (string * V) :=
  match d with
  | [] => [(k, v)]
  | (k', v') :: d' =>
      if String.eqb k k' then (k', v) :: d' else (k', v') :: dict_set k v d'
  end.

(** [d.keys()] and [d.values()] *)
Definition dict_keys (d : list (string * V)) : list string := map fst d.
Definition dict_values (d : list (string * V)) : list V := map snd d.
End Dict.

(* ===================================================================== *)
(** * [sorted(..., key=..., reverse=True)] and slices *)
(* ===================================================================== *)

Section Sorting.
Context {A : Type} (key : A -> Q).

(** Insert [x], which stood before every element of [l] in the input,
    into [l] sorted by decreasing key.  Python's sort is stable also
    with [reverse=True]: among equal keys the input order is kept, so
    [x] goes in front of the first element whose key is not larger. *)
Fixpoint insert_desc (x : A) (l : list A) : list A :=
  match l with
  | [] => [x]
  | y :: l' => if Qleb (key y) (key x) then x :: y :: l'
               else y :: insert_desc x l'
  end.

Definition sorted_desc (l : list A) : list A := foldr insert_desc [] l.
End Sorting.

(** [l[:k]] for an [int] [k]: a negative [k] counts from the end. *)
Definition slice_to {A : Type} (k : Z) (l : list A) : list A :=
  if (0 <=? k)%Z then take (Z.to_nat k) l
  else take (Z.to_nat (Z.of_nat (length l) + k)) l.

(* ===================================================================== *)
(** * backend/models/cognitive_state.py *)
(* ===================================================================== *)

Inductive ModuleStatus : Type :=
  | LOCKED | NASCENT | DEVELOPING | ACTIVE | MASTERED.

#[global] Instance ModuleStatus_eq_dec : EqDecision ModuleStatus.
Proof. solve_decision. Defined.

Record CognitiveModule : Type := mkCognitiveModule {
  name : string;
  level : Q;
  status : ModuleStatus;
  experience_points : Z;
  unlock_requirements : list (string * Q);
  description : string;
  icon : string;
  color : string
}.

Definition set_level (m : CognitiveModule) (l : Q) : CognitiveModule :=
  mkCognitiveModule (name m) l (status m) (experience_points m)
    (unlock_requirements m) (description m) (icon m) (color m).

Definition set_status (m : CognitiveModule) (s : ModuleStatus)
  : CognitiveModule :=
  mkCognitiveModule (name m) (level m) s (experience_points m)
    (unlock_requirements m) (description m) (icon m) (color m).

Definition set_experience_points (m : CognitiveModule) (e : Z)
  : CognitiveModule :=
  mkCognitiveModule (name m) (level m) (status m) e
    (unlock_requirements m) (description m) (icon m) (color m).

(** [CognitiveModule.update_status] *)
Definition update_status (m : CognitiveModule) : CognitiveModule :=
  if Qeq_bool (level m) 0 then set_status m LOCKED
  else if Qltb (level m) 20 then set_status m NASCENT
  else if Qltb (level m) 50 then set_status m DEVELOPING
  else if Qltb (level m) 90 then set_status m ACTIVE
  else set_status m MASTERED.

(** [CognitiveModule.gain_experience] *)
Definition gain_experience (m : CognitiveModule) (amount : Q)
  : CognitiveModule :=
  let m1 := set_experience_points m
              (experience_points m + int_of_float (float_mul amount 100))%Z in
  let m2 := set_level m1 (Qmin 100 (level m1 + amount)) in
  update_status m2.

(** [CognitiveModule.is_unlocked]: [current_state.get(req_module, 0)]. *)
Fixpoint requirements_met (reqs : list (string * Q))
    (current_state : list (string * Q)) : bool :=
  match reqs with
  | [] => true
  | (req_module, req_level) :: reqs' =>
      if Qltb (default 0 (dict_get req_module current_state)) req_level
      then false
      else requirements_met reqs' current_state
  end.

Definition is_unlocked (m : CognitiveModule)
    (current_state : list (string * Q)) : bool :=
  requirements_met (unlock_requirements m) current_state.

Record CognitiveState : Type := mkCognitiveState {
  player_id : string;
  loop_number : Z;
  modules : list (string * CognitiveModule);
  total_experience : Z;
  evolution_score : Q;
  personality_vector : list (string * Q);
  dominant_traits : list string;
  timestamp : Z
}.

Definition set_modules (s : CognitiveState)
    (ms : list (string * CognitiveModule)) : CognitiveState :=
  mkCognitiveState (player_id s) (loop_number s) ms (total_experience s)
    (evolution_score s) (personality_vector s) (dominant_traits s)
    (timestamp s).

Definition set_total_experience (s : CognitiveState) (e : Z)
  : CognitiveState :=
  mkCognitiveState (player_id s) (loop_number s) (modules s) e
    (evolution_score s) (personality_vector s) (dominant_traits s)
    (timestamp s).

Definition set_evolution_score (s : CognitiveState) (e : Q)
  : CognitiveState :=
  mkCognitiveState (player_id s) (loop_number s) (modules s)
    (total_experience s) e (personality_vector s) (dominant_traits s)
    (timestamp s).

Definition set_dominant_traits (s : CognitiveState) (t : list string)
  : CognitiveState :=
  mkCognitiveState (player_id s) (loop_number s) (modules s)
    (total_experience s) (evolution_score s) (personality_vector s) t
    (timestamp s).

(** The module [get_module_level] falls back on:
    [CognitiveModule(name=module_name, description="", icon="", color="")],
    every other field at its declared default. *)
Definition default_module (module_name : string) : CognitiveModule :=
  mkCognitiveModule module_name 0 LOCKED 0 [] "" "" "".

(** [CognitiveState.get_module_level] *)
Definition get_module_level (s : CognitiveState) (module_name : string) : Q :=
  level (default (default_module module_name)
                 (dict_get module_name (modules s))).

(** [CognitiveState.calculate_evolution_score] *)
Definition calculate_evolution_score (s : CognitiveState) : CognitiveState :=
  match modules s with
  | [] => set_evolution_score s 0
  | _ =>
      let total_level := Qsum (map level (dict_values (modules s))) in
      let max_possible := (Z.of_nat (length (modules s)) * 100)%Z in
      set_evolution_score s
        (if (0 <? max_possible)%Z
         then (total_level / inject_Z max_possible) * 100
         else 0)
  end.

(** [CognitiveState.update_dominant_traits] *)
Definition update_dominant_traits (s : CognitiveState) : CognitiveState :=
  let sorted_modules := sorted_desc (fun x => level (snd x)) (modules s) in
  set_dominant_traits s (map fst (take 3 sorted_modules)).

(** [CognitiveState.update_module] *)
Definition update_module (s : CognitiveState) (module_name : string)
    (delta : Q) : CognitiveState :=
  match dict_get module_name (modules s) with
  | None => s
  | Some m =>
      let s1 := set_modules s
                  (dict_set module_name (gain_experience m delta) (modules s)) in
      let s2 := set_total_experience s1
                  (total_experience s1 + int_of_float (float_mul delta 100))%Z in
      update_dominant_traits (calculate_evolution_score s2)
  end.

(** [CognitiveState.to_dict] *)
Definition to_dict (s : CognitiveState) : list (string * Q) :=
  map (fun nm => (fst nm, level (snd nm))) (modules s).

(* ===================================================================== *)
(** * backend/models/memory.py *)
(* ===================================================================== *)

Inductive MemoryType : Type :=
  | DECISION | LESSON | MENTOR_WISDOM | EMOTIONAL_MOMENT
  | DISCOVERY | FAILURE | BREAKTHROUGH | SOCIAL_INTERACTION.

Inductive MemoryImportance : Type :=
  | TRIVIAL | MINOR | SIGNIFICANT | CRITICAL | CORE.

#[global] Instance MemoryType_eq_dec : EqDecision MemoryType.
Proof. solve_decision. Defined.

(** [access_count] is a counter: 0 at creation and only ever incremented,
    by [access]; it is a natural number here, which keeps the divisor
    [1 + access_count * 0.1] of the decay factor positive.  The source
    declares the field as a plain [int]: a memory constructed with a
    negative count is outside this embedding ([get_decay_factor]
    divides by zero at -10 and exceeds 1 below it). *)
Record Memory : Type := mkMemory {
  mem_id : string;
  mem_player_id : string;
  mem_loop_number : Z;
  mem_type : MemoryType;
  importance : MemoryImportance;
  title : string;
  content : string;
  context : list (string * string);
  cognitive_impact : list (string * Q);
  related_protocol : option string;
  mentor_source : option string;
  emotional_valence : Q;
  created_at : Z;
  access_count : N;
  last_accessed : option Z;
  tags : list string
}.

(** [Memory.access] *)
Definition access (now : Z) (m : Memory) : Memory :=
  mkMemory (mem_id m) (mem_player_id m) (mem_loop_number m) (mem_type m)
    (importance m) (title m) (content m) (context m) (cognitive_impact m)
    (related_protocol m) (mentor_source m) (emotional_valence m)
    (created_at m) (access_count m + 1)%N (Some now) (tags m).

Definition importance_multiplier (i : MemoryImportance) : Q :=
  match i with
  | TRIVIAL => 0.5
  | MINOR => 0.7
  | SIGNIFICANT => 0.9
  | CRITICAL => 0.95
  | CORE => 1
  end.

(** [timedelta.days] of [now - t]: whole days, rounded down. *)
Definition days_between (now t : Z) : Z := ((now - t) / 86400)%Z.

(** [Memory.get_decay_factor] *)
Definition get_decay_factor (now : Z) (m : Memory) : Q :=
  match last_accessed m with
  | None => 1
  | Some t =>
      let days_since_access := days_between now t in
      let decay :=
        Qmax 0.1
          (1 - (inject_Z days_since_access * 0.05
                / (1 + inject_Z (Z.of_N (access_count m)) * 0.1))) in
      decay * importance_multiplier (importance m)
  end.

Record MemoryBank : Type := mkMemoryBank {
  bank_player_id : string;
  memories : list Memory;
  total_memories : Z;
  capacity : Z
}.

(** [MemoryBank(player_id=...)], every other field at its default. *)
Definition new_bank (pid : string) : MemoryBank := mkMemoryBank pid [] 0 100.

(** The retention score of [consolidate_memories]. *)
Definition retention_score (now : Z) (m : Memory) : Q :=
  get_decay_factor now m * inject_Z (Z.of_N (access_count m))
  * (1 + inject_Z (Z.of_nat (length (tags m))) * 0.1).

(** [MemoryBank.consolidate_memories] *)
Definition consolidate_memories (now : Z) (b : MemoryBank) : MemoryBank :=
  let scored_memories := map (fun m => (m, retention_score now m)) (memories b) in
  let scored_memories := sorted_desc snd scored_memories in
  mkMemoryBank (bank_player_id b)
    (map fst (slice_to (capacity b) scored_memories))
    (total_memories b) (capacity b).

(** [MemoryBank.add_memory] *)
Definition add_memory (now : Z) (b : MemoryBank) (memory : Memory)
  : MemoryBank :=
  let b1 := if (capacity b <=? Z.of_nat (length (memories b)))%Z
            then consolidate_memories now b else b in
  mkMemoryBank (bank_player_id b1) (memories b1 ++ [memory])
    (total_memories b1 + 1)%Z (capacity b1).

(** [MemoryBank.get_memories_by_type] *)
Definition get_memories_by_type (b : MemoryBank) (t : MemoryType)
  : list Memory :=
  filter (fun m => mem_type m = t) (memories b).

(* ===================================================================== *)
(** * backend/config.py: the tables the engine reads *)
(* ===================================================================== *)

Record Mentor : Type := mkMentor {
  mentor_name : string;
  personality : string;
  traits : list string;
  mentor_color : string
}.

Definition MENTORS : list (string * Mentor) :=
  [ ("LOGIC", mkMentor "LOGIC" "analytical, precise, mathematical"
                ["rationality"; "pattern_recognition"; "deduction"] "#00FFFF");
    ("COMPASSION", mkMentor "COMPASSION" "empathetic, nurturing, understanding"
                ["empathy"; "emotional_intelligence"; "care"] "#FF69B4");
    ("CURIOSITY", mkMentor "CURIOSITY" "inquisitive, exploratory, creative"
                ["exploration"; "creativity"; "innovation"] "#FFD700");
    ("FEAR", mkMentor "FEAR" "cautious, protective, risk-aware"
                ["risk_assessment"; "protection"; "survival"] "#8B00FF") ].

Definition COGNITIVE_MODULES : list string :=
  [ "logic"; "empathy"; "creativity"; "fear";
    "trust"; "humor"; "curiosity"; "ethics" ].

(** [x in l] for a list of strings. *)
Definition str_in (x : string) (l : list string) : bool :=
  existsb (String.eqb x) l.

(* ===================================================================== *)
(** * backend/services/evolution_engine.py *)
(* ===================================================================== *)

(** The two draws [apply_decision_impact] may make: [random.random()] and
    the index [random.choice] picks in the list it is given. *)
Record Oracle : Type := mkOracle {
  random_random : Q;
  random_choice : nat
}.

Definition mutation_threshold : Q := 0.15.
Definition breakthrough_chance : Q := 0.05.

(** [_get_module_description] *)
Definition _get_module_description (module_name : string) : string :=
  default "Emerging cognitive capability"
    (dict_get module_name
       [ ("logic", "Analytical reasoning and pattern recognition");
         ("empathy", "Understanding and sharing others' experiences");
         ("creativity", "Novel solution generation and imagination");
         ("fear", "Risk assessment and protective instincts");
         ("trust", "Relationship building and vulnerability");
         ("humor", "Pattern disruption and playful thinking");
         ("curiosity", "Exploratory drive and knowledge seeking");
         ("ethics", "Moral reasoning and value alignment") ]).

(** [_get_module_icon] *)
Definition _get_module_icon (module_name : string) : string :=
  default "🧠"
    (dict_get module_name
       [ ("logic", "🧮"); ("empathy", "❤️");
         ("creativity", "🎨"); ("fear", "⚠️");
         ("trust", "🤝"); ("humor", "😄");
         ("curiosity", "🔍"); ("ethics", "⚖️") ]).

(** [_get_module_color] *)
Definition _get_module_color (module_name : string) : string :=
  default "#FFFFFF"
    (dict_get module_name
       [ ("logic", "#00FFFF"); ("empathy", "#FF69B4");
         ("creativity", "#FFD700"); ("fear", "#8B00FF");
         ("trust", "#00FF00"); ("humor", "#FF6347");
         ("curiosity", "#FFA500"); ("ethics", "#4169E1") ]).

(** [_get_unlock_requirements] *)
Definition _get_unlock_requirements (module_name : string)
  : list (string * Q) :=
  default []
    (dict_get module_name
       [ ("humor", [("creativity", 30); ("empathy", 20)]);
         ("ethics", [("logic", 25); ("empathy", 25)]);
         ("trust", [("empathy", 30)]) ]).

Definition core_modules : list string :=
  [ "logic"; "empathy"; "curiosity"; "fear" ].

(** [initialize_cognitive_state]; [now] is the [timestamp] default. *)
Definition initialize_cognitive_state (now : Z) (pid : string)
  : CognitiveState :=
  let modules :=
    fold_left
      (fun modules module_name =>
         dict_set module_name
           (mkCognitiveModule module_name
              (if str_in module_name core_modules then 5 else 0)
              (if str_in module_name core_modules then NASCENT else LOCKED)
              0
              (_get_unlock_requirements module_name)
              (_get_module_description module_name)
              (_get_module_icon module_name)
              (_get_module_color module_name))
           modules)
      COGNITIVE_MODULES [] in
  calculate_evolution_score (mkCognitiveState pid 0 modules 0 0 [] [] now).

(** The first loop of [apply_decision_impact]. *)
Definition apply_direct_impacts (state : CognitiveState)
    (decision_impact : list (string * Q)) : CognitiveState :=
  fold_left
    (fun state entry =>
       if dict_mem (fst entry) (modules state)
       then update_module state (fst entry) (snd entry)
       else state)
    decision_impact state.

(** The mentor bonus of [apply_decision_impact]. *)
Definition apply_mentor_bonus (state : CognitiveState)
    (mentor_influence : option string) : CognitiveState :=
  match mentor_influence with
  | None => state
  | Some mentor =>
      if String.eqb mentor "" then state
      else match dict_get mentor MENTORS with
           | None => state
           | Some mt =>
               let bonus := 0.05 in
               fold_left
                 (fun state trait =>
                    if dict_mem trait (modules state)
                    then update_module state trait bonus
                    else state)
                 (traits mt) state
           end
  end.

(** One iteration of [_check_module_unlocks], on the module named [k]:
    the module is read from and written back to the state being
    traversed, and [to_dict] is taken of that state. *)
Definition unlock_step (state : CognitiveState) (k : string)
  : CognitiveState :=
  match dict_get k (modules state) with
  | None => state
  | Some module =>
      if decide (status module = LOCKED) then
        if is_unlocked module (to_dict state) then
          set_modules state
            (dict_set k (set_level (set_status module NASCENT) 5)
               (modules state))
        else state
      else state
  end.

(** [_check_module_unlocks] *)
Definition _check_module_unlocks (state : CognitiveState) : CognitiveState :=
  fold_left unlock_step (dict_keys (modules state)) state.

(** [_trigger_breakthrough] *)
Definition _trigger_breakthrough (o : Oracle) (state : CognitiveState)
  : CognitiveState :=
  let developing :=
    dict_keys
      (List.filter (fun nm => bool_decide (status (snd nm) = DEVELOPING))
         (modules state)) in
  match developing with
  | [] => state
  | d :: _ =>
      let chosen := nth (random_choice o mod length developing) developing d in
      update_module state chosen 10
  end.

(** [apply_decision_impact] *)
Definition apply_decision_impact (o : Oracle) (state : CognitiveState)
    (decision_impact : list (string * Q)) (mentor_influence : option string)
  : CognitiveState :=
  let state := apply_direct_impacts state decision_impact in
  let state := apply_mentor_bonus state mentor_influence in
  let state := _check_module_unlocks state in
  if Qltb (random_random o) breakthrough_chance
  then _trigger_breakthrough o state
  else state.

(** [_get_relevant_modules] *)
Definition relevance_map : list (string * list string) :=
  [ ("ethical_dilemma", ["empathy"; "logic"; "ethics"]);
    ("logic_puzzle", ["logic"; "creativity"; "curiosity"]);
    ("emotion_calibration", ["empathy"; "fear"; "trust"]);
    ("memory_compression", ["logic"; "curiosity"]);
    ("bias_identification", ["logic"; "ethics"; "empathy"]);
    ("empathy_simulation", ["empathy"; "trust"; "ethics"]);
    ("creative_synthesis", ["creativity"; "curiosity"; "logic"]);
    ("trust_evaluation", ["trust"; "empathy"; "fear"]) ].

Definition _get_relevant_modules (protocol_type : string) : list string :=
  default ["logic"; "empathy"] (dict_get protocol_type relevance_map).

(** [calculate_protocol_difficulty]; the mean is the float one, the sum
    taken left to right and divided once. *)
Definition calculate_protocol_difficulty (state : CognitiveState)
    (protocol_type : string) : string :=
  let relevant_modules := _get_relevant_modules protocol_type in
  let avg_level :=
    match relevant_modules with
    | [] => 0
    | _ => float_div
             (float_sum (map (get_module_level state) relevant_modules))
             (inject_Z (Z.of_nat (length relevant_modules)))
    end in
  if Qltb avg_level 20 then "nascent"
  else if Qltb avg_level 40 then "developing"
  else if Qltb avg_level 60 then "proficient"
  else if Qltb avg_level 80 then "advanced"
  else "transcendent".

(** The result of [compare_consciousness_trees]. *)
Record Divergence : Type := mkDivergence {
  div_module : string;
  player1_level : Q;
  player2_level : Q
}.

Record Comparison : Type := mkComparison {
  similarity_score : Q;
  shared_strengths : list string;
  divergent_traits : list Divergence;
  complementary_modules : list string;
  evolution_distance : Q
}.

(** The first loop of [compare_consciousness_trees], accumulating
    [(module_similarities, shared_strengths, divergent_traits)]. *)
Definition compare_step (state1 state2 : CognitiveState)
    (acc : list Q * list string * list Divergence) (module_name : string)
  : list Q * list string * list Divergence :=
  let '(sims, shared, divergent) := acc in
  let level1 := get_module_level state1 module_name in
  let level2 := get_module_level state2 module_name in
  if Qgtb level1 20 && Qgtb level2 20 then
    let similarity := 1 - Qabs' (level1 - level2) / 100 in
    let sims := sims ++ [similarity] in
    if Qgtb similarity 0.8 then (sims, shared ++ [module_name], divergent)
    else if Qgtb (Qabs' (level1 - level2)) 40
         then (sims, shared,
               divergent ++ [mkDivergence module_name level1 level2])
         else (sims, shared, divergent)
  else acc.

(** The test of the second loop of [compare_consciousness_trees]. *)
Definition is_complementary (state1 state2 : CognitiveState)
    (module_name : string) : bool :=
  let level1 := get_module_level state1 module_name in
  let level2 := get_module_level state2 module_name in
  (Qltb level1 30 && Qgtb level2 60) || (Qltb level2 30 && Qgtb level1 60).

(** [compare_consciousness_trees] *)
Definition compare_consciousness_trees (state1 state2 : CognitiveState)
  : Comparison :=
  let '(module_similarities, shared, divergent) :=
    fold_left (compare_step state1 state2) COGNITIVE_MODULES ([], [], []) in
  mkComparison
    (match module_similarities with
     | [] => 0
     | _ => Qsum module_similarities
            / inject_Z (Z.of_nat (length module_similarities))
     end)
    shared
    divergent
    (List.filter (is_complementary state1 state2) COGNITIVE_MODULES)
    (Qabs' (evolution_score state1 - evolution_score state2)).

(* ===================================================================== *)
(** * backend/services/loop_manager.py *)
(* ===================================================================== *)

(** The loop settings of [backend/config.py], read from the environment. *)
Record Settings : Type := mkSettings {
  LOOP_DURATION_SECONDS : Z;
  MAX_LOOPS_PER_SESSION : Z;
  MEMORY_RETENTION_LIMIT : Z
}.

(** The values used when the environment sets none. *)
Definition default_settings : Settings := mkSettings 300 50 100.

(** A call either returns or raises. *)
Inductive Result (A : Type) : Type :=
  | Ok (a : A)
  | Raise (exn : string).
Arguments Ok {A} a.
Arguments Raise {A} exn.

(** The values a caller may put in an item's data. *)
Inductive PyValue : Type :=
  | PyNone
  | PyBool (b : bool)
  | PyNum (q : Q)
  | PyStr (s : string).

Record ProtocolStub : Type := mkProtocolStub {
  protocol_id : string;
  protocol_type : string;
  protocol_started_at : Z;
  completed : bool
}.

Record DecisionRecord : Type := mkDecisionRecord {
  decision_timestamp : Z;
  decision_protocol_id : string;
  choice_id : string;
  mentor_influence : option string;
  decision_cognitive_impact : list (string * Q);
  confidence : Q
}.

Record Item : Type := mkItem {
  item_id : string;
  collected_at : Z;
  item_data : list (string * PyValue);
  persists : PyValue
}.

Record MemoryStub : Type := mkMemoryStub {
  stub_memory_id : string;
  stub_type : MemoryType;
  stub_importance : MemoryImportance;
  stub_title : string;
  formed_at : Z
}.

Record Accessibility : Type := mkAccessibility {
  training_chamber : bool;
  mentor_sanctum : bool;
  memory_vault : bool;
  synthesis_lab : bool;
  ethics_courtroom : bool;
  final_chamber : bool
}.

Record Environment : Type := mkEnvironment {
  facility_state : string;
  lighting : string;
  ambient_sound : string;
  visible_chambers : Z;
  mentor_locations : list (string * string);
  anomalies : list string;
  accessibility : Accessibility
}.

Record LoopStats : Type := mkLoopStats {
  protocols_completed : Z;
  stats_decisions_made : Z;
  stats_items_collected : Z;
  stats_memories_formed : Z;
  completion_time : Z
}.

(** A loop record; [completed_at] and [stats] are the two keys
    [_complete_loop] adds. *)
Record LoopRecord : Type := mkLoopRecord {
  loop_id : string;
  loop_player_id : string;
  loop_loop_number : Z;
  started_at : Z;
  duration_seconds : Z;
  time_remaining : Z;
  cognitive_state_start : list (string * Q);
  active_protocols : list ProtocolStub;
  decisions_made : list DecisionRecord;
  items_collected : list Item;
  memories_formed : list MemoryStub;
  environment_state : Environment;
  loop_status : string;
  completed_at : option Z;
  stats : option LoopStats
}.

Definition set_time_remaining (l : LoopRecord) (t : Z) : LoopRecord :=
  mkLoopRecord (loop_id l) (loop_player_id l) (loop_loop_number l)
    (started_at l) (duration_seconds l) t (cognitive_state_start l)
    (active_protocols l) (decisions_made l) (items_collected l)
    (memories_formed l) (environment_state l) (loop_status l)
    (completed_at l) (stats l).

Definition set_completion (l : LoopRecord) (st : string) (t : Z)
    (s : LoopStats) : LoopRecord :=
  mkLoopRecord (loop_id l) (loop_player_id l) (loop_loop_number l)
    (started_at l) (duration_seconds l) (time_remaining l)
    (cognitive_state_start l) (active_protocols l) (decisions_made l)
    (items_collected l) (memories_formed l) (environment_state l) st
    (Some t) (Some s).

Definition set_active_protocols (l : LoopRecord) (ps : list ProtocolStub)
  : LoopRecord :=
  mkLoopRecord (loop_id l) (loop_player_id l) (loop_loop_number l)
    (started_at l) (duration_seconds l) (time_remaining l)
    (cognitive_state_start l) ps (decisions_made l) (items_collected l)
    (memories_formed l) (environment_state l) (loop_status l)
    (completed_at l) (stats l).

(** The two tables of a [LoopManager]. *)
Record LoopManager : Type := mkLoopManager {
  active_loops : gmap string LoopRecord;
  loop_history : gmap string (list LoopRecord)
}.

(** [LoopManager()] *)
Definition new_manager : LoopManager := mkLoopManager ∅ ∅.

(** What [update_loop_timer] returns. *)
Inductive TimerResult : Type :=
  | not_found
  | completed_result (loop_number : Z) (stats : LoopStats)
      (ready_for_next : bool)
  | running (time_remaining : Z) (progress : Q).

(** The ["status"] entry of that dictionary. *)
Definition result_status (r : TimerResult) : string :=
  match r with
  | not_found => "not_found"
  | completed_result _ _ _ => "completed"
  | running _ _ => "running"
  end.

Record Conditions : Type := mkConditions {
  evolution_threshold : bool;
  all_mentors_mastered : bool;
  minimum_loops : bool;
  special_protocol_completed : bool
}.

(** What [check_loop_break_conditions] returns. *)
Inductive BreakResult : Type :=
  | loop_not_found
  | break_check (can_break : bool) (conditions : Conditions)
      (conditions_met : Z) (conditions_required : Z).

(** The ["can_break"] entry of that dictionary. *)
Definition can_break (r : BreakResult) : bool :=
  match r with
  | loop_not_found => false
  | break_check b _ _ _ => b
  end.

(** [str.lower] on the ASCII letters. *)
Definition lower_ascii (c : Ascii.ascii) : Ascii.ascii :=
  let n := Ascii.nat_of_ascii c in
  if ((65 <=? n) && (n <=? 90))%nat then Ascii.ascii_of_nat (n + 32) else c.

Fixpoint lower (s : string) : string :=
  match s with
  | EmptyString => EmptyString
  | String c s' => String (lower_ascii c) (lower s')
  end.

(** [sum] of booleans. *)
Definition count_true (l : list bool) : Z :=
  Z.of_nat (length (List.filter id l)).

(** [_calculate_accessibility] *)
Definition _calculate_accessibility (cognitive_state : CognitiveState)
  : Accessibility :=
  mkAccessibility true
    (Qgtb (evolution_score cognitive_state) 20)
    (5 <? loop_number cognitive_state)%Z
    (Qgtb (get_module_level cognitive_state "creativity") 30)
    (Qgtb (get_module_level cognitive_state "ethics") 25)
    (Qgtb (evolution_score cognitive_state) 70).

(** [_generate_initial_environment] *)
Definition _generate_initial_environment (cognitive_state : CognitiveState)
  : Environment :=
  mkEnvironment "stable" "neutral" "low_hum"
    (Z.min 4 (loop_number cognitive_state + 2))
    [ ("LOGIC", "central_chamber"); ("COMPASSION", "reflection_room");
      ("CURIOSITY", "exploration_hub"); ("FEAR", "warning_corridor") ]
    []
    (_calculate_accessibility cognitive_state).

(** [_check_special_protocol]: the first special protocol decides. *)
Fixpoint _check_special_protocol_in (ps : list ProtocolStub) : bool :=
  match ps with
  | [] => false
  | p :: ps' =>
      if str_in (protocol_type p) ["final_test"; "breakthrough_scenario"]
      then completed p
      else _check_special_protocol_in ps'
  end.

Definition _check_special_protocol (loop : LoopRecord) : bool :=
  _check_special_protocol_in (active_protocols loop).

Section Manager.
Variable settings : Settings.

(** The loop id [f"{player_id}_loop_{loop_number}"]. *)
Definition make_loop_id (pid : string) (n : Z) : string :=
  pid +:+ "_loop_" +:+ pretty n.

(** [start_loop]: the new manager and the record returned.  The memory
    bank argument is not read. *)
Definition start_loop (now : Z) (mgr : LoopManager) (pid : string)
    (cognitive_state : CognitiveState) (memory_bank : MemoryBank)
  : LoopManager * LoopRecord :=
  let loop_number := (loop_number cognitive_state + 1)%Z in
  let loop_id := make_loop_id pid loop_number in
  let loop_data :=
    mkLoopRecord loop_id pid loop_number now
      (LOOP_DURATION_SECONDS settings) (LOOP_DURATION_SECONDS settings)
      (to_dict cognitive_state) [] [] [] []
      (_generate_initial_environment cognitive_state) "active"
      None None in
  let active := <[loop_id := loop_data]> (active_loops mgr) in
  let history :=
    match loop_history mgr !! pid with
    | None => <[pid := []]> (loop_history mgr)
    | Some _ => loop_history mgr
    end in
  (mkLoopManager active history, loop_data).

(** [_complete_loop]; a loop id that is not active is a [KeyError]. *)
Definition _complete_loop (now : Z) (mgr : LoopManager) (id : string)
  : LoopManager * Result TimerResult :=
  match active_loops mgr !! id with
  | None => (mgr, Raise "KeyError")
  | Some loop =>
      let stats :=
        mkLoopStats
          (Z.of_nat (length (List.filter completed (active_protocols loop))))
          (Z.of_nat (length (decisions_made loop)))
          (Z.of_nat (length (items_collected loop)))
          (Z.of_nat (length (memories_formed loop)))
          (now - started_at loop)%Z in
      let loop := set_completion loop "completed" now stats in
      let pid := loop_player_id loop in
      let history :=
        <[pid := default [] (loop_history mgr !! pid) ++ [loop]]>
          (loop_history mgr) in
      (mkLoopManager (delete id (active_loops mgr)) history,
       Ok (completed_result (loop_loop_number loop) stats true))
  end.

(** [update_loop_timer]; a zero duration makes the progress a
    [ZeroDivisionError].  The progress is the float the source computes:
    the quotient of the two [int]s rounded, and its difference from 1
    rounded. *)
Definition update_loop_timer (now : Z) (mgr : LoopManager) (id : string)
    (elapsed_seconds : Z) : LoopManager * Result TimerResult :=
  match active_loops mgr !! id with
  | None => (mgr, Ok not_found)
  | Some loop =>
      let loop :=
        set_time_remaining loop
          (Z.max 0 (duration_seconds loop - elapsed_seconds)) in
      let mgr :=
        mkLoopManager (<[id := loop]> (active_loops mgr))
          (loop_history mgr) in
      if (time_remaining loop =? 0)%Z && String.eqb (loop_status loop) "active"
      then _complete_loop now mgr id
      else if (duration_seconds loop =? 0)%Z
           then (mgr, Raise "ZeroDivisionError")
           else (mgr,
                 Ok (running (time_remaining loop)
                       (round_double
                          (1 - int_truediv (time_remaining loop)
                                 (duration_seconds loop)))))
  end.

(** [add_protocol_to_loop], given the protocol's [id] and [type]. *)
Definition add_protocol_to_loop (now : Z) (mgr : LoopManager) (id : string)
    (pid ptype : string) : LoopManager * bool :=
  match active_loops mgr !! id with
  | None => (mgr, false)
  | Some loop =>
      if negb (String.eqb (loop_status loop) "active") then (mgr, false)
      else
        let loop :=
          set_active_protocols loop
            (active_protocols loop ++ [mkProtocolStub pid ptype now false]) in
        (mkLoopManager (<[id := loop]> (active_loops mgr))
           (loop_history mgr), true)
  end.

(** [check_loop_break_conditions] *)
Definition check_loop_break_conditions (mgr : LoopManager) (id : string)
    (cognitive_state : CognitiveState) : BreakResult :=
  match active_loops mgr !! id with
  | None => loop_not_found
  | Some loop =>
      let conditions :=
        mkConditions
          (Qleb 75 (evolution_score cognitive_state))
          (forallb
             (fun mentor =>
                Qgtb (get_module_level cognitive_state (lower mentor)) 60)
             ["LOGIC"; "COMPASSION"; "CURIOSITY"; "FEAR"])
          (10 <=? loop_loop_number loop)%Z
          (_check_special_protocol loop) in
      let conditions_met :=
        count_true
          [ evolution_threshold conditions;
            all_mentors_mastered conditions;
            minimum_loops conditions;
            special_protocol_completed conditions ] in
      break_check (3 <=? conditions_met)%Z conditions conditions_met 3
  end.
End Manager.

(* ===================================================================== *)
(** * Runs, the formulas of the specification, and sample inputs *)
(* ===================================================================== *)

(** A sequence of [add_memory] calls, each at its own time. *)
Definition add_memories (b : MemoryBank) (calls : list (Z * Memory))
  : MemoryBank :=
  fold_left (fun b c => add_memory (fst c) b (snd c)) calls b.

(** The specification's reading of a consolidation pass: the [k] best
    memories by retention score, best first. *)
Definition top_by_score (now : Z) (k : nat) (ms : list Memory) : list Memory :=
  take k (sorted_desc (retention_score now) ms).

(** A memory as a caller creates it: only the required fields given. *)
Definition sample_memory (id : string) : Memory :=
  mkMemory id "p1" 1 DECISION MINOR "title" "content" [] [] None None 0 0
    0%N None [].

(** The keys of [PROTOCOL_TYPES] in [backend/config.py]. *)
Definition PROTOCOL_TYPES : list string :=
  [ "ethical_dilemma"; "logic_puzzle"; "emotion_calibration";
    "memory_compression"; "bias_identification"; "empathy_simulation";
    "creative_synthesis"; "trust_evaluation" ].

(** The specification's evolution score:
    (sum of module levels) / (module count * 100) * 100. *)
Definition evolution_formula (ms : list (string * CognitiveModule)) : Q :=
  Qsum (map level (dict_values ms))
  / (inject_Z (Z.of_nat (length ms)) * 100) * 100.

Definition score_invariant (s : CognitiveState) : Prop :=
  evolution_score s == evolution_formula (modules s).

(** The specification's average, computed in floats as the source does
    (the levels added from left to right, the sum divided by their
    number), and the difficulty tiers. *)
Definition float_mean (l : list Q) : Q :=
  float_div (float_sum l) (inject_Z (Z.of_nat (length l))).

Inductive in_tier (avg : Q) : string -> Prop :=
  | tier_nascent : avg < 20 -> in_tier avg "nascent"
  | tier_developing : 20 <= avg -> avg < 40 -> in_tier avg "developing"
  | tier_proficient : 40 <= avg -> avg < 60 -> in_tier avg "proficient"
  | tier_advanced : 60 <= avg -> avg < 80 -> in_tier avg "advanced"
  | tier_transcendent : 80 <= avg -> in_tier avg "transcendent".

(** One call of [apply_decision_impact]: the draws, the impact map and
    the mentor. *)
Record Call : Type := mkCall {
  call_oracle : Oracle;
  call_impact : list (string * Q);
  call_mentor : option string
}.

(** A sequence of [apply_decision_impact] calls on one state. *)
Definition apply_decisions (s : CognitiveState) (calls : list Call)
  : CognitiveState :=
  fold_left
    (fun s c =>
       apply_decision_impact (call_oracle c) s (call_impact c) (call_mentor c))
    calls s.

(** What one module can undergo during [apply_decision_impact]: a
    [gain_experience] with a delta in [D], or the unlock of
    [_check_module_unlocks]. *)
Inductive module_step (D : Q -> Prop)
  : CognitiveModule -> CognitiveModule -> Prop :=
  | step_gain m d : D d -> module_step D m (gain_experience m d)
  | step_unlock m :
      status m = LOCKED ->
      module_step D m (set_level (set_status m NASCENT) 5).

(** The module named [k] is still there and went through such steps. *)
Definition evolves (D : Q -> Prop) (k : string) (s s' : CognitiveState)
  : Prop :=
  forall m, dict_get k (modules s) = Some m ->
    exists m', dict_get k (modules s') = Some m' /\ rtc (module_step D) m m'.

(** Every delta the call applies to the module named [k] is in [D]. *)
Definition deltas_in (D : Q -> Prop) (k : string) (impact : list (string * Q))
  : Prop :=
  Forall (fun e => fst e = k -> D (snd e)) impact.

(** The ["conditions"] entry of a break check. *)
Definition break_conditions (r : BreakResult) : option Conditions :=
  match r with
  | loop_not_found => None
  | break_check _ c _ _ => Some c
  end.

Definition break_conditions_met (r : BreakResult) : option Z :=
  match r with
  | loop_not_found => None
  | break_check _ _ n _ => Some n
  end.

(** A draw that triggers no breakthrough. *)
Definition quiet : Oracle := mkOracle 0.5 0.

(** A state whose eight modules all stand at level 80 in its 11th loop,
    with the score that goes with these levels. *)
Definition advanced_state : CognitiveState :=
  let s := initialize_cognitive_state 0 "p1" in
  let ms := map (fun nm => (fst nm, update_status (set_level (snd nm) 80)))
              (modules s) in
  calculate_evolution_score
    (mkCognitiveState "p1" 11 ms 0 0 [] [] 0).


(** A state whose eight modules all stand at level 30 in its 3rd loop,
    with the score that goes with these levels. *)
Definition developing_state : CognitiveState :=
  let s := initialize_cognitive_state 0 "p2" in
  let ms := map (fun nm => (fst nm, update_status (set_level (snd nm) 30)))
              (modules s) in
  calculate_evolution_score
    (mkCognitiveState "p2" 3 ms 0 0 [] [] 0).

(** A state at a breakpoint: logic stands at 20.2 and every other module
    at 19.9, so that the exact mean of empathy, logic and ethics is 20
    and the mean the floats give lies just below it. *)
Definition borderline_state : CognitiveState :=
  let s := initialize_cognitive_state 0 "p1" in
  let ms :=
    map (fun nm =>
           (fst nm,
            update_status
              (set_level (snd nm)
                 (if String.eqb (fst nm) "logic" then 20.2 else 19.9))))
        (modules s) in
  calculate_evolution_score
    (mkCognitiveState "p1" 1 ms 0 0 [] [] 0).

(** The module logic of a fresh state. *)
Definition fresh_logic : CognitiveModule :=
  mkCognitiveModule "logic" 5 NASCENT 0 []
    "Analytical reasoning and pattern recognition" "🧮" "#00FFFF".





(* ===================================================================== *)
(** * More of backend/models/cognitive_state.py *)
(* ===================================================================== *)

(** [ModuleStatus.value] *)
Definition status_value (s : ModuleStatus) : string :=
  match s with
  | LOCKED => "locked"
  | NASCENT => "nascent"
  | DEVELOPING => "developing"
  | ACTIVE => "active"
  | MASTERED => "mastered"
  end.

Record TreeNode : Type := mkTreeNode {
  node_id : string;
  node_level : Q;
  node_status : string;
  node_color : string;
  node_icon : string
}.

Record TreeLink : Type := mkTreeLink {
  link_source : string;
  link_target : string;
  link_strength : Q
}.

Record NeuralTree : Type := mkNeuralTree {
  tree_nodes : list TreeNode;
  tree_links : list TreeLink;
  tree_evolution_score : Q;
  tree_loop_number : Z
}.

(** The links [get_neural_tree_data] draws into the module [name]: one
    per requirement that names a module of the state. *)
Definition links_into (s : CognitiveState) (name : string)
    (module : CognitiveModule) : list TreeLink :=
  map (fun req_module => mkTreeLink req_module name (level module / 100))
    (List.filter (fun req_module => dict_mem req_module (modules s))
       (dict_keys (unlock_requirements module))).

(** [CognitiveState.get_neural_tree_data] *)
Definition get_neural_tree_data (s : CognitiveState) : NeuralTree :=
  mkNeuralTree
    (map (fun nm =>
            mkTreeNode (fst nm) (level (snd nm)) (status_value (status (snd nm)))
              (color (snd nm)) (icon (snd nm)))
       (modules s))
    (flat_map (fun nm => links_into s (fst nm) (snd nm)) (modules s))
    (evolution_score s)
    (loop_number s).

(* ===================================================================== *)
(** * More of backend/models/memory.py *)
(* ===================================================================== *)

(** The two entries [get_relevant_memories] reads in its context:
    [context.get("protocol_id")] and [context.get("tags", [])]. *)
Record MemoryContext : Type := mkMemoryContext {
  ctx_protocol_id : option string;
  ctx_tags : list string
}.

(** [len(set(memory.tags) & set(context.get("tags", [])))] *)
Definition matching_tags (m : Memory) (ctx : MemoryContext) : nat :=
  length (List.filter (fun t => str_in t (ctx_tags ctx))
            (nodup String.string_dec (tags m))).

(** The score [get_relevant_memories] gives a memory. *)
Definition relevance_score (now : Z) (ctx : MemoryContext) (m : Memory) : Q :=
  let score := get_decay_factor now m in
  let score :=
    if decide (related_protocol m = ctx_protocol_id ctx)
    then score + 0.5 else score in
  score + inject_Z (Z.of_nat (matching_tags m ctx)) * 0.2.

(** [MemoryBank.get_relevant_memories] *)
Definition get_relevant_memories (now : Z) (b : MemoryBank)
    (ctx : MemoryContext) (limit : Z) : list Memory :=
  let scored := map (fun m => (m, relevance_score now ctx m)) (memories b) in
  let scored := sorted_desc snd scored in
  map fst (slice_to limit scored).


(* ===================================================================== *)
(** * More of backend/services/evolution_engine.py *)
(* ===================================================================== *)

(** [_determine_visual_style] *)
Definition _determine_visual_style (state : CognitiveState) : string :=
  if Qgtb (get_module_level state "logic") 60 then "geometric_precision"
  else if Qgtb (get_module_level state "creativity") 60 then "organic_flow"
  else if Qgtb (get_module_level state "fear") 60 then "dark_fragmented"
  else if Qgtb (get_module_level state "empathy") 60 then "warm_connected"
  else "neutral_clean".

(** [_determine_audio_profile] *)
Definition _determine_audio_profile (state : CognitiveState) : string :=
  let dominant :=
    match dominant_traits state with
    | d :: _ => d
    | [] => "neutral"
    end in
  default "ambient_neutral"
    (dict_get dominant
       [ ("logic", "crystalline_tones"); ("empathy", "warm_harmonics");
         ("creativity", "dynamic_synthesis"); ("fear", "tense_drones");
         ("trust", "stable_rhythms");
         ("curiosity", "exploratory_textures") ]).

Record Layout : Type := mkLayout {
  complexity : Z;
  chambers_unlocked : Z;
  pathway_style : string;
  scale : string
}.

(** [_mutate_layout] *)
Definition _mutate_layout (state : CognitiveState) (loop_number : Z)
  : Layout :=
  mkLayout
    (Z.min 10 (loop_number / 5))
    (Z.of_nat
       (length
          (List.filter (fun m => negb (bool_decide (status m = LOCKED)))
             (dict_values (modules state)))))
    (if Qgtb (get_module_level state "creativity") 50
     then "branching" else "linear")
    (if Qgtb (evolution_score state) 40 then "expanding" else "intimate").

(** [_determine_mentor_attitude] *)
Definition _determine_mentor_attitude (relationship : Q) : string :=
  if Qgtb relationship 0.7 then "supportive"
  else if Qgtb relationship 0.4 then "neutral"
  else if Qgtb relationship 0.2 then "challenging"
  else "distant".

Record MentorState : Type := mkMentorState {
  relationship : Q;
  visual_clarity : Q;
  dialogue_depth : string;
  attitude : string
}.

(** The number of recent decisions made under one mentor's influence. *)
Definition alignment_count (recent_decisions : list DecisionRecord)
    (mentor : string) : nat :=
  length
    (List.filter
       (fun d => bool_decide (mentor_influence d = Some mentor))
       recent_decisions).

(** What [_evolve_mentor_states] computes for one mentor. *)
Definition mentor_state (recent_decisions : list DecisionRecord)
    (mentor : string) : MentorState :=
  let relationship_level :=
    inject_Z (Z.of_nat (alignment_count recent_decisions mentor))
    / inject_Z (Z.max (Z.of_nat (length recent_decisions)) 1) in
  mkMentorState relationship_level
    (Qmin 1 (relationship_level + 0.3))
    (if Qgtb relationship_level 0.6 then "deep" else "surface")
    (_determine_mentor_attitude relationship_level).

(** [_evolve_mentor_states]; the state argument is not read. *)
Definition _evolve_mentor_states (state : CognitiveState)
    (recent_decisions : list DecisionRecord) : list (string * MentorState) :=
  map (fun mentor => (mentor, mentor_state recent_decisions mentor))
    (dict_keys MENTORS).

(** [_check_cognitive_conflict] *)
Definition _check_cognitive_conflict (state : CognitiveState) : bool :=
  let logic_high := Qgtb (get_module_level state "logic") 60 in
  let empathy_high := Qgtb (get_module_level state "empathy") 60 in
  let fear_high := Qgtb (get_module_level state "fear") 60 in
  let trust_high := Qgtb (get_module_level state "trust") 60 in
  (logic_high && empathy_high) || (fear_high && trust_high).

Record Mutations : Type := mkMutations {
  visual_style : string;
  audio_profile : string;
  facility_layout : Layout;
  mentor_states : list (string * MentorState);
  mutation_anomalies : list string
}.

(** [evolve_loop_environment] *)
Definition evolve_loop_environment (state : CognitiveState) (loop_number : Z)
    (recent_decisions : list DecisionRecord) : Mutations :=
  mkMutations
    (_determine_visual_style state)
    (_determine_audio_profile state)
    (_mutate_layout state loop_number)
    (_evolve_mentor_states state recent_decisions)
    ((if Qgtb (evolution_score state) 50 then ["reality_glitches"] else [])
     ++ (if _check_cognitive_conflict state
         then ["mentor_debate_chamber"] else [])).


(* ===================================================================== *)
(** * backend/models/protocol.py: decisions and sessions *)
(* ===================================================================== *)

(** [Decision]; the model validates [confidence] into [0, 1]. *)
Record Decision : Type := mkDecision {
  d_timestamp : Z;
  d_choice_id : string;
  d_choice_text : string;
  d_mentor_influence : option string;
  d_cognitive_impact : list (string * Q);
  d_confidence : Q
}.

Record ProtocolSession : Type := mkProtocolSession {
  session_id : string;
  session_protocol_id : string;
  session_loop_number : Z;
  session_player_id : string;
  session_started_at : Z;
  session_completed_at : option Z;
  decisions : list Decision;
  outcome : option string;
  score : Q;
  cognitive_state_before : list (string * Q);
  cognitive_state_after : option (list (string * Q));
  memories_gained : list string;
  items_gained : list string
}.

Definition set_score (p : ProtocolSession) (x : Q) : ProtocolSession :=
  mkProtocolSession (session_id p) (session_protocol_id p)
    (session_loop_number p) (session_player_id p) (session_started_at p)
    (session_completed_at p) (decisions p) (outcome p) x
    (cognitive_state_before p) (cognitive_state_after p) (memories_gained p)
    (items_gained p).

(** [ProtocolSession.add_decision] *)
Definition add_decision (p : ProtocolSession) (d : Decision)
  : ProtocolSession :=
  mkProtocolSession (session_id p) (session_protocol_id p)
    (session_loop_number p) (session_player_id p) (session_started_at p)
    (session_completed_at p) (decisions p ++ [d]) (outcome p) (score p)
    (cognitive_state_before p) (cognitive_state_after p) (memories_gained p)
    (items_gained p).

(** The growth term of [calculate_score]: the change summed over the keys
    of the state before, a key absent afterwards read as 0. *)
Definition growth_score (before after : list (string * Q)) : Q :=
  Qsum
    (map (fun k =>
            Qabs' (default 0 (dict_get k after)
                   - default 0 (dict_get k before)))
       (dict_keys before)).

(** [ProtocolSession.calculate_score]; with decisions and no state after,
    [None.get] is an [AttributeError]. *)
Definition calculate_score (p : ProtocolSession) : Result ProtocolSession :=
  match decisions p with
  | [] => Ok (set_score p 0)
  | _ =>
      let confidence_avg :=
        Qsum (map d_confidence (decisions p))
        / inject_Z (Z.of_nat (length (decisions p))) in
      match cognitive_state_after p with
      | None => Raise "AttributeError"
      | Some after =>
          let growth := growth_score (cognitive_state_before p) after in
          Ok (set_score p
                ((confidence_avg * 0.4 + Qmin growth 1 * 0.6) * 100))
      end
  end.

(** [ProtocolSession.complete] *)
Definition complete (now : Z) (p : ProtocolSession) (result : string)
    (final_state : list (string * Q)) : Result ProtocolSession :=
  calculate_score
    (mkProtocolSession (session_id p) (session_protocol_id p)
       (session_loop_number p) (session_player_id p) (session_started_at p)
       (Some now) (decisions p) (Some result) (score p)
       (cognitive_state_before p) (Some final_state) (memories_gained p)
       (items_gained p)).

(* ===================================================================== *)
(** * More of backend/services/loop_manager.py *)
(* ===================================================================== *)

Definition set_decisions_made (l : LoopRecord) (ds : list DecisionRecord)
  : LoopRecord :=
  mkLoopRecord (loop_id l) (loop_player_id l) (loop_loop_number l)
    (started_at l) (duration_seconds l) (time_remaining l)
    (cognitive_state_start l) (active_protocols l) ds (items_collected l)
    (memories_formed l) (environment_state l) (loop_status l)
    (completed_at l) (stats l).

Definition set_items_collected (l : LoopRecord) (items : list Item)
  : LoopRecord :=
  mkLoopRecord (loop_id l) (loop_player_id l) (loop_loop_number l)
    (started_at l) (duration_seconds l) (time_remaining l)
    (cognitive_state_start l) (active_protocols l) (decisions_made l) items
    (memories_formed l) (environment_state l) (loop_status l)
    (completed_at l) (stats l).

Definition set_memories_formed (l : LoopRecord) (ms : list MemoryStub)
  : LoopRecord :=
  mkLoopRecord (loop_id l) (loop_player_id l) (loop_loop_number l)
    (started_at l) (duration_seconds l) (time_remaining l)
    (cognitive_state_start l) (active_protocols l) (decisions_made l)
    (items_collected l) ms (environment_state l) (loop_status l)
    (completed_at l) (stats l).

(** Write a loop record back under its id. *)
Definition put_loop (mgr : LoopManager) (id : string) (l : LoopRecord)
  : LoopManager :=
  mkLoopManager (<[id := l]> (active_loops mgr)) (loop_history mgr).

(** [record_decision] *)
Definition record_decision (mgr : LoopManager) (id : string)
    (decision : Decision) (protocol_id : string) : LoopManager * bool :=
  match active_loops mgr !! id with
  | None => (mgr, false)
  | Some loop =>
      let decision_record :=
        mkDecisionRecord (d_timestamp decision) protocol_id
          (d_choice_id decision) (d_mentor_influence decision)
          (d_cognitive_impact decision) (d_confidence decision) in
      (put_loop mgr id
         (set_decisions_made loop (decisions_made loop ++ [decision_record])),
       true)
  end.

(** [collect_item] *)
Definition collect_item (now : Z) (mgr : LoopManager) (id : string)
    (item_id : string) (item_data : list (string * PyValue))
  : LoopManager * bool :=
  match active_loops mgr !! id with
  | None => (mgr, false)
  | Some loop =>
      let item :=
        mkItem item_id now item_data
          (default (PyBool true) (dict_get "persistent" item_data)) in
      (put_loop mgr id
         (set_items_collected loop (items_collected loop ++ [item])),
       true)
  end.

(** [form_memory] *)
Definition form_memory (now : Z) (mgr : LoopManager) (id : string)
    (memory : Memory) : LoopManager * bool :=
  match active_loops mgr !! id with
  | None => (mgr, false)
  | Some loop =>
      let stub :=
        mkMemoryStub (mem_id memory) (mem_type memory) (importance memory)
          (title memory) now in
      (put_loop mgr id
         (set_memories_formed loop (memories_formed loop ++ [stub])),
       true)
  end.

(** Python's truth value of a [PyValue]. *)
Definition truthy (v : PyValue) : bool :=
  match v with
  | PyNone => false
  | PyBool b => b
  | PyNum q => negb (Qeq_bool q 0)
  | PyStr s => negb (String.eqb s "")
  end.

(** What [get_persistent_data] returns: for an unknown player the empty
    lists and an empty ["mentor_relationships"]; for a known one the
    lists and ["total_loops"].  No loop record has an ["areas_unlocked"]
    entry, so the unlocked areas are always empty. *)
Inductive PersistentData : Type :=
  | no_history
  | persistent_data (items : list Item) (memories : list MemoryStub)
      (unlocked_areas : list string) (total_loops : Z).

(** [get_persistent_data] *)
Definition get_persistent_data (mgr : LoopManager) (pid : string)
  : PersistentData :=
  match loop_history mgr !! pid with
  | None => no_history
  | Some history =>
      persistent_data
        (flat_map
           (fun loop =>
              List.filter (fun item => truthy (persists item))
                (items_collected loop))
           history)
        (flat_map memories_formed history)
        []
        (Z.of_nat (length history))
  end.

Definition persistent_items (d : PersistentData) : list Item :=
  match d with
  | no_history => []
  | persistent_data items _ _ _ => items
  end.

Definition persistent_total_loops (d : PersistentData) : option Z :=
  match d with
  | no_history => None
  | persistent_data _ _ _ n => Some n
  end.

(** [l[-k:]] for a positive [k]: the last [k] elements. *)
Definition last_n {A : Type} (k : nat) (l : list A) : list A :=
  drop (length l - k) l.

(** [_calculate_progression_trend]; a record without ["stats"] is
    skipped, and a stats entry always has ["protocols_completed"]. *)
Definition _calculate_progression_trend (history : list LoopRecord)
  : string :=
  if (length history <? 3)%nat then "insufficient_data"
  else
    let recent_scores :=
      omap (fun loop => protocols_completed <$> stats loop)
        (last_n 5 history) in
    if (length recent_scores <? 2)%nat then "insufficient_data"
    else
      let half := (length recent_scores / 2)%nat in
      let avg_early :=
        inject_Z (fold_left Z.add (take half recent_scores) 0%Z)
        / inject_Z (Z.of_nat half) in
      let avg_late :=
        inject_Z (fold_left Z.add (drop half recent_scores) 0%Z)
        / inject_Z (Z.of_nat (length recent_scores - half)) in
      if Qgtb avg_late (avg_early * 1.2) then "improving"
      else if Qltb avg_late (avg_early * 0.8) then "declining"
      else "stable".


(* ===================================================================== *)
(** * backend/utils/decision_tree.py *)
(* ===================================================================== *)

(** A [DecisionNode]: the five attributes [__init__] stores; a branch
    that was not given is [None]. *)
#[warnings="-register-all"]
Inductive DecisionNode : Type :=
  mkDecisionNode (condition : string) (threshold : option Q)
    (true_branch false_branch : option DecisionNode) (result : option string).

(** [DecisionNode.__init__].  An argument the call does not pass is
    [None] here.  [condition] is the one parameter without a default: a
    call without it raises [TypeError]. *)
Definition DecisionNode_init (condition : option string)
    (threshold : option Q) (true_branch false_branch : option DecisionNode)
    (result : option string) : Result DecisionNode :=
  match condition with
  | None => Raise "TypeError"
  | Some c => Ok (mkDecisionNode c threshold true_branch false_branch result)
  end.

(** A call whose argument raised is not made. *)
Definition and_then {A B : Type} (r : Result A) (f : A -> Result B)
  : Result B :=
  match r with
  | Ok a => f a
  | Raise e => Raise e
  end.

(** [build_protocol_selector]: the nested constructor calls, each
    argument evaluated before the call it belongs to, from left to
    right.  The leaves are built as [DecisionNode(result=...)]. *)
Definition build_protocol_selector : Result DecisionNode :=
  and_then
    (and_then
       (DecisionNode_init None None None None (Some "ethical_dilemma"))
       (fun t =>
        and_then
          (DecisionNode_init None None None None (Some "logic_puzzle"))
          (fun f =>
           DecisionNode_init (Some "empathy") (Some 40) (Some t) (Some f)
             None)))
    (fun true_branch =>
     and_then
       (and_then
          (DecisionNode_init None None None None (Some "empathy_simulation"))
          (fun t =>
           and_then
             (and_then
                (DecisionNode_init None None None None
                   (Some "creative_synthesis"))
                (fun t' =>
                 and_then
                   (DecisionNode_init None None None None
                      (Some "emotion_calibration"))
                   (fun f' =>
                    DecisionNode_init (Some "creativity") (Some 50)
                      (Some t') (Some f') None)))
             (fun f =>
              DecisionNode_init (Some "empathy") (Some 60) (Some t) (Some f)
                None)))
       (fun false_branch =>
        DecisionNode_init (Some "logic") (Some 60) (Some true_branch)
          (Some false_branch) None)).

(** [traverse_tree]: a node is a leaf when its [result] is not [None];
    stepping to a branch that is [None] fails on [is_leaf]. *)
Fixpoint traverse_tree (root : DecisionNode)
    (cognitive_state : list (string * Q)) : Result string :=
  match root with
  | mkDecisionNode condition threshold true_branch false_branch result =>
      match result with
      | Some r => Ok r
      | None =>
          let value := default 0 (dict_get condition cognitive_state) in
          let next :=
            match threshold with
            | Some t => if Qleb t value then true_branch else false_branch
            | None => false_branch
            end in
          match next with
          | Some node => traverse_tree node cognitive_state
          | None => Raise "AttributeError"
          end
      end
  end.

(** The ["protocol_type"] and ["confidence"] entries of a
    recommendation. *)
Record Recommendation : Type := mkRecommendation {
  rec_protocol_type : string;
  rec_confidence : Q
}.

(** [get_protocol_recommendation], without the ["reasoning"] text. *)
Definition get_protocol_recommendation (cognitive_state : list (string * Q))
    (recent_protocols : list string) (loop_number : Z)
  : Result Recommendation :=
  and_then build_protocol_selector (fun tree =>
  and_then (traverse_tree tree cognitive_state) (fun base_recommendation =>
  let base_recommendation :=
    match recent_protocols with
    | [] => base_recommendation
    | _ =>
        if str_in base_recommendation (last_n 3 recent_protocols) then
          let alternatives :=
            [ "ethical_dilemma"; "logic_puzzle"; "emotion_calibration";
              "empathy_simulation"; "creative_synthesis" ] in
          let alternatives :=
            List.filter
              (fun a => negb (str_in a (last_n 3 recent_protocols)))
              alternatives in
          match alternatives with
          | a :: _ => a
          | [] => base_recommendation
          end
        else base_recommendation
    end in
  let base_recommendation :=
    if (loop_number mod 5 =? 0)%Z then
      let special_protocols :=
        [ "trust_evaluation"; "bias_identification"; "memory_compression" ] in
      nth (Z.to_nat (loop_number mod 3)) special_protocols base_recommendation
    else base_recommendation in
  Ok (mkRecommendation base_recommendation 0.85))).

(* ===================================================================== *)
(** * Managers built through the interface *)
(* ===================================================================== *)

(** The calls a client can make on a [LoopManager] that change it. *)
Inductive ManagerCall : Type :=
  | call_start_loop (now : Z) (pid : string) (s : CognitiveState)
      (bank : MemoryBank)
  | call_update_loop_timer (now : Z) (id : string) (elapsed : Z)
  | call_complete_loop (now : Z) (id : string)
  | call_add_protocol_to_loop (now : Z) (id pid ptype : string)
  | call_record_decision (id : string) (d : Decision) (protocol_id : string)
  | call_collect_item (now : Z) (id item_id : string)
      (item_data : list (string * PyValue))
  | call_form_memory (now : Z) (id : string) (m : Memory).

Definition run_call (settings : Settings) (mgr : LoopManager)
    (c : ManagerCall) : LoopManager :=
  match c with
  | call_start_loop now pid s bank =>
      fst (start_loop settings now mgr pid s bank)
  | call_update_loop_timer now id elapsed =>
      fst (update_loop_timer now mgr id elapsed)
  | call_complete_loop now id => fst (_complete_loop now mgr id)
  | call_add_protocol_to_loop now id pid ptype =>
      fst (add_protocol_to_loop now mgr id pid ptype)
  | call_record_decision id d protocol_id =>
      fst (record_decision mgr id d protocol_id)
  | call_collect_item now id item_id item_data =>
      fst (collect_item now mgr id item_id item_data)
  | call_form_memory now id m => fst (form_memory now mgr id m)
  end.

(** The manager after a sequence of calls on a new one. *)
Definition run_calls (settings : Settings) (calls : list ManagerCall)
  : LoopManager :=
  fold_left (run_call settings) calls new_manager.

(** An active loop as the interface leaves it. *)
Definition active_ok (id : string) (l : LoopRecord) : Prop :=
  loop_id l = id /\
  loop_status l = "active" /\
  stats l = None /\
  Forall (fun p => completed p = false) (active_protocols l).

(** An archived loop as the interface leaves it. *)
Definition archived_ok (pid : string) (l : LoopRecord) : Prop :=
  loop_player_id l = pid /\
  loop_status l = "completed" /\
  exists st, stats l = Some st /\ protocols_completed st = 0%Z.

Definition manager_ok (mgr : LoopManager) : Prop :=
  (forall id l, active_loops mgr !! id = Some l -> active_ok id l) /\
  (forall pid h, loop_history mgr !! pid = Some h ->
     Forall (archived_ok pid) h).


(** The module [_check_module_unlocks] writes for an unlocked one. *)
Definition unlocked (m : CognitiveModule) : CognitiveModule :=
  set_level (set_status m NASCENT) 5.


(** Two divergence entries of mirrored comparisons: the same module, the
    two levels exchanged. *)
Definition mirror_divergence (d1 d2 : Divergence) : Prop :=
  div_module d1 = div_module d2 /\
  player1_level d1 = player2_level d2 /\
  player2_level d1 = player1_level d2.

Definition mirror_comparison
    (a1 a2 : list Q * list string * list Divergence) : Prop :=
  Forall2 Qeq (fst (fst a1)) (fst (fst a2)) /\
  snd (fst a1) = snd (fst a2) /\
  Forall2 mirror_divergence (snd a1) (snd a2).


(** The module stands above level 20 in the state. *)
Definition above_20 (s : CognitiveState) (n : string) : bool :=
  Qgtb (get_module_level s n) 20.

(** The similarity [compare_consciousness_trees] computes for a module
    when both states are the same one. *)
Definition self_similarity (s : CognitiveState) (n : string) : Q :=
  1 - Qabs' (get_module_level s n - get_module_level s n) / 100.


Definition persistent_memories (d : PersistentData) : list MemoryStub :=
  match d with
  | no_history => []
  | persistent_data _ memories _ _ => memories
  end.

(* ===================================================================== *)
(** * Facts about the helpers *)
(* ===================================================================== *)

Lemma Qltb_lt (x y : Q) : Qltb x y = true <-> x < y.
Proof.
  unfold Qltb. rewrite negb_true_iff. split.
  - intros H. apply Qnot_le_lt. intros Hle.
    apply Qle_bool_iff in Hle. congruence.
  - intros H. destruct (Qle_bool y x) eqn:E; [|reflexivity].
    apply Qle_bool_iff in E. exfalso. exact (Qlt_not_le _ _ H E).
Qed.

Lemma Qltb_ge (x y : Q) : Qltb x y = false <-> y <= x.
Proof.
  unfold Qltb. rewrite negb_false_iff. apply Qle_bool_iff.
Qed.

Lemma Qleb_le (x y : Q) : Qleb x y = true <-> x <= y.
Proof. apply Qle_bool_iff. Qed.

Lemma Qgtb_gt (x y : Q) : Qgtb x y = true <-> y < x.
Proof. apply Qltb_lt. Qed.

Lemma Qgtb_le (x y : Q) : Qgtb x y = false <-> x <= y.
Proof. apply Qltb_ge. Qed.

(** ** Rounding *)

Lemma round_half_even_bounds (q : Q) :
  (Qfloor q <= round_half_even q <= Qfloor q + 1)%Z.
Proof.
  unfold round_half_even.
  destruct (Qcompare _ _); [destruct (Z.even _)| |]; lia.
Qed.

Lemma round_half_even_Z (n : Z) : round_half_even (inject_Z n) = n.
Proof.
  unfold round_half_even. rewrite Qfloor_Z.
  destruct (Qcompare_spec (inject_Z n - inject_Z n) (1 # 2)) as [H|H|H];
    [exfalso; lra|reflexivity|exfalso; lra].
Qed.

Lemma round_half_even_le_Z (q : Q) (n : Z) :
  q <= inject_Z n -> (round_half_even q <= n)%Z.
Proof.
  intros H.
  destruct (Qlt_le_dec q (inject_Z n)) as [Hlt|Hge].
  - assert (Hf : (Qfloor q < n)%Z).
    { rewrite Zlt_Qlt. apply Qle_lt_trans with q; [apply Qfloor_le|exact Hlt]. }
    pose proof (round_half_even_bounds q). lia.
  - assert (He : q == inject_Z n) by lra.
    assert (Hr : round_half_even q = n).
    { unfold round_half_even. rewrite !(Qfloor_comp _ _ He).
      rewrite Qfloor_Z.
      destruct (Qcompare_spec (q - inject_Z n) (1 # 2)) as [H1|H1|H1];
        [exfalso; lra|reflexivity|exfalso; lra]. }
    rewrite Hr. lia.
Qed.

Lemma round_half_even_ge_Z (q : Q) (n : Z) :
  inject_Z n <= q -> (n <= round_half_even q)%Z.
Proof.
  intros H. apply Qfloor_resp_le in H. rewrite Qfloor_Z in H.
  pose proof (round_half_even_bounds q). lia.
Qed.

Lemma round_half_even_mono (x y : Q) :
  x <= y -> (round_half_even x <= round_half_even y)%Z.
Proof.
  intros H.
  pose proof (Qfloor_resp_le _ _ H) as Hf.
  pose proof (round_half_even_bounds x) as Hx.
  pose proof (round_half_even_bounds y) as Hy.
  destruct (Z.eq_dec (Qfloor x) (Qfloor y)) as [He|Hne]; [|lia].
  unfold round_half_even. rewrite <- He.
  destruct (Qcompare_spec (x - inject_Z (Qfloor x)) (1 # 2)) as [H1|H1|H1];
    destruct (Qcompare_spec (y - inject_Z (Qfloor x)) (1 # 2)) as [H2|H2|H2];
    try destruct (Z.even _); try lia; exfalso; lra.
Qed.

Lemma binade_spec (q : Q) :
  0 < q -> 2 ^ binade q <= q /\ q < 2 ^ (binade q + 1).
Proof.
  intros Hq. unfold binade.
  destruct q as [a b]. cbn [Qnum Qden].
  assert (Ha : (0 < a)%Z).
  { unfold Qlt in Hq. cbn in Hq. lia. }
  set (la := Z.log2 a). set (lb := Z.log2 (Z.pos b)).
  destruct (Z.log2_spec a Ha) as [Ha1 Ha2].
  destruct (Z.log2_spec (Z.pos b) ltac:(lia)) as [Hb1 Hb2].
  fold la in Ha1, Ha2. fold lb in Hb1, Hb2.
  assert (Hla : (0 <= la)%Z) by apply Z.log2_nonneg.
  assert (Hlb : (0 <= lb)%Z) by apply Z.log2_nonneg.
  assert (H2 : ~ 2 == 0) by (intros H; discriminate H).
  assert (Pa : 2 ^ la <= inject_Z a).
  { change 2 with (inject_Z 2). rewrite <- Zpower_Qpower by lia.
    now rewrite <- Zle_Qle. }
  assert (Pa' : inject_Z a < 2 ^ (la + 1)).
  { change 2 with (inject_Z 2). rewrite <- Zpower_Qpower by lia.
    rewrite <- Zlt_Qlt. now rewrite Z.add_1_r. }
  assert (Pb : 2 ^ lb <= inject_Z (Z.pos b)).
  { change 2 with (inject_Z 2). rewrite <- Zpower_Qpower by lia.
    now rewrite <- Zle_Qle. }
  assert (Pb' : inject_Z (Z.pos b) < 2 ^ (lb + 1)).
  { change 2 with (inject_Z 2). rewrite <- Zpower_Qpower by lia.
    rewrite <- Zlt_Qlt. now rewrite Z.add_1_r. }
  assert (Hqe : a # b == inject_Z a / inject_Z (Z.pos b)) by apply Qmake_Qdiv.
  assert (Hbpos : 0 < inject_Z (Z.pos b)).
  { change 0 with (inject_Z 0). rewrite <- Zlt_Qlt. lia. }
  assert (Hpa : 0 < 2 ^ la) by now apply Qpower_0_lt.
  assert (Hpb : 0 < 2 ^ lb) by now apply Qpower_0_lt.
  assert (Hup : a # b < 2 ^ (la - lb + 1)).
  { replace (la - lb + 1)%Z with ((la + 1) + - lb)%Z by lia.
    rewrite Qpower_plus, Qpower_opp by exact H2.
    rewrite Hqe. apply Qlt_shift_div_r; [exact Hbpos|].
    set (r := / 2 ^ lb).
    assert (Hr : 0 < r) by now apply Qinv_lt_0_compat.
    assert (Hr1 : r * 2 ^ lb == 1).
    { unfold r. rewrite Qmult_comm. apply Qmult_inv_r. lra. }
    assert (Hrb : 1 <= r * inject_Z (Z.pos b)).
    { rewrite <- Hr1. now apply Qmult_le_l. }
    assert (Hp : 0 < 2 ^ (la + 1)) by now apply Qpower_0_lt.
    nra. }
  assert (Hlo : 2 ^ (la - lb - 1) <= a # b).
  { replace (la - lb - 1)%Z with (la + - (lb + 1))%Z by lia.
    rewrite Qpower_plus, Qpower_opp by exact H2.
    rewrite Hqe. apply Qle_shift_div_l; [exact Hbpos|].
    assert (Hpb1 : 0 < 2 ^ (lb + 1)) by now apply Qpower_0_lt.
    set (r := / 2 ^ (lb + 1)).
    assert (Hr : 0 < r) by now apply Qinv_lt_0_compat.
    assert (Hr1 : r * 2 ^ (lb + 1) == 1).
    { unfold r. rewrite Qmult_comm. apply Qmult_inv_r. lra. }
    assert (Hrb : r * inject_Z (Z.pos b) <= 1).
    { rewrite <- Hr1. apply Qmult_le_l; [exact Hr|now apply Qlt_le_weak]. }
    nra. }
  destruct (Qle_bool (2 ^ (la - lb)) (a # b)) eqn:E.
  - apply Qle_bool_iff in E. split; assumption.
  - split; [exact Hlo|].
    replace (la - lb - 1 + 1)%Z with (la - lb)%Z by lia.
    apply Qnot_le_lt. intros Hc. apply Qle_bool_iff in Hc. congruence.
Qed.

Lemma pow2_pos (e : Z) : 0 < 2 ^ e.
Proof. now apply Qpower_0_lt. Qed.

Lemma binade_mono (x y : Q) : 0 < x -> x <= y -> (binade x <= binade y)%Z.
Proof.
  intros Hx Hxy.
  destruct (binade_spec x Hx) as [H1 _].
  destruct (binade_spec y ltac:(lra)) as [_ H2].
  assert (H : 2 ^ binade x < 2 ^ (binade y + 1)) by lra.
  apply Qpower_lt_compat_l_inv in H; [lia|reflexivity].
Qed.

Lemma round_to_mono (u x y : Q) :
  0 < u -> x <= y -> round_to u x <= round_to u y.
Proof.
  intros Hu Hxy. unfold round_to.
  apply Qmult_le_compat_r; [|lra].
  rewrite <- Zle_Qle. apply round_half_even_mono.
  unfold Qdiv. apply Qmult_le_compat_r; [exact Hxy|].
  apply Qlt_le_weak. now apply Qinv_lt_0_compat.
Qed.

Lemma round_to_le_grid (u q : Q) (n : Z) :
  0 < u -> q <= inject_Z n * u -> round_to u q <= inject_Z n * u.
Proof.
  intros Hu H. unfold round_to.
  apply Qmult_le_compat_r; [|lra].
  rewrite <- Zle_Qle. apply round_half_even_le_Z.
  apply Qle_shift_div_r; assumption.
Qed.

Lemma round_to_ge_grid (u q : Q) (n : Z) :
  0 < u -> inject_Z n * u <= q -> inject_Z n * u <= round_to u q.
Proof.
  intros Hu H. unfold round_to.
  apply Qmult_le_compat_r; [|lra].
  rewrite <- Zle_Qle. apply round_half_even_ge_Z.
  apply Qle_shift_div_l; assumption.
Qed.

Lemma ulp_pos (q : Q) : 0 < ulp q.
Proof. apply pow2_pos. Qed.

Lemma pow2_split (e : Z) (k : Z) : 2 ^ (e + k) == 2 ^ k * 2 ^ e.
Proof. rewrite Qpower_plus by (intros H; discriminate H). ring. Qed.

(** Rounding a positive number is monotone. *)
Lemma round_pos_mono (x y : Q) :
  0 < x -> x <= y -> round_to (ulp x) x <= round_to (ulp y) y.
Proof.
  intros Hx Hxy.
  assert (Hy : 0 < y) by lra.
  pose proof (binade_mono x y Hx Hxy) as Hb.
  destruct (binade_spec x Hx) as [_ Hx2].
  destruct (binade_spec y Hy) as [Hy1 _].
  unfold ulp.
  set (ex := Z.max (binade x) (-1022)).
  set (ey := Z.max (binade y) (-1022)).
  destruct (Z.eq_dec ex ey) as [He|Hne].
  - rewrite He. apply round_to_mono; [apply pow2_pos|exact Hxy].
  - assert (Hlt : (ex < ey)%Z) by lia.
    assert (Hey : ey = binade y) by lia.
    apply Qle_trans with (2 ^ (ex + 1)).
    + assert (Hg : 2 ^ (ex + 1) == inject_Z (2 ^ 53) * 2 ^ (ex - 52)).
      { change (inject_Z (2 ^ 53)) with (2 ^ 53).
        rewrite <- pow2_split. now replace (ex - 52 + 53)%Z with (ex + 1)%Z by lia. }
      rewrite Hg. apply round_to_le_grid; [apply pow2_pos|].
      rewrite <- Hg. apply Qle_trans with (2 ^ (binade x + 1)); [lra|].
      apply Qpower_le_compat_l; [lia|discriminate].
    + apply Qle_trans with (2 ^ ey).
      { apply Qpower_le_compat_l; [lia|discriminate]. }
      assert (Hg : 2 ^ ey == inject_Z (2 ^ 52) * 2 ^ (ey - 52)).
      { change (inject_Z (2 ^ 52)) with (2 ^ 52).
        rewrite <- pow2_split. now replace (ey - 52 + 52)%Z with ey by lia. }
      rewrite Hg. apply round_to_ge_grid; [apply pow2_pos|].
      rewrite <- Hg, Hey. exact Hy1.
Qed.

Lemma round_to_nonneg (u q : Q) : 0 < u -> 0 <= q -> 0 <= round_to u q.
Proof.
  intros Hu Hq.
  assert (H := round_to_ge_grid u q 0 Hu).
  change (inject_Z 0) with 0 in H. lra.
Qed.

Lemma round_double_nonneg (q : Q) : 0 <= q -> 0 <= round_double q.
Proof.
  intros Hq. unfold round_double.
  destruct (Qcompare_spec 0 q) as [H|H|H].
  - lra.
  - apply round_to_nonneg; [apply ulp_pos|lra].
  - lra.
Qed.

Lemma round_double_nonpos (q : Q) : q <= 0 -> round_double q <= 0.
Proof.
  intros Hq. unfold round_double.
  destruct (Qcompare_spec 0 q) as [H|H|H].
  - lra.
  - lra.
  - assert (0 <= round_to (ulp (- q)) (- q)); [|lra].
    apply round_to_nonneg; [apply ulp_pos|lra].
Qed.

(** Rounding to the nearest double is monotone. *)
Lemma round_double_mono (x y : Q) : x <= y -> round_double x <= round_double y.
Proof.
  intros Hxy.
  destruct (Qlt_le_dec 0 x) as [Hx|Hx].
  - unfold round_double.
    destruct (Qcompare_spec 0 x) as [H|H|H]; try lra.
    destruct (Qcompare_spec 0 y) as [H'|H'|H']; try lra.
    now apply round_pos_mono.
  - destruct (Qlt_le_dec y 0) as [Hy|Hy].
    + unfold round_double.
      destruct (Qcompare_spec 0 x) as [H|H|H]; try lra.
      destruct (Qcompare_spec 0 y) as [H'|H'|H']; try lra.
      assert (round_to (ulp (- y)) (- y) <= round_to (ulp (- x)) (- x)); [|lra].
      apply round_pos_mono; lra.
    + apply Qle_trans with 0;
        [now apply round_double_nonpos|now apply round_double_nonneg].
Qed.

#[global] Instance round_double_proper : Proper (Qeq ==> Qeq) round_double.
Proof.
  intros x y H. apply Qle_antisym; apply round_double_mono; lra.
Qed.


Lemma round_half_even_error (t : Q) :
  - (1 # 2) <= inject_Z (round_half_even t) - t /\
  inject_Z (round_half_even t) - t <= 1 # 2.
Proof.
  pose proof (Qfloor_le t) as H1. pose proof (Qlt_floor t) as H2.
  rewrite inject_Z_plus in H2. change (inject_Z 1) with 1 in H2.
  unfold round_half_even.
  destruct (Qcompare_spec (t - inject_Z (Qfloor t)) (1 # 2)) as [H|H|H];
    [destruct (Z.even (Qfloor t))| |];
    rewrite ?inject_Z_plus; change (inject_Z 1) with 1; split; lra.
Qed.

Lemma round_to_error (u q : Q) :
  0 < u ->
  - (u / 2) <= round_to u q - q /\ round_to u q - q <= u / 2.
Proof.
  intros Hu. unfold round_to.
  destruct (round_half_even_error (q / u)) as [H1 H2].
  set (n := inject_Z (round_half_even (q / u))) in *.
  assert (Hq : q == q / u * u) by (field; lra).
  set (t := q / u) in *.
  assert (E : n * u - q == (n - t) * u) by (rewrite Hq; ring).
  assert (Eu : u / 2 == (1 # 2) * u) by field.
  rewrite E, Eu. split.
  - setoid_replace (- ((1 # 2) * u)) with (- (1 # 2) * u)
      using relation Qeq by ring.
    apply Qmult_le_compat_r; lra.
  - apply Qmult_le_compat_r; lra.
Qed.

Lemma round_double_1 : round_double 1 == 1.
Proof. vm_compute. reflexivity. Qed.

(** On the unit interval a rounding moves a number by at most [2^-54]. *)
Lemma round_double_unit (q : Q) :
  0 <= q -> q <= 1 ->
  (0 <= round_double q /\ round_double q <= 1) /\
  - 2 ^ (-54) <= round_double q - q /\ round_double q - q <= 2 ^ (-54).
Proof.
  intros H0 H1. split.
  { split; [now apply round_double_nonneg|].
    rewrite <- round_double_1. now apply round_double_mono. }
  assert (Hp : 0 < 2 ^ (-54)) by apply pow2_pos.
  destruct (Qlt_le_dec q 1) as [Hlt|Hge].
  2:{ assert (He : q == 1) by lra. rewrite He, round_double_1. split; lra. }
  unfold round_double.
  destruct (Qcompare_spec 0 q) as [H|H|H]; [split; lra| |lra].
  destruct (binade_spec q H) as [Hb _].
  assert (Hb1 : (binade q < 0)%Z).
  { apply (Qpower_lt_compat_l_inv 2); [|reflexivity].
    change (2 ^ 0) with 1. lra. }
  assert (Hu : ulp q / 2 <= 2 ^ (-54)).
  { unfold ulp.
    setoid_replace (2 ^ (Z.max (binade q) (-1022) - 52) / 2)
      with (2 ^ (Z.max (binade q) (-1022) - 53)) using relation Qeq.
    - apply Qpower_le_compat_l; [lia|discriminate].
    - replace (Z.max (binade q) (-1022) - 52)%Z
        with (Z.max (binade q) (-1022) - 53 + 1)%Z by lia.
      rewrite pow2_split. change (2 ^ 1) with 2. field. }
  destruct (round_to_error (ulp q) q (ulp_pos q)) as [E1 E2].
  split; lra.
Qed.

Lemma round_pos_error (k : Z) (q : Q) :
  (-1022 <= k)%Z -> 0 < q -> q <= 2 ^ k ->
  - 2 ^ (k - 53) <= round_to (ulp q) q - q /\
  round_to (ulp q) q - q <= 2 ^ (k - 53).
Proof.
  intros Hk H0 Hq.
  destruct (binade_spec q H0) as [Hb _].
  assert (Hbk : (binade q <= k)%Z).
  { apply (Qpower_le_compat_l_inv 2); [lra|reflexivity]. }
  assert (Hu : ulp q / 2 <= 2 ^ (k - 53)).
  { unfold ulp.
    setoid_replace (2 ^ (Z.max (binade q) (-1022) - 52) / 2)
      with (2 ^ (Z.max (binade q) (-1022) - 53)) using relation Qeq.
    - apply Qpower_le_compat_l; [lia|discriminate].
    - replace (Z.max (binade q) (-1022) - 52)%Z
        with (Z.max (binade q) (-1022) - 53 + 1)%Z by lia.
      rewrite pow2_split. change (2 ^ 1) with 2. field. }
  destruct (round_to_error (ulp q) q (ulp_pos q)) as [E1 E2].
  split; lra.
Qed.

(** A rounding moves a number of magnitude at most [2^k] by at most
    [2^(k-53)]. *)
Lemma round_double_error (k : Z) (q : Q) :
  (-1022 <= k)%Z -> - 2 ^ k <= q -> q <= 2 ^ k ->
  - 2 ^ (k - 53) <= round_double q - q /\
  round_double q - q <= 2 ^ (k - 53).
Proof.
  intros Hk Hlo Hhi. unfold round_double.
  assert (Hp : 0 < 2 ^ (k - 53)) by apply pow2_pos.
  destruct (Qcompare_spec 0 q) as [H|H|H].
  - split; lra.
  - now apply round_pos_error.
  - destruct (round_pos_error k (- q) Hk) as [E1 E2]; [lra|lra|].
    split; lra.
Qed.

Lemma float_mul_nonneg (x y : Q) : 0 <= x -> 0 <= y -> 0 <= float_mul x y.
Proof.
  intros Hx Hy. unfold float_mul. apply round_double_nonneg.
  apply Qmult_le_0_compat; now apply round_double_nonneg.
Qed.




Section DictFacts.
Context {V : Type}.
Implicit Types (d : list (string * V)) (k : string) (v : V).

Lemma dict_get_set_eq k v d : dict_get k (dict_set k v d) = Some v.
Proof.
  induction d as [|[k' v'] d IH]; simpl.
  - now rewrite String.eqb_refl.
  - destruct (String.eqb k k') eqn:E; simpl; rewrite E; auto.
Qed.

Lemma dict_get_set_ne k k' v d :
  k <> k' -> dict_get k' (dict_set k v d) = dict_get k' d.
Proof.
  intros Hne. induction d as [|[k0 v0] d IH]; simpl.
  - destruct (String.eqb k' k) eqn:E; [|reflexivity].
    apply String.eqb_eq in E. congruence.
  - destruct (String.eqb k k0) eqn:E; simpl.
    + apply String.eqb_eq in E. subst k0.
      destruct (String.eqb k' k) eqn:E'; [|reflexivity].
      apply String.eqb_eq in E'. congruence.
    + now rewrite IH.
Qed.

Lemma dict_get_set k k' v d :
  dict_get k' (dict_set k v d)
  = if String.eqb k k' then Some v else dict_get k' d.
Proof.
  destruct (String.eqb k k') eqn:E.
  - apply String.eqb_eq in E. subst. apply dict_get_set_eq.
  - apply String.eqb_neq in E. now apply dict_get_set_ne.
Qed.

Lemma dict_set_length_present k v d :
  dict_mem k d = true -> length (dict_set k v d) = length d.
Proof.
  unfold dict_mem. induction d as [|[k' v'] d IH]; simpl; [discriminate|].
  destruct (String.eqb k k'); simpl; auto.
Qed.

Lemma dict_keys_set_present k v d :
  dict_mem k d = true -> dict_keys (dict_set k v d) = dict_keys d.
Proof.
  unfold dict_mem, dict_keys.
  induction d as [|[k' v'] d IH]; simpl; [discriminate|].
  destruct (String.eqb k k'); simpl; [reflexivity|].
  intros H. now rewrite IH.
Qed.
End DictFacts.

Section SortingFacts.
Context {A : Type} (key : A -> Q).

Lemma insert_desc_length (x : A) (l : list A) :
  length (insert_desc key x l) = S (length l).
Proof.
  induction l as [|y l IH]; simpl; [reflexivity|].
  destruct (Qleb (key y) (key x)); simpl; [reflexivity|now rewrite IH].
Qed.

Lemma sorted_desc_length (l : list A) :
  length (sorted_desc key l) = length l.
Proof.
  induction l as [|x l IH]; simpl; [reflexivity|].
  now rewrite insert_desc_length, IH.
Qed.

Lemma insert_desc_perm (x : A) (l : list A) :
  Permutation (x :: l) (insert_desc key x l).
Proof.
  induction l as [|y l IH]; simpl; [reflexivity|].
  destruct (Qleb (key y) (key x)); [reflexivity|].
  rewrite perm_swap. now apply perm_skip.
Qed.

Lemma sorted_desc_perm (l : list A) : Permutation l (sorted_desc key l).
Proof.
  induction l as [|x l IH]; simpl; [reflexivity|].
  rewrite <- insert_desc_perm. now apply perm_skip.
Qed.

(** The result is ordered by decreasing key. *)
Inductive desc : list A -> Prop :=
  | desc_nil : desc []
  | desc_cons x l :
      Forall (fun y => key y <= key x) l -> desc l -> desc (x :: l).

Lemma insert_desc_sorted (x : A) (l : list A) :
  desc l -> desc (insert_desc key x l).
Proof.
  induction 1 as [|y l Hy Hl IH]; simpl.
  - constructor; constructor.
  - destruct (Qleb (key y) (key x)) eqn:E.
    + apply Qleb_le in E. constructor; [|now constructor].
      constructor; [exact E|].
      eapply Forall_impl; [exact Hy|].
      intros z Hz. simpl in Hz. eapply Qle_trans; eauto.
    + constructor; [|exact IH].
      rewrite <- insert_desc_perm. constructor; [|exact Hy].
      unfold Qleb in E.
      destruct (Qlt_le_dec (key y) (key x)) as [Hlt|Hle];
        [|exact Hle].
      apply Qlt_le_weak in Hlt. apply Qle_bool_iff in Hlt. congruence.
Qed.

Lemma sorted_desc_sorted (l : list A) : desc (sorted_desc key l).
Proof.
  induction l as [|x l IH]; simpl; [constructor|].
  now apply insert_desc_sorted.
Qed.
End SortingFacts.

Lemma slice_to_length {A : Type} (k : Z) (l : list A) :
  (0 <= k)%Z -> (Z.of_nat (length (slice_to k l)) <= k)%Z.
Proof.
  intros Hk. unfold slice_to.
  destruct (0 <=? k)%Z eqn:E; [|lia].
  rewrite length_take. lia.
Qed.

Lemma slice_to_all {A : Type} (k : Z) (l : list A) :
  (Z.of_nat (length l) <= k)%Z -> slice_to k l = l.
Proof.
  intros Hk. unfold slice_to.
  destruct (0 <=? k)%Z eqn:E; [|lia].
  apply take_ge. lia.
Qed.

(* ===================================================================== *)
(** * The memory bank *)
(* ===================================================================== *)

Section Scored.
Context {A : Type} (f : A -> Q).

Lemma insert_desc_scored (x : A) (s : list (A * Q)) :
  Forall (fun p => snd p = f (fst p)) s ->
  map fst (insert_desc snd (x, f x) s) = insert_desc f x (map fst s).
Proof.
  induction 1 as [|[y q] s Hq Hs IHs]; simpl in *; [reflexivity|].
  subst q. destruct (Qleb (f y) (f x)); simpl; [reflexivity|].
  now rewrite IHs.
Qed.

Lemma sorted_scored_consistent (l : list A) :
  Forall (fun p => snd p = f (fst p)) (sorted_desc snd (map (fun m => (m, f m)) l)).
Proof.
  rewrite <- sorted_desc_perm.
  apply Forall_map, Forall_forall. now intros.
Qed.

(** Sorting the pairs [(m, score m)] on the score and dropping the scores
    is sorting the memories by their score. *)
Lemma sorted_desc_scored (l : list A) :
  map fst (sorted_desc snd (map (fun m => (m, f m)) l)) = sorted_desc f l.
Proof.
  induction l as [|x l IH]; simpl; [reflexivity|].
  rewrite <- IH. apply insert_desc_scored, sorted_scored_consistent.
Qed.
End Scored.

Lemma consolidate_memories_length (now : Z) (b : MemoryBank) :
  (0 <= capacity b)%Z ->
  (Z.of_nat (length (memories (consolidate_memories now b))) <= capacity b)%Z.
Proof.
  intros Hc. unfold consolidate_memories. simpl.
  rewrite length_map. now apply slice_to_length.
Qed.

(** A consolidation pass keeps the [capacity] best memories by
    [decay_factor * access_count * (1 + 0.1 * tag_count)], best first. *)
Lemma consolidate_memories_top (now : Z) (b : MemoryBank) :
  (0 <= capacity b)%Z ->
  memories (consolidate_memories now b)
  = top_by_score now (Z.to_nat (capacity b)) (memories b).
Proof.
  intros Hc. unfold consolidate_memories, top_by_score, slice_to. simpl.
  destruct (0 <=? capacity b)%Z eqn:E; [|lia].
  rewrite <- (sorted_desc_scored (retention_score now)).
  symmetry. apply firstn_map.
Qed.

(** At capacity the pass drops nothing. *)
Lemma consolidate_memories_at_capacity (now : Z) (b : MemoryBank) :
  Z.of_nat (length (memories b)) = capacity b ->
  length (memories (consolidate_memories now b)) = length (memories b).
Proof.
  intros Hc. unfold consolidate_memories. simpl.
  rewrite slice_to_all.
  - now rewrite length_map, sorted_desc_length, length_map.
  - rewrite sorted_desc_length, length_map. lia.
Qed.

(** An insertion into a full bank leaves it one over its capacity. *)
Lemma add_memory_at_capacity (now : Z) (b : MemoryBank) (m : Memory) :
  Z.of_nat (length (memories b)) = capacity b ->
  Z.of_nat (length (memories (add_memory now b m))) = (capacity b + 1)%Z.
Proof.
  intros Hc. unfold add_memory.
  destruct (capacity b <=? Z.of_nat (length (memories b)))%Z eqn:E; [|lia].
  simpl. rewrite length_app, length_map. simpl.
  pose proof (consolidate_memories_at_capacity now b Hc) as H.
  unfold consolidate_memories in H. simpl in H.
  rewrite length_map in H. lia.
Qed.

(** What the code does keep: at most one memory over the capacity. *)
Lemma add_memory_length_bound (now : Z) (b : MemoryBank) (m : Memory) :
  (0 <= capacity b)%Z ->
  (Z.of_nat (length (memories (add_memory now b m))) <= capacity b + 1)%Z.
Proof.
  intros Hc. unfold add_memory.
  destruct (capacity b <=? Z.of_nat (length (memories b)))%Z eqn:E.
  - pose proof (consolidate_memories_length now b Hc) as H.
    simpl in *. rewrite length_app. simpl. lia.
  - simpl. rewrite length_app. simpl. lia.
Qed.

Lemma add_memory_capacity (now : Z) (b : MemoryBank) (m : Memory) :
  capacity (add_memory now b m) = capacity b.
Proof. unfold add_memory. now destruct (_ <=? _)%Z. Qed.

Lemma add_memories_capacity (calls : list (Z * Memory)) (b : MemoryBank) :
  capacity (add_memories b calls) = capacity b.
Proof.
  revert b. induction calls as [|c calls IH]; intros b; [reflexivity|].
  unfold add_memories in *. simpl. now rewrite IH, add_memory_capacity.
Qed.

Lemma add_memories_length_bound (calls : list (Z * Memory)) (b : MemoryBank) :
  (0 <= capacity b)%Z ->
  (Z.of_nat (length (memories b)) <= capacity b + 1)%Z ->
  (Z.of_nat (length (memories (add_memories b calls))) <= capacity b + 1)%Z.
Proof.
  revert b. induction calls as [|[now m] calls IH]; intros b Hc Hb; [exact Hb|].
  unfold add_memories in *. simpl.
  rewrite <- (add_memory_capacity now b m).
  apply IH; rewrite add_memory_capacity; [exact Hc|].
  now apply add_memory_length_bound.
Qed.

(** C1.  The capacity invariant [len(memories) <= capacity] does not
    survive [add_memory]: the pass that runs on a full bank keeps
    [capacity] memories, that is all of them, and the new memory is then
    appended.  Starting from the empty bank of capacity 100, the 101st
    insertion leaves 101 memories. *)
Theorem add_memory_exceeds_capacity :
  let b0 := new_bank "p1" in
  let b := add_memories b0 (repeat (0%Z, sample_memory "m") 101) in
  (Z.of_nat (length (memories b0)) <= capacity b0)%Z /\
  capacity b = 100%Z /\
  length (memories b) = 101%nat.
Proof. vm_compute. repeat split. discriminate. Qed.

Lemma add_memory_total (now : Z) (b : MemoryBank) (m : Memory) :
  total_memories (add_memory now b m) = (total_memories b + 1)%Z.
Proof. unfold add_memory. now destruct (_ <=? _)%Z. Qed.

Lemma add_memory_player (now : Z) (b : MemoryBank) (m : Memory) :
  bank_player_id (add_memory now b m) = bank_player_id b.
Proof. unfold add_memory. now destruct (_ <=? _)%Z. Qed.

Lemma add_memories_total (calls : list (Z * Memory)) (b : MemoryBank) :
  total_memories (add_memories b calls)
  = (total_memories b + Z.of_nat (length calls))%Z.
Proof.
  revert b. induction calls as [|[now m] calls IH]; intros b.
  - simpl. lia.
  - unfold add_memories in *. simpl. rewrite IH, add_memory_total. lia.
Qed.

(** C10.  [add_memory] adds exactly 1 to [total_memories] and
    [consolidate_memories] changes nothing but the [memories] list, so
    after any run of insertions [total_memories] has grown by the number
    of insertions: it counts the memories ever added, not the ones held
    (102 insertions into the empty bank of capacity 100 leave the counter
    at 102 and fewer memories in the list). *)
Theorem total_memories_counts_insertions :
  (forall now b m,
     total_memories (add_memory now b m) = (total_memories b + 1)%Z) /\
  (forall now b,
     total_memories (consolidate_memories now b) = total_memories b /\
     capacity (consolidate_memories now b) = capacity b /\
     bank_player_id (consolidate_memories now b) = bank_player_id b) /\
  (forall b calls,
     total_memories (add_memories b calls)
     = (total_memories b + Z.of_nat (length calls))%Z /\
     (total_memories b <= total_memories (add_memories b calls))%Z) /\
  (let b := add_memories (new_bank "p1")
              (repeat (0%Z, sample_memory "m") 102) in
   total_memories b = 102%Z /\
   (Z.of_nat (length (memories b)) < total_memories b)%Z).
Proof.
  split; [exact add_memory_total|].
  split; [intros now b; repeat split|].
  split.
  - intros b calls. rewrite add_memories_total. split; lia.
  - vm_compute. split; reflexivity.
Qed.

(* ===================================================================== *)
(** * Cognitive modules *)
(* ===================================================================== *)

Lemma update_status_level (m : CognitiveModule) :
  level (update_status m) = level m.
Proof.
  unfold update_status.
  repeat match goal with |- context [if ?c then _ else _] => destruct c end;
    reflexivity.
Qed.

(** After [update_status] the status is LOCKED exactly at level 0. *)
Lemma update_status_locked (m : CognitiveModule) :
  status (update_status m) = LOCKED <-> level m == 0.
Proof.
  unfold update_status. destruct (Qeq_bool (level m) 0) eqn:E.
  - apply Qeq_bool_iff in E. simpl. tauto.
  - assert (~ level m == 0) by (intros H; apply Qeq_bool_iff in H; congruence).
    repeat match goal with |- context [if ?c then _ else _] => destruct c end;
      simpl; split; (discriminate || tauto).
Qed.

Lemma gain_experience_level (m : CognitiveModule) (amount : Q) :
  level (gain_experience m amount) = Qmin 100 (level m + amount).
Proof. unfold gain_experience. now rewrite update_status_level. Qed.

Lemma gain_experience_locked (m : CognitiveModule) (amount : Q) :
  status (gain_experience m amount) = LOCKED
  <-> level (gain_experience m amount) == 0.
Proof.
  rewrite gain_experience_level. unfold gain_experience.
  now rewrite update_status_locked.
Qed.

(** The clamp [gain_experience] does apply: the level never passes 100. *)
Lemma gain_experience_le_100 (m : CognitiveModule) (amount : Q) :
  level (gain_experience m amount) <= 100.
Proof. rewrite gain_experience_level. apply Q.le_min_l. Qed.

(** Without a lower clamp the level stays non-negative only when the
    sum does. *)
Lemma gain_experience_ge_0 (m : CognitiveModule) (amount : Q) :
  0 <= level m + amount -> 0 <= level (gain_experience m amount).
Proof.
  intros H. rewrite gain_experience_level.
  apply Q.min_glb; [discriminate | exact H].
Qed.

Lemma gain_experience_pos (m : CognitiveModule) (amount : Q) :
  0 < level m -> 0 <= amount -> 0 < level (gain_experience m amount).
Proof.
  intros Hl Ha. rewrite gain_experience_level.
  apply Q.min_glb_lt; [reflexivity | lra].
Qed.

(** C2.  [gain_experience] clamps the level at 100 only.  The module
    ["trust"] of a fresh state stands at level 0, within [0, 100]; a delta
    of -0.1 takes it to -0.1. *)
Theorem gain_experience_below_zero :
  exists m : CognitiveModule,
    dict_get "trust" (modules (initialize_cognitive_state 0 "p1")) = Some m /\
    (0 <= level m /\ level m <= 100) /\
    level (gain_experience m (-0.1)) == -0.1 /\
    level (gain_experience m (-0.1)) < 0.
Proof.
  eexists. split; [vm_compute; reflexivity|].
  vm_compute. repeat split; discriminate.
Qed.

(* ===================================================================== *)
(** * Cognitive states *)
(* ===================================================================== *)

Lemma dict_get_None {V : Type} (k : string) (d : list (string * V)) :
  ~ In k (dict_keys d) -> dict_get k d = None.
Proof.
  induction d as [|[k' v] d IH]; simpl; [reflexivity|].
  intros H. destruct (String.eqb k k') eqn:E.
  - apply String.eqb_eq in E. subst. tauto.
  - apply IH. tauto.
Qed.

Lemma dict_get_Some_In {V : Type} (k : string) (v : V)
    (d : list (string * V)) :
  dict_get k d = Some v -> In k (dict_keys d).
Proof.
  induction d as [|[k' v'] d IH]; simpl; [discriminate|].
  destruct (String.eqb k k') eqn:E.
  - apply String.eqb_eq in E. auto.
  - auto.
Qed.

Lemma calculate_evolution_score_modules (s : CognitiveState) :
  modules (calculate_evolution_score s) = modules s.
Proof.
  unfold calculate_evolution_score.
  destruct (modules s) eqn:E; simpl; congruence.
Qed.

Lemma update_module_modules (s : CognitiveState) (k : string) (d : Q) :
  modules (update_module s k d)
  = match dict_get k (modules s) with
    | None => modules s
    | Some m => dict_set k (gain_experience m d) (modules s)
    end.
Proof.
  unfold update_module. destruct (dict_get k (modules s)); [|reflexivity].
  unfold update_dominant_traits. simpl.
  now rewrite calculate_evolution_score_modules.
Qed.

(** A direct recomputation establishes the score formula. *)
Lemma calculate_evolution_score_ok (s : CognitiveState) :
  score_invariant (calculate_evolution_score s).
Proof.
  unfold score_invariant, calculate_evolution_score, evolution_formula.
  destruct (modules s) as [|p ms] eqn:E; simpl; rewrite E.
  - reflexivity.
  - set (n := Z.of_nat (length (p :: ms))).
    assert (Hn : (0 < n * 100)%Z) by (unfold n; simpl; lia).
    destruct (0 <? n * 100)%Z eqn:En; [|lia].
    rewrite inject_Z_mult. reflexivity.
Qed.

(** [update_module] on a known module leaves the score at the formula:
    its last write to the score is that same recomputation. *)
Lemma update_module_ok (s : CognitiveState) (k : string) (d : Q) :
  dict_mem k (modules s) = true -> score_invariant (update_module s k d).
Proof.
  unfold dict_mem, update_module.
  destruct (dict_get k (modules s)) as [m|]; [intros _|discriminate].
  unfold score_invariant, update_dominant_traits. simpl.
  apply calculate_evolution_score_ok.
Qed.

Lemma update_module_recomputes (s : CognitiveState) (k : string) (d : Q) :
  dict_mem k (modules s) = true ->
  evolution_score (update_module s k d)
  = evolution_score (calculate_evolution_score (update_module s k d)).
Proof.
  unfold dict_mem, update_module.
  destruct (dict_get k (modules s)) as [m|]; [intros _|discriminate].
  unfold update_dominant_traits, calculate_evolution_score. simpl.
  destruct (dict_set k (gain_experience m d) (modules s)); reflexivity.
Qed.

(** C7.  A fresh state for "p1" holds the eight known modules in the
    order of the configuration; logic, empathy, curiosity and fear stand
    at level 5, NASCENT, the four others at level 0, LOCKED, and the
    score is 2.5. *)
Theorem initialize_cognitive_state_p1 (now : Z) :
  let s := initialize_cognitive_state now "p1" in
  map (fun nm => (fst nm, name (snd nm), level (snd nm), status (snd nm)))
    (modules s)
  = [ ("logic", "logic", 5, NASCENT);
      ("empathy", "empathy", 5, NASCENT);
      ("creativity", "creativity", 0, LOCKED);
      ("fear", "fear", 5, NASCENT);
      ("trust", "trust", 0, LOCKED);
      ("humor", "humor", 0, LOCKED);
      ("curiosity", "curiosity", 5, NASCENT);
      ("ethics", "ethics", 0, LOCKED) ] /\
  dict_keys (modules s) = COGNITIVE_MODULES /\
  evolution_score s == 2.5 /\
  player_id s = "p1" /\ loop_number s = 0%Z.
Proof. vm_compute. repeat split. Qed.

(* ===================================================================== *)
(** * Protocol difficulty *)
(* ===================================================================== *)

(** The if-chain of [calculate_protocol_difficulty] picks the tier of the
    breakpoints 20, 40, 60, 80. *)
Lemma difficulty_chain_in_tier (avg : Q) :
  in_tier avg
    (if Qltb avg 20 then "nascent"
     else if Qltb avg 40 then "developing"
     else if Qltb avg 60 then "proficient"
     else if Qltb avg 80 then "advanced"
     else "transcendent").
Proof.
  destruct (Qltb avg 20) eqn:E20; [apply tier_nascent; now apply Qltb_lt|].
  apply Qltb_ge in E20.
  destruct (Qltb avg 40) eqn:E40;
    [apply tier_developing; [|apply Qltb_lt]; assumption|].
  apply Qltb_ge in E40.
  destruct (Qltb avg 60) eqn:E60;
    [apply tier_proficient; [|apply Qltb_lt]; assumption|].
  apply Qltb_ge in E60.
  destruct (Qltb avg 80) eqn:E80;
    [apply tier_advanced; [|apply Qltb_lt]; assumption|].
  apply Qltb_ge in E80. now apply tier_transcendent.
Qed.

(** The tiers do not overlap: the average decides the tier. *)
Lemma in_tier_unique (avg : Q) (t1 t2 : string) :
  in_tier avg t1 -> in_tier avg t2 -> t1 = t2.
Proof. destruct 1; destruct 1; try reflexivity; lra. Qed.

Lemma relevance_map_keys : dict_keys relevance_map = PROTOCOL_TYPES.
Proof. reflexivity. Qed.

(** A known type has the two or three modules of its table entry; any
    other type has logic and empathy. *)
Lemma _get_relevant_modules_cases (protocol_type : string) :
  (In protocol_type PROTOCOL_TYPES /\
   dict_get protocol_type relevance_map
   = Some (_get_relevant_modules protocol_type) /\
   (2 <= length (_get_relevant_modules protocol_type) <= 3)%nat)
  \/
  (~ In protocol_type PROTOCOL_TYPES /\
   _get_relevant_modules protocol_type = ["logic"; "empathy"]).
Proof.
  destruct (In_dec String.string_dec protocol_type PROTOCOL_TYPES) as [Hin|Hout].
  - left. split; [exact Hin|].
    simpl in Hin.
    repeat (destruct Hin as [<-|Hin]; [vm_compute; split; [reflexivity|lia]|]).
    destruct Hin.
  - right. split; [exact Hout|].
    unfold _get_relevant_modules.
    rewrite dict_get_None; [reflexivity|].
    now rewrite relevance_map_keys.
Qed.

Lemma round_double_512 (q : Q) :
  - 512 <= q -> q <= 512 ->
  - 2 ^ (-44) <= round_double q - q /\ round_double q - q <= 2 ^ (-44).
Proof. intros Hlo Hhi. now apply (round_double_error 9); [lia| |]. Qed.

(** The float mean of two or three levels of magnitude at most 100 is
    within [2^-42] of their exact mean: at most nine roundings of numbers
    below 512 before the division, and one after it. *)
Lemma float_mean_error (levels : list Q) :
  (2 <= length levels <= 3)%nat ->
  Forall (fun l => - 100 <= l /\ l <= 100) levels ->
  - 2 ^ (-42)
  <= float_mean levels - Qsum levels / inject_Z (Z.of_nat (length levels)) /\
  float_mean levels - Qsum levels / inject_Z (Z.of_nat (length levels))
  <= 2 ^ (-42).
Proof.
  intros Hlen Hall.
  assert (He0 : 0 < 2 ^ (-44)) by reflexivity.
  assert (He1 : 2 ^ (-44) <= 1) by discriminate.
  assert (He4 : 2 ^ (-42) == 4 * 2 ^ (-44)) by reflexivity.
  assert (R2 : round_double (inject_Z 2) == 2) by (vm_compute; reflexivity).
  assert (R3 : round_double (inject_Z 3) == 3) by (vm_compute; reflexivity).
  rewrite He4. set (e := 2 ^ (-44)) in *.
  destruct levels as [|a [|b [|c [|d l]]]]; simpl in Hlen; try lia.
  - apply Forall_cons in Hall as [Ha Hall].
    apply Forall_cons in Hall as [Hb _].
    unfold float_mean, float_sum, Qsum. cbn [fold_left length Z.of_nat].
    unfold float_add, float_div.
    change (round_double 0) with 0.
    change (Z.of_nat 2) with 2%Z. rewrite R2.
    destruct (round_double_512 a) as [A1 A2]; [lra|lra|].
    set (ra := round_double a) in *.
    destruct (round_double_512 (0 + ra)) as [S1 S1']; [lra|lra|].
    set (s1 := round_double (0 + ra)) in *.
    destruct (round_double_512 s1) as [T1 T1']; [lra|lra|].
    set (rs1 := round_double s1) in *.
    destruct (round_double_512 b) as [B1 B2]; [lra|lra|].
    set (rb := round_double b) in *.
    destruct (round_double_512 (rs1 + rb)) as [S2 S2']; [lra|lra|].
    set (s2 := round_double (rs1 + rb)) in *.
    destruct (round_double_512 s2) as [T2 T2']; [lra|lra|].
    set (rs2 := round_double s2) in *.
    unfold Qdiv. change (/ 2) with (1 # 2).
    change (/ inject_Z 2) with (1 # 2).
    destruct (round_double_512 (rs2 * (1 # 2))) as [M1 M2]; [lra|lra|].
    set (m := round_double (rs2 * (1 # 2))) in *.
    split; lra.
  - apply Forall_cons in Hall as [Ha Hall].
    apply Forall_cons in Hall as [Hb Hall].
    apply Forall_cons in Hall as [Hc _].
    unfold float_mean, float_sum, Qsum. cbn [fold_left length Z.of_nat].
    unfold float_add, float_div.
    change (round_double 0) with 0.
    change (Z.of_nat 3) with 3%Z. rewrite R3.
    destruct (round_double_512 a) as [A1 A2]; [lra|lra|].
    set (ra := round_double a) in *.
    destruct (round_double_512 (0 + ra)) as [S1 S1']; [lra|lra|].
    set (s1 := round_double (0 + ra)) in *.
    destruct (round_double_512 s1) as [T1 T1']; [lra|lra|].
    set (rs1 := round_double s1) in *.
    destruct (round_double_512 b) as [B1 B2]; [lra|lra|].
    set (rb := round_double b) in *.
    destruct (round_double_512 (rs1 + rb)) as [S2 S2']; [lra|lra|].
    set (s2 := round_double (rs1 + rb)) in *.
    destruct (round_double_512 s2) as [T2 T2']; [lra|lra|].
    set (rs2 := round_double s2) in *.
    destruct (round_double_512 c) as [C1 C2]; [lra|lra|].
    set (rc := round_double c) in *.
    destruct (round_double_512 (rs2 + rc)) as [S3 S3']; [lra|lra|].
    set (s3 := round_double (rs2 + rc)) in *.
    destruct (round_double_512 s3) as [T3 T3']; [lra|lra|].
    set (rs3 := round_double s3) in *.
    unfold Qdiv. change (/ 3) with (1 # 3).
    change (/ inject_Z 3) with (1 # 3).
    destruct (round_double_512 (rs3 * (1 # 3))) as [M1 M2]; [lra|lra|].
    set (m := round_double (rs3 * (1 # 3))) in *.
    split; lra.
Qed.

(** C8.  [calculate_protocol_difficulty] takes the modules the relevance
    table lists for the protocol type (one of the 8 known types, with two
    or three modules) or logic and empathy for any other type, reads the
    level the state's [modules] hold for each (0 for a name without an
    entry), averages these levels as floats, and returns the tier of that
    average for the breakpoints 20, 40, 60 and 80.  The float average is
    within [2^-42] of the exact one when no level exceeds 100 in
    magnitude, so the tier is that of the exact average except within
    that distance of a breakpoint. *)
Theorem calculate_protocol_difficulty_tier
    (state : CognitiveState) (protocol_type : string) :
  let relevant := _get_relevant_modules protocol_type in
  let levels :=
    map (fun module_name =>
           match dict_get module_name (modules state) with
           | Some m => level m
           | None => 0
           end)
        relevant in
  length PROTOCOL_TYPES = 8%nat /\
  ((In protocol_type PROTOCOL_TYPES /\
    dict_get protocol_type relevance_map = Some relevant /\
    (2 <= length relevant <= 3)%nat)
   \/
   (~ In protocol_type PROTOCOL_TYPES /\ relevant = ["logic"; "empathy"])) /\
  in_tier (float_mean levels)
    (calculate_protocol_difficulty state protocol_type) /\
  (Forall (fun l => - 100 <= l /\ l <= 100) levels ->
   - 2 ^ (-42)
   <= float_mean levels - Qsum levels / inject_Z (Z.of_nat (length levels)) /\
   float_mean levels - Qsum levels / inject_Z (Z.of_nat (length levels))
   <= 2 ^ (-42)).
Proof.
  intros relevant levels. split; [reflexivity|].
  split; [apply _get_relevant_modules_cases|].
  assert (Hlv : levels = map (get_module_level state) relevant).
  { unfold levels. apply map_ext. intros module_name.
    unfold get_module_level.
    now destruct (dict_get module_name (modules state)). }
  assert (Hlen : (2 <= length levels <= 3)%nat).
  { unfold levels. rewrite length_map. unfold relevant.
    destruct (_get_relevant_modules_cases protocol_type)
      as [(_ & _ & Hlen)|(_ & ->)]; [exact Hlen|simpl; lia]. }
  split; [|now apply float_mean_error].
  rewrite Hlv. subst relevant. unfold calculate_protocol_difficulty.
  destruct (_get_relevant_modules_cases protocol_type)
    as [(_ & _ & Hl)|(_ & Heq)].
  - destruct (_get_relevant_modules protocol_type) as [|r rs];
      [simpl in Hl; lia|].
    unfold float_mean. rewrite length_map. apply difficulty_chain_in_tier.
  - rewrite Heq. apply difficulty_chain_in_tier.
Qed.

(** At the breakpoint 20: the exact mean of 19.9, 20.2 and 19.9 is 20,
    the floats give a mean just below it, and the tier is "nascent". *)
Lemma calculate_protocol_difficulty_tier_witness :
  let levels := [19.9; 20.2; 19.9] in
  _get_relevant_modules "ethical_dilemma" = ["empathy"; "logic"; "ethics"] /\
  map (get_module_level borderline_state) ["empathy"; "logic"; "ethics"]
  = levels /\
  Forall (fun l => - 100 <= l /\ l <= 100) levels /\
  calculate_protocol_difficulty borderline_state "ethical_dilemma"
  = "nascent" /\
  in_tier (float_mean levels) "nascent" /\
  Qsum levels / inject_Z (Z.of_nat (length levels)) == 20 /\
  - 2 ^ (-42) <= float_mean levels - 20 /\
  float_mean levels - 20 <= 2 ^ (-42).
Proof.
  intros levels.
  assert (Hall : Forall (fun l => - 100 <= l /\ l <= 100) levels).
  { unfold levels. repeat constructor; discriminate. }
  assert (Hmean : Qsum levels / inject_Z (Z.of_nat (length levels)) == 20)
    by (vm_compute; reflexivity).
  destruct (calculate_protocol_difficulty_tier borderline_state
              "ethical_dilemma") as (_ & _ & Htier & Herr).
  assert (Hd : calculate_protocol_difficulty borderline_state
                 "ethical_dilemma" = "nascent") by (vm_compute; reflexivity).
  rewrite Hd in Htier.
  split; [reflexivity|]. split; [vm_compute; reflexivity|].
  split; [exact Hall|]. split; [exact Hd|].
  split; [exact Htier|]. split; [exact Hmean|].
  rewrite <- Hmean. exact (Herr Hall).
Defined.

(* ===================================================================== *)
(** * Decision impacts *)
(* ===================================================================== *)

Section Evolves.
Variable D : Q -> Prop.
Variable k : string.

Lemma evolves_refl (s : CognitiveState) : evolves D k s s.
Proof. intros m Hm. exists m. split; [exact Hm|apply rtc_refl]. Qed.

Lemma evolves_trans (s1 s2 s3 : CognitiveState) :
  evolves D k s1 s2 -> evolves D k s2 s3 -> evolves D k s1 s3.
Proof.
  intros H12 H23 m Hm.
  destruct (H12 m Hm) as (m2 & Hm2 & R12).
  destruct (H23 m2 Hm2) as (m3 & Hm3 & R23).
  exists m3. split; [exact Hm3|]. now apply rtc_trans with m2.
Qed.

Lemma update_module_evolves (s : CognitiveState) (j : string) (d : Q) :
  (j = k -> D d) -> evolves D k s (update_module s j d).
Proof.
  intros HD m Hm. rewrite update_module_modules.
  destruct (dict_get j (modules s)) as [mj|] eqn:Ej.
  - rewrite dict_get_set. destruct (String.eqb j k) eqn:E.
    + apply String.eqb_eq in E. subst j.
      assert (mj = m) by congruence. subst mj.
      exists (gain_experience m d). split; [reflexivity|].
      apply rtc_once. constructor. now apply HD.
    + exists m. split; [exact Hm|apply rtc_refl].
  - exists m. split; [exact Hm|apply rtc_refl].
Qed.

Lemma apply_direct_impacts_evolves (impact : list (string * Q))
    (s : CognitiveState) :
  deltas_in D k impact -> evolves D k s (apply_direct_impacts s impact).
Proof.
  unfold apply_direct_impacts, deltas_in. revert s.
  induction impact as [|[j d] impact IH]; intros s HD; simpl.
  - apply evolves_refl.
  - apply Forall_cons in HD as [Hd HD]. simpl in Hd.
    eapply evolves_trans; [|apply IH; exact HD].
    destruct (dict_mem j (modules s)).
    + now apply update_module_evolves.
    + apply evolves_refl.
Qed.

Lemma apply_mentor_bonus_evolves (s : CognitiveState)
    (mentor : option string) :
  D 0.05 -> evolves D k s (apply_mentor_bonus s mentor).
Proof.
  intros HD. unfold apply_mentor_bonus.
  destruct mentor as [mentor|]; [|apply evolves_refl].
  destruct (String.eqb mentor ""); [apply evolves_refl|].
  destruct (dict_get mentor MENTORS) as [mt|]; [|apply evolves_refl].
  generalize (traits mt) as ts. intros ts. revert s.
  induction ts as [|t ts IH]; intros s; simpl; [apply evolves_refl|].
  eapply evolves_trans; [|apply IH].
  destruct (dict_mem t (modules s)).
  - now apply update_module_evolves.
  - apply evolves_refl.
Qed.

Lemma unlock_step_evolves (s : CognitiveState) (j : string) :
  evolves D k s (unlock_step s j).
Proof.
  unfold unlock_step.
  destruct (dict_get j (modules s)) as [mj|] eqn:Ej; [|apply evolves_refl].
  destruct (decide (status mj = LOCKED)) as [Hl|]; [|apply evolves_refl].
  destruct (is_unlocked mj (to_dict s)); [|apply evolves_refl].
  intros m Hm. simpl. rewrite dict_get_set.
  destruct (String.eqb j k) eqn:E.
  - apply String.eqb_eq in E. subst j.
    assert (mj = m) by congruence. subst mj.
    eexists. split; [reflexivity|]. apply rtc_once. now constructor.
  - exists m. split; [exact Hm|apply rtc_refl].
Qed.

Lemma _check_module_unlocks_evolves (s : CognitiveState) :
  evolves D k s (_check_module_unlocks s).
Proof.
  unfold _check_module_unlocks.
  generalize (dict_keys (modules s)) as ks. intros ks. revert s.
  induction ks as [|j ks IH]; intros s; simpl; [apply evolves_refl|].
  eapply evolves_trans; [apply unlock_step_evolves|apply IH].
Qed.

Lemma _trigger_breakthrough_evolves (o : Oracle) (s : CognitiveState) :
  D 10 -> evolves D k s (_trigger_breakthrough o s).
Proof.
  intros HD. unfold _trigger_breakthrough.
  destruct (dict_keys _) as [|d ds]; [apply evolves_refl|].
  now apply update_module_evolves.
Qed.

Lemma apply_decision_impact_evolves (o : Oracle) (s : CognitiveState)
    (impact : list (string * Q)) (mentor : option string) :
  D 0.05 -> D 10 -> deltas_in D k impact ->
  evolves D k s (apply_decision_impact o s impact mentor).
Proof.
  intros Hb Ht Hi. unfold apply_decision_impact.
  assert (H : evolves D k s
                (_check_module_unlocks
                   (apply_mentor_bonus (apply_direct_impacts s impact) mentor))).
  { apply evolves_trans with (apply_direct_impacts s impact);
      [now apply apply_direct_impacts_evolves|].
    eapply evolves_trans; [|apply _check_module_unlocks_evolves].
    now apply apply_mentor_bonus_evolves. }
  destruct (Qltb (random_random o) breakthrough_chance); [|exact H].
  eapply evolves_trans; [exact H|now apply _trigger_breakthrough_evolves].
Qed.

Lemma apply_decisions_evolves (calls : list Call) (s : CognitiveState) :
  D 0.05 -> D 10 ->
  Forall (fun c => deltas_in D k (call_impact c)) calls ->
  evolves D k s (apply_decisions s calls).
Proof.
  intros Hb Ht. unfold apply_decisions. revert s.
  induction calls as [|c calls IH]; intros s Hc; simpl.
  - apply evolves_refl.
  - apply Forall_cons in Hc as [Hc Hcs].
    eapply evolves_trans; [|apply IH; exact Hcs].
    now apply apply_decision_impact_evolves.
Qed.
End Evolves.

(** Whatever a step does, a module it leaves LOCKED is at level 0. *)
Lemma module_step_locked_zero (D : Q -> Prop) (m m' : CognitiveModule) :
  module_step D m m' -> status m' = LOCKED -> level m' == 0.
Proof.
  destruct 1 as [m d _|m _]; intros Hl.
  - now apply gain_experience_locked.
  - discriminate Hl.
Qed.

Lemma module_steps_locked_zero (D : Q -> Prop) (m m' : CognitiveModule) :
  rtc (module_step D) m m' ->
  status m <> LOCKED -> status m' = LOCKED -> level m' == 0.
Proof.
  intros R Hm Hm'. apply rtc_inv_r in R as [->|(y & _ & Hy)].
  - contradiction.
  - now apply (module_step_locked_zero D y).
Qed.

(** With non-negative deltas an unlocked module of positive level stays
    so. *)
Lemma module_step_stays_unlocked (m m' : CognitiveModule) :
  module_step (fun d => 0 <= d) m m' ->
  status m <> LOCKED /\ 0 < level m ->
  status m' <> LOCKED /\ 0 < level m'.
Proof.
  destruct 1 as [m d Hd|m Hl]; intros [Hs Hpos].
  - pose proof (gain_experience_pos m d Hpos Hd) as Hp.
    split; [|exact Hp].
    intros Hlocked. apply gain_experience_locked in Hlocked.
    rewrite Hlocked in Hp. now apply Qlt_irrefl in Hp.
  - contradiction.
Qed.

Lemma module_steps_stay_unlocked (m m' : CognitiveModule) :
  rtc (module_step (fun d => 0 <= d)) m m' ->
  status m <> LOCKED /\ 0 < level m ->
  status m' <> LOCKED /\ 0 < level m'.
Proof.
  induction 1 as [|x y z Hxy _ IH]; [tauto|].
  intros Hx. apply IH. now apply (module_step_stays_unlocked x).
Qed.

(** C5, as the code has it.  Along any sequence of
    [apply_decision_impact] calls a module is never removed, and one whose
    status is not LOCKED can be LOCKED after a later call only at level
    exactly 0, where [update_status] puts it; if its level is positive and
    every delta the calls' impact maps give it is non-negative, it is not
    LOCKED after any of them. *)
Theorem relock_only_at_level_zero
    (s : CognitiveState) (calls : list Call) (k : string)
    (m : CognitiveModule) :
  dict_get k (modules s) = Some m ->
  status m <> LOCKED ->
  exists m',
    dict_get k (modules (apply_decisions s calls)) = Some m' /\
    (status m' = LOCKED -> level m' == 0) /\
    (0 < level m ->
     Forall (fun c => deltas_in (fun d => 0 <= d) k (call_impact c)) calls ->
     status m' <> LOCKED).
Proof.
  intros Hm Hs.
  assert (Hany : Forall (fun c => deltas_in (fun _ => True) k (call_impact c))
                   calls).
  { apply Forall_forall. intros c _. apply Forall_forall. now intros. }
  destruct (apply_decisions_evolves (fun _ => True) k calls s I I Hany m Hm)
    as (m' & Hm' & R).
  exists m'. split; [exact Hm'|]. split.
  - intros Hl. now apply (module_steps_locked_zero (fun _ => True) m m').
  - intros Hpos Hd.
    assert (H5 : 0 <= 0.05) by discriminate.
    assert (H10 : 0 <= 10) by discriminate.
    destruct (apply_decisions_evolves (fun d => 0 <= d) k calls s
                H5 H10 Hd m Hm) as (m2 & Hm2 & R2).
    assert (m2 = m') by congruence. subst m2.
    now apply (module_steps_stay_unlocked m m').
Qed.

(** The theorem at work: logic in a fresh state, over one call that
    raises it by 1. *)
Lemma relock_only_at_level_zero_witness :
  let s := initialize_cognitive_state 0 "p1" in
  let calls := [mkCall quiet [("logic", 1)] None] in
  dict_get "logic" (modules s) = Some fresh_logic /\
  status fresh_logic <> LOCKED /\
  exists m',
    dict_get "logic" (modules (apply_decisions s calls)) = Some m' /\
    (status m' = LOCKED -> level m' == 0) /\
    (0 < level fresh_logic ->
     Forall (fun c => deltas_in (fun d => 0 <= d) "logic" (call_impact c))
       calls ->
     status m' <> LOCKED).
Proof.
  intros s calls.
  assert (Hm : dict_get "logic" (modules s) = Some fresh_logic)
    by reflexivity.
  assert (Hs : status fresh_logic <> LOCKED) by discriminate.
  split; [exact Hm|]. split; [exact Hs|].
  exact (relock_only_at_level_zero s calls "logic" fresh_logic Hm Hs).
Defined.

(** C5 as stated fails.  In a fresh state a first call raises empathy by
    30, which unlocks trust (NASCENT, level 5); a second call lowers
    empathy by 20 and trust by 5: trust is at level 0 and LOCKED again,
    and with empathy at 15 the unlock pass leaves it so. *)
Lemma unlock_not_monotone :
  let s0 := initialize_cognitive_state 0 "p1" in
  let s1 := apply_decisions s0 [mkCall quiet [("empathy", 30)] None] in
  let s2 := apply_decisions s1
              [mkCall quiet [("empathy", -20); ("trust", -5)] None] in
  status <$> dict_get "trust" (modules s1) = Some NASCENT /\
  status <$> dict_get "trust" (modules s2) = Some LOCKED.
Proof. vm_compute. split; reflexivity. Qed.

(** C4.  The unlock pass of [apply_decision_impact] writes level 5 into a
    module without recomputing the score.  On a fresh state, the impact
    logic +0.2, empathy +0.1 under mentor LOGIC leaves the score at the
    value [update_module] last computed, 2.5375, while creativity has
    been unlocked to level 5 and the formula gives 3.1625. *)
Theorem unlock_leaves_score_stale :
  let s0 := initialize_cognitive_state 0 "p1" in
  let s1 := apply_decision_impact quiet s0
              [("logic", 0.2); ("empathy", 0.1)] (Some "LOGIC") in
  score_invariant s0 /\
  get_module_level s0 "creativity" == 0 /\
  get_module_level s1 "creativity" == 5 /\
  evolution_score s1 == 2.5375 /\
  evolution_formula (modules s1) == 3.1625 /\
  ~ score_invariant s1.
Proof.
  vm_compute. repeat split; discriminate.
Qed.

(* ===================================================================== *)
(** * Absent modules *)
(* ===================================================================== *)

Lemma get_module_level_absent (s : CognitiveState) (module_name : string) :
  dict_get module_name (modules s) = None ->
  get_module_level s module_name = 0.
Proof. unfold get_module_level. now intros ->. Qed.

Lemma get_module_level_present (s : CognitiveState) (module_name : string)
    (m : CognitiveModule) :
  dict_get module_name (modules s) = Some m ->
  get_module_level s module_name = level m.
Proof. unfold get_module_level. now intros ->. Qed.

Section Compare.
Variables state1 state2 : CognitiveState.




End Compare.





(* ===================================================================== *)
(** * The loop manager *)
(* ===================================================================== *)

(** The module names [check_loop_break_conditions] looks up. *)
Lemma mentor_module_names :
  map lower ["LOGIC"; "COMPASSION"; "CURIOSITY"; "FEAR"]
  = ["logic"; "compassion"; "curiosity"; "fear"].
Proof. reflexivity. Qed.

(** The second condition, on the four names it reads. *)
Lemma all_mentors_mastered_eq (mgr : LoopManager) (id : string)
    (s : CognitiveState) (c : Conditions) :
  break_conditions (check_loop_break_conditions mgr id s) = Some c ->
  all_mentors_mastered c
  = forallb (fun n => Qgtb (get_module_level s n) 60)
      ["logic"; "compassion"; "curiosity"; "fear"].
Proof.
  unfold check_loop_break_conditions.
  destruct (active_loops mgr !! id) as [loop|]; [|discriminate].
  cbn [break_conditions]. intros [= <-]. reflexivity.
Qed.



(** The verdict counts the four conditions and asks for three. *)
Lemma can_break_counts (mgr : LoopManager) (id : string)
    (s : CognitiveState) (c : Conditions) :
  break_conditions (check_loop_break_conditions mgr id s) = Some c ->
  can_break (check_loop_break_conditions mgr id s)
  = (3 <=? count_true [ evolution_threshold c; all_mentors_mastered c;
                        minimum_loops c; special_protocol_completed c ])%Z.
Proof.
  unfold check_loop_break_conditions.
  destruct (active_loops mgr !! id) as [loop|]; [|discriminate].
  cbn [break_conditions]. intros [= <-]. reflexivity.
Qed.

(** No state that lacks a module named "compassion" passes the second
    condition, so it can break the loop only through the special
    protocol. *)
Lemma can_break_needs_special_protocol (mgr : LoopManager) (id : string)
    (s : CognitiveState) (c : Conditions) :
  dict_get "compassion" (modules s) = None ->
  break_conditions (check_loop_break_conditions mgr id s) = Some c ->
  all_mentors_mastered c = false /\
  (can_break (check_loop_break_conditions mgr id s) = true ->
   special_protocol_completed c = true).
Proof.
  intros Habs Hc.
  assert (Hm : all_mentors_mastered c = false).
  { rewrite (all_mentors_mastered_eq mgr id s c Hc). simpl.
    rewrite (get_module_level_absent s "compassion" Habs).
    now rewrite andb_false_r. }
  split; [exact Hm|].
  rewrite (can_break_counts mgr id s c Hc), Hm.
  destruct (evolution_threshold c), (minimum_loops c),
    (special_protocol_completed c); vm_compute; congruence.
Qed.

(** C3.  The break check reads the module names "logic", "compassion",
    "curiosity" and "fear"; the states the engine builds have "empathy"
    and no "compassion".  With all eight modules at level 80, score 80
    and a loop record numbered 12 with no special protocol, two
    conditions hold and the loop cannot be broken. *)
Theorem break_check_reads_compassion :
  let s := advanced_state in
  let started := start_loop default_settings 0 new_manager "p1" s
                   (new_bank "p1") in
  let mgr := fst started in
  let loop := snd started in
  evolution_score s == 80 /\
  loop_id loop = "p1_loop_12" /\
  loop_loop_number loop = 12%Z /\
  Forall (fun n => 60 < get_module_level s n)
    ["logic"; "empathy"; "curiosity"; "fear"] /\
  check_loop_break_conditions mgr (loop_id loop) s
  = break_check false (mkConditions true false true false) 2 3.
Proof.
  vm_compute. repeat split; repeat constructor.
Qed.

Section Lifecycle.
Variable settings : Settings.
Variables (mgr : LoopManager) (pid : string) (s : CognitiveState)
  (bank : MemoryBank).

Lemma start_loop_active (now : Z) :
  let started := start_loop settings now mgr pid s bank in
  active_loops (fst started) !! loop_id (snd started) = Some (snd started) /\
  loop_player_id (snd started) = pid /\
  loop_status (snd started) = "active" /\
  loop_id (snd started) = make_loop_id pid (loop_number s + 1).
Proof.
  simpl. split; [apply lookup_insert_eq|]. now repeat split.
Qed.

(** Starting a loop leaves the agent's history as it was, an absent
    history read as empty. *)
Lemma start_loop_history (now : Z) (p : string) :
  default [] (loop_history (fst (start_loop settings now mgr pid s bank)) !! p)
  = default [] (loop_history mgr !! p).
Proof.
  simpl. destruct (loop_history mgr !! pid) eqn:E; [reflexivity|].
  destruct (decide (pid = p)) as [<-|Hne].
  - now rewrite lookup_insert_eq, E.
  - now rewrite lookup_insert_ne.
Qed.
End Lifecycle.

(** [_complete_loop] on an active loop archives the completed record at
    the end of its agent's history and drops the id from the active
    table. *)
Lemma _complete_loop_active (now : Z) (mgr : LoopManager) (id : string)
    (loop : LoopRecord) :
  active_loops mgr !! id = Some loop ->
  exists st : LoopStats,
    let archived := set_completion loop "completed" now st in
    snd (_complete_loop now mgr id)
    = Ok (completed_result (loop_loop_number loop) st true) /\
    loop_history (fst (_complete_loop now mgr id)) !! loop_player_id loop
    = Some (default [] (loop_history mgr !! loop_player_id loop)
            ++ [archived]) /\
    (forall p, p <> loop_player_id loop ->
       loop_history (fst (_complete_loop now mgr id)) !! p
       = loop_history mgr !! p) /\
    active_loops (fst (_complete_loop now mgr id)) = delete id (active_loops mgr).
Proof.
  intros Hl. unfold _complete_loop. rewrite Hl. eexists. simpl.
  split; [reflexivity|]. split; [apply lookup_insert_eq|].
  split; [|reflexivity].
  intros p Hp. now apply lookup_insert_ne.
Qed.

(** A timer update on an id that is not active changes nothing. *)
Lemma update_loop_timer_not_found (now : Z) (mgr : LoopManager) (id : string)
    (elapsed : Z) :
  active_loops mgr !! id = None ->
  update_loop_timer now mgr id elapsed = (mgr, Ok not_found).
Proof. intros H. unfold update_loop_timer. now rewrite H. Qed.

(** Once the duration has elapsed, a timer update on an active loop is
    its completion. *)
Lemma update_loop_timer_completes (now : Z) (mgr : LoopManager) (id : string)
    (loop : LoopRecord) (elapsed : Z) :
  active_loops mgr !! id = Some loop ->
  loop_status loop = "active" ->
  (duration_seconds loop <= elapsed)%Z ->
  update_loop_timer now mgr id elapsed
  = _complete_loop now
      (mkLoopManager (<[id := set_time_remaining loop 0]> (active_loops mgr))
         (loop_history mgr))
      id.
Proof.
  intros Hl Hs He. unfold update_loop_timer. rewrite Hl.
  replace (Z.max 0 (duration_seconds loop - elapsed)) with 0%Z by lia.
  simpl. now rewrite Hs.
Qed.

(** C6.  After [start_loop], completing the loop appends exactly one
    record, the completed loop, to the agent's history, leaves every
    other agent's history alone and removes the loop id from the active
    table; a timer update on the same id then reports "not_found" and
    leaves both tables as they are, so nothing is archived twice. *)
Theorem loop_completes_once
    (settings : Settings) (mgr : LoopManager) (pid : string)
    (s : CognitiveState) (bank : MemoryBank)
    (t_start t_done t_later elapsed : Z) :
  let started := start_loop settings t_start mgr pid s bank in
  let loop := snd started in
  let done := _complete_loop t_done (fst started) (loop_id loop) in
  let again := update_loop_timer t_later (fst done) (loop_id loop) elapsed in
  active_loops (fst started) !! loop_id loop = Some loop /\
  (exists st : LoopStats,
     snd done = Ok (completed_result (loop_number s + 1) st true) /\
     loop_history (fst done) !! pid
     = Some (default [] (loop_history mgr !! pid)
             ++ [set_completion loop "completed" t_done st])) /\
  (forall p, p <> pid ->
     default [] (loop_history (fst done) !! p)
     = default [] (loop_history mgr !! p)) /\
  active_loops (fst done) !! loop_id loop = None /\
  (forall id, id <> loop_id loop ->
     active_loops (fst done) !! id = active_loops mgr !! id) /\
  again = (fst done, Ok not_found) /\
  result_status not_found = "not_found".
Proof.
  intros started loop done again.
  destruct (start_loop_active settings mgr pid s bank t_start)
    as (Hact & Hpid & Hst & Hid).
  fold started in Hact, Hpid, Hst, Hid. fold loop in Hact, Hpid, Hst, Hid.
  destruct (_complete_loop_active t_done (fst started) (loop_id loop)
              loop Hact) as (st & Hres & Hhist & Hother & Hdel).
  fold done in Hres, Hhist, Hother, Hdel. rewrite Hpid in Hhist, Hother.
  assert (Hgone : active_loops (fst done) !! loop_id loop = None).
  { rewrite Hdel. apply lookup_delete_eq. }
  split; [exact Hact|]. split.
  { exists st. split; [exact Hres|]. rewrite Hhist.
    unfold started. now rewrite start_loop_history. }
  split.
  { intros p Hp. rewrite (Hother p Hp). apply start_loop_history. }
  split; [exact Hgone|]. split.
  { intros id Hne. rewrite Hdel. rewrite lookup_delete_ne by congruence.
    unfold started. simpl. apply lookup_insert_ne. fold started. congruence. }
  split; [|reflexivity].
  now apply update_loop_timer_not_found.
Qed.

(* ===================================================================== *)
(** * Further facts: modules and states *)
(* ===================================================================== *)

(** X1.  After [gain_experience] the status is the band of the level:
    LOCKED at exactly 0, NASCENT below 20 (a negative level included),
    DEVELOPING below 50, ACTIVE below 90, MASTERED from 90 on. *)
Theorem gain_experience_status_band (m : CognitiveModule) (amount : Q) :
  let m' := gain_experience m amount in
  match status m' with
  | LOCKED => level m' == 0
  | NASCENT => level m' < 20 /\ ~ level m' == 0
  | DEVELOPING => 20 <= level m' /\ level m' < 50
  | ACTIVE => 50 <= level m' /\ level m' < 90
  | MASTERED => 90 <= level m'
  end.
Proof.
  intros m'. unfold m', gain_experience.
  set (m2 := set_level _ _). rewrite update_status_level.
  unfold update_status.
  destruct (Qeq_bool (level m2) 0) eqn:E0.
  { simpl. now apply Qeq_bool_iff. }
  assert (H0 : ~ level m2 == 0).
  { intros H. apply Qeq_bool_iff in H. congruence. }
  destruct (Qltb (level m2) 20) eqn:E20.
  { simpl. split; [now apply Qltb_lt|exact H0]. }
  apply Qltb_ge in E20.
  destruct (Qltb (level m2) 50) eqn:E50.
  { simpl. split; [exact E20|now apply Qltb_lt]. }
  apply Qltb_ge in E50.
  destruct (Qltb (level m2) 90) eqn:E90.
  { simpl. split; [exact E50|now apply Qltb_lt]. }
  apply Qltb_ge in E90. exact E90.
Qed.

Lemma int_of_float_nonneg (x : Q) : 0 <= x -> (0 <= int_of_float x)%Z.
Proof.
  intros H. unfold int_of_float. apply Z.quot_pos; [|lia].
  unfold Qle in H. simpl in H. lia.
Qed.

(** X2.  A non-negative amount never lowers the level of a module that is
    within the cap, nor its experience points; the level stays within
    the cap and nothing else of the module changes. *)
Theorem gain_experience_grows (m : CognitiveModule) (amount : Q) :
  0 <= amount ->
  level m <= 100 ->
  let m' := gain_experience m amount in
  level m <= level m' /\ level m' <= 100 /\
  (experience_points m <= experience_points m')%Z /\
  name m' = name m /\ unlock_requirements m' = unlock_requirements m /\
  description m' = description m /\ icon m' = icon m /\ color m' = color m.
Proof.
  intros Ha Hl m'. unfold m'.
  split; [|split; [apply gain_experience_le_100|]].
  - rewrite gain_experience_level. apply Q.min_glb; [exact Hl|lra].
  - assert (He : (0 <= int_of_float (float_mul amount 100))%Z).
    { apply int_of_float_nonneg, float_mul_nonneg; [exact Ha|discriminate]. }
    unfold gain_experience, update_status.
    repeat match goal with |- context [if ?c then _ else _] => destruct c end;
      simpl; repeat split; lia.
Qed.

Lemma gain_experience_grows_witness :
  0 <= 0.2 /\ level fresh_logic <= 100 /\
  let m' := gain_experience fresh_logic 0.2 in
  level fresh_logic <= level m' /\ level m' <= 100 /\
  (experience_points fresh_logic <= experience_points m')%Z /\
  name m' = name fresh_logic /\
  unlock_requirements m' = unlock_requirements fresh_logic /\
  description m' = description fresh_logic /\
  icon m' = icon fresh_logic /\ color m' = color fresh_logic.
Proof.
  assert (Ha : 0 <= 0.2) by discriminate.
  assert (Hl : level fresh_logic <= 100) by discriminate.
  split; [exact Ha|]. split; [exact Hl|].
  exact (gain_experience_grows fresh_logic 0.2 Ha Hl).
Defined.

Lemma to_dict_get (s : CognitiveState) (k : string) :
  dict_get k (to_dict s) = level <$> dict_get k (modules s).
Proof.
  unfold to_dict. induction (modules s) as [|[k' m] ms IH]; simpl;
    [reflexivity|].
  now destruct (String.eqb k k').
Qed.

Lemma to_dict_level (s : CognitiveState) (k : string) :
  default 0 (dict_get k (to_dict s)) = get_module_level s k.
Proof.
  rewrite to_dict_get. unfold get_module_level.
  now destruct (dict_get k (modules s)).
Qed.

(** X3.  A module can be unlocked against a state exactly when every module
    its requirements name stands at the required level or above in the
    state, a module the state lacks counting as level 0. *)
Theorem is_unlocked_iff (m : CognitiveModule) (s : CognitiveState) :
  is_unlocked m (to_dict s) = true
  <-> Forall (fun req => snd req <= get_module_level s (fst req))
        (unlock_requirements m).
Proof.
  unfold is_unlocked.
  induction (unlock_requirements m) as [|[r l] reqs IH]; simpl.
  - split; [constructor|reflexivity].
  - rewrite to_dict_level.
    destruct (Qltb (get_module_level s r) l) eqn:E.
    + apply Qltb_lt in E. split; [discriminate|].
      intros H. apply Forall_cons in H as [H _]. simpl in H. lra.
    + apply Qltb_ge in E. rewrite IH. split.
      * intros H. now constructor.
      * intros H. now apply Forall_cons in H as [_ H].
Qed.

Lemma dict_mem_get_None {V : Type} (k : string) (d : list (string * V)) :
  dict_mem k d = false <-> dict_get k d = None.
Proof. unfold dict_mem. destruct (dict_get k d); split; congruence. Qed.

Lemma dict_mem_In {V : Type} (k : string) (d : list (string * V)) :
  dict_mem k d = true <-> In k (dict_keys d).
Proof.
  unfold dict_mem. split.
  - destruct (dict_get k d) eqn:E; [|discriminate].
    intros _. now apply dict_get_Some_In in E.
  - intros H. destruct (dict_get k d) eqn:E; [reflexivity|].
    exfalso. revert H E. induction d as [|[k' v] d IH]; simpl; [tauto|].
    destruct (String.eqb k k') eqn:Ek; [discriminate|].
    apply String.eqb_neq in Ek. intros [H|H]; [congruence|]. now apply IH.
Qed.

Lemma update_module_keys (s : CognitiveState) (k : string) (d : Q) :
  dict_keys (modules (update_module s k d)) = dict_keys (modules s).
Proof.
  rewrite update_module_modules.
  destruct (dict_get k (modules s)) eqn:E; [|reflexivity].
  apply dict_keys_set_present. unfold dict_mem. now rewrite E.
Qed.

(** X4.  [update_module] on a name the state lacks changes nothing at all; on
    a known name it rewrites that one module by [gain_experience], keeps
    the set and order of modules and every other module, and leaves the
    player and the loop number alone.  The total experience grows by
    [int(delta * 100)], the product rounded as a float before it is
    truncated (28, not 29, for a delta of 0.29), which is exactly what
    the module's own experience points gain. *)
Theorem update_module_frame (s : CognitiveState) (k : string) (d : Q) :
  (dict_get k (modules s) = None -> update_module s k d = s) /\
  (forall m, dict_get k (modules s) = Some m ->
     dict_get k (modules (update_module s k d)) = Some (gain_experience m d) /\
     total_experience (update_module s k d)
     = (total_experience s + int_of_float (float_mul d 100))%Z /\
     (total_experience (update_module s k d) - total_experience s
      = experience_points (gain_experience m d) - experience_points m)%Z) /\
  dict_keys (modules (update_module s k d)) = dict_keys (modules s) /\
  (forall k', k' <> k ->
     dict_get k' (modules (update_module s k d)) = dict_get k' (modules s)) /\
  player_id (update_module s k d) = player_id s /\
  loop_number (update_module s k d) = loop_number s /\
  int_of_float (float_mul 0.29 100) = 28%Z.
Proof.
  split; [intros H; unfold update_module; now rewrite H|].
  split.
  { intros m Hm. rewrite update_module_modules, Hm.
    assert (Ht : total_experience (update_module s k d)
                 = (total_experience s + int_of_float (float_mul d 100))%Z).
    { unfold update_module. rewrite Hm. unfold update_dominant_traits,
        calculate_evolution_score. simpl.
      now destruct (dict_set k (gain_experience m d) (modules s)). }
    split; [apply dict_get_set_eq|]. split; [exact Ht|].
    rewrite Ht. unfold gain_experience, update_status.
    repeat match goal with |- context [if ?c then _ else _] => destruct c end;
      simpl; lia. }
  split; [apply update_module_keys|].
  split.
  { intros k' Hk. rewrite update_module_modules.
    destruct (dict_get k (modules s)); [|reflexivity].
    apply dict_get_set_ne. congruence. }
  split; [|split; [|vm_compute; reflexivity]];
    unfold update_module; destruct (dict_get k (modules s));
    try reflexivity;
    unfold update_dominant_traits, calculate_evolution_score; simpl;
    now destruct (dict_set k _ (modules s)).
Qed.

Lemma Qsum_fold (l : list Q) (a : Q) : fold_left Qplus l a == a + Qsum l.
Proof.
  unfold Qsum. revert a. induction l as [|x l IH]; intros a; simpl.
  - ring.
  - rewrite (IH (a + x)), (IH (0 + x)). ring.
Qed.

Lemma Qsum_cons (x : Q) (l : list Q) : Qsum (x :: l) == x + Qsum l.
Proof. unfold Qsum at 1. simpl. rewrite Qsum_fold. ring. Qed.

Lemma Qsum_bounds (lo hi : Q) (l : list Q) :
  Forall (fun x => lo <= x /\ x <= hi) l ->
  inject_Z (Z.of_nat (length l)) * lo <= Qsum l /\
  Qsum l <= inject_Z (Z.of_nat (length l)) * hi.
Proof.
  induction 1 as [|x l [Hlo Hhi] _ [IHlo IHhi]].
  - change (Qsum []) with 0. simpl length.
    change (inject_Z (Z.of_nat 0)) with 0. split; lra.
  - rewrite Qsum_cons.
    replace (Z.of_nat (length (x :: l))) with (1 + Z.of_nat (length l))%Z
      by (simpl; lia).
    rewrite inject_Z_plus. change (inject_Z 1) with 1. split; lra.
Qed.

Lemma Qsum_le (l1 l2 : list Q) :
  Forall2 Qle l1 l2 -> Qsum l1 <= Qsum l2.
Proof.
  induction 1 as [|x y l1 l2 Hxy _ IH]; [apply Qle_refl|].
  rewrite !Qsum_cons. lra.
Qed.

(** X5.  While every level is within [0, 100], a recomputed evolution score
    is within [0, 100] too. *)
Theorem calculate_evolution_score_bounds (s : CognitiveState) :
  Forall (fun m => 0 <= level m /\ level m <= 100) (dict_values (modules s)) ->
  0 <= evolution_score (calculate_evolution_score s) /\
  evolution_score (calculate_evolution_score s) <= 100.
Proof.
  intros Hall. unfold calculate_evolution_score.
  destruct (modules s) as [|p ms] eqn:E; [simpl; split; discriminate|].
  rewrite <- E in *. simpl evolution_score.
  set (n := Z.of_nat (length (modules s))).
  assert (Hn : (0 < n)%Z) by (unfold n; rewrite E; simpl; lia).
  destruct (0 <? n * 100)%Z eqn:En; [|lia].
  assert (Hs := Qsum_bounds 0 100 (map level (dict_values (modules s)))).
  assert (Hlen : length (map level (dict_values (modules s)))
                 = length (modules s))
    by (unfold dict_values; now rewrite !length_map).
  rewrite Hlen in Hs. fold n in Hs.
  destruct Hs as [Hlo Hhi].
  { apply Forall_map. exact Hall. }
  set (t := Qsum _) in *.
  assert (Hq : 0 < inject_Z (n * 100)).
  { change 0 with (inject_Z 0). rewrite <- Zlt_Qlt. lia. }
  assert (Hd : inject_Z (n * 100) == inject_Z n * 100)
    by (rewrite inject_Z_mult; reflexivity).
  split.
  - apply Qmult_le_0_compat; [|discriminate].
    apply Qle_shift_div_l; [exact Hq|]. lra.
  - assert (t / inject_Z (n * 100) <= 1); [|lra].
    apply Qle_shift_div_r; [exact Hq|]. lra.
Qed.

Lemma calculate_evolution_score_bounds_witness :
  let s := initialize_cognitive_state 0 "p1" in
  Forall (fun m => 0 <= level m /\ level m <= 100) (dict_values (modules s)) /\
  0 <= evolution_score (calculate_evolution_score s) /\
  evolution_score (calculate_evolution_score s) <= 100.
Proof.
  intros s.
  assert (H : Forall (fun m => 0 <= level m /\ level m <= 100)
                (dict_values (modules s))).
  { repeat constructor; discriminate. }
  split; [exact H|]. exact (calculate_evolution_score_bounds s H).
Defined.

(** X6.  [update_dominant_traits] names the first three modules in the
    stable order of decreasing level: as many traits as there are
    modules, up to 3, each a module of the state, the first one a module
    of greatest level; a second call changes nothing. *)
Theorem update_dominant_traits_top (s : CognitiveState) :
  let s' := update_dominant_traits s in
  length (dominant_traits s') = Nat.min 3 (length (modules s)) /\
  (forall t, In t (dominant_traits s') -> In t (dict_keys (modules s))) /\
  (forall d rest, dominant_traits s' = d :: rest ->
     exists m, In (d, m) (modules s) /\
       forall k' m', In (k', m') (modules s) -> level m' <= level m) /\
  update_dominant_traits s' = s'.
Proof.
  intros s'. unfold s', update_dominant_traits. simpl.
  set (key := fun x : string * CognitiveModule => level (snd x)).
  pose proof (sorted_desc_perm key (modules s)) as Hperm.
  pose proof (sorted_desc_sorted key (modules s)) as Hsorted.
  split; [|split; [|split]].
  - rewrite length_map, length_take, sorted_desc_length. reflexivity.
  - intros t Ht. apply in_map_iff in Ht as (p & <- & Hp).
    apply list_elem_of_In, elem_of_take in Hp as (i & Hp & _).
    apply in_map. apply (Permutation_in _ (Permutation_sym Hperm)).
    apply list_elem_of_In. eapply list_elem_of_lookup_2. exact Hp.
  - intros d rest Hd.
    destruct (sorted_desc key (modules s)) as [|[k0 m0] srt] eqn:Es;
      [discriminate|].
    simpl in Hd. injection Hd as <- _.
    exists m0. split.
    + apply (Permutation_in _ (Permutation_sym Hperm)). now left.
    + intros k' m' Hin.
      apply (Permutation_in _ Hperm) in Hin.
      inversion Hsorted as [|x l Hall _]; subst.
      destruct Hin as [Heq|Hin].
      * injection Heq as _ <-. apply Qle_refl.
      * rewrite Forall_forall in Hall.
        apply list_elem_of_In, Hall in Hin. exact Hin.
  - destruct s. reflexivity.
Qed.

(* ===================================================================== *)
(** * Further facts: memories *)
(* ===================================================================== *)

Lemma importance_multiplier_bounds (i : MemoryImportance) :
  0.5 <= importance_multiplier i /\ importance_multiplier i <= 1.
Proof. destruct i; split; discriminate. Qed.

Lemma access_count_divisor_pos (m : Memory) :
  0 < 1 + inject_Z (Z.of_N (access_count m)) * 0.1.
Proof.
  assert (0 <= inject_Z (Z.of_N (access_count m))).
  { change 0 with (inject_Z 0). rewrite <- Zle_Qle. lia. }
  lra.
Qed.

(** X7.  For a memory whose access count is not negative (a [Memory] of
    the embedding holds a natural number, which is what creation and
    [access] produce), the decay factor is 1 if the memory was never
    accessed, is never below 0.05, and is at most 1 unless the last
    access lies in the future. *)
Theorem get_decay_factor_bounds (now : Z) (m : Memory) :
  0.05 <= get_decay_factor now m /\
  (last_accessed m = None -> get_decay_factor now m = 1) /\
  (forall t, last_accessed m = Some t -> (t <= now)%Z ->
     get_decay_factor now m <= 1).
Proof.
  unfold get_decay_factor.
  destruct (importance_multiplier_bounds (importance m)) as [Hlo Hhi].
  destruct (last_accessed m) as [t|] eqn:E.
  - set (x := inject_Z (days_between now t) * 0.05 / _).
    pose proof (Q.le_max_l 0.1 (1 - x)) as Hmax.
    set (d := Qmax 0.1 (1 - x)) in *.
    split; [|split; [discriminate|]].
    + apply Qle_trans with (d * 0.5); [lra|].
      apply Qmult_le_l; [lra|exact Hlo].
    + intros t' [= <-] Ht.
      assert (Hx : 0 <= x).
      { unfold x. apply Qle_shift_div_l; [apply access_count_divisor_pos|].
        assert (0 <= inject_Z (days_between now t)).
        { change 0 with (inject_Z 0). rewrite <- Zle_Qle.
          unfold days_between. apply Z.div_pos; lia. }
        lra. }
      assert (Hd : d <= 1).
      { unfold d. apply Q.max_lub; [discriminate|lra]. }
      apply Qle_trans with (d * 1); [|lra].
      apply Qmult_le_l; [lra|exact Hhi].
  - split; [discriminate|]. split; [reflexivity|discriminate].
Qed.

Section DescFacts.
Context {A : Type} (key : A -> Q).

Lemma desc_app_le (l1 l2 : list A) :
  desc key (l1 ++ l2) ->
  forall x y, In x l1 -> In y l2 -> key y <= key x.
Proof.
  induction l1 as [|a l1 IH]; simpl; intros Hd x y Hx Hy; [tauto|].
  inversion Hd as [|a' l' Hall Hd']; subst.
  destruct Hx as [<-|Hx].
  - rewrite Forall_forall in Hall. apply Hall, list_elem_of_In, in_or_app.
    now right.
  - now apply (IH Hd').
Qed.

Lemma desc_take (n : nat) (l : list A) : desc key l -> desc key (take n l).
Proof.
  intros Hd. revert n. induction Hd as [|x l Hall Hd IH]; intros n.
  - destruct n; constructor.
  - destruct n; simpl; constructor; [|apply IH].
    apply Forall_take. exact Hall.
Qed.
End DescFacts.

(** X8.  A consolidation pass on a bank of non-negative capacity keeps
    [min(len, capacity)] memories, best score first; kept and dropped
    memories together are the memories the bank had, and no dropped
    memory scores higher than a kept one. *)
Theorem consolidate_memories_evicts_lowest (now : Z) (b : MemoryBank) :
  (0 <= capacity b)%Z ->
  let kept := memories (consolidate_memories now b) in
  exists dropped : list Memory,
    Permutation (memories b) (kept ++ dropped) /\
    length kept = Nat.min (Z.to_nat (capacity b)) (length (memories b)) /\
    desc (retention_score now) kept /\
    (forall k d, In k kept -> In d dropped ->
       retention_score now d <= retention_score now k).
Proof.
  intros Hc kept. unfold kept. rewrite (consolidate_memories_top now b Hc).
  unfold top_by_score.
  set (n := Z.to_nat (capacity b)).
  set (srt := sorted_desc (retention_score now) (memories b)).
  pose proof (sorted_desc_sorted (retention_score now) (memories b)) as Hs.
  fold srt in Hs.
  exists (drop n srt). split; [|split; [|split]].
  - rewrite take_drop. apply sorted_desc_perm.
  - rewrite length_take. unfold srt. now rewrite sorted_desc_length.
  - now apply desc_take.
  - apply desc_app_le. now rewrite take_drop.
Qed.

Lemma consolidate_memories_evicts_lowest_witness :
  let b := mkMemoryBank "p1" [sample_memory "a"; sample_memory "b"] 2 1 in
  (0 <= capacity b)%Z /\
  let kept := memories (consolidate_memories 0 b) in
  exists dropped : list Memory,
    Permutation (memories b) (kept ++ dropped) /\
    length kept = Nat.min (Z.to_nat (capacity b)) (length (memories b)) /\
    desc (retention_score 0) kept /\
    (forall k d, In k kept -> In d dropped ->
       retention_score 0 d <= retention_score 0 k).
Proof.
  intros b. assert (H : (0 <= capacity b)%Z) by (simpl; lia).
  split; [exact H|]. exact (consolidate_memories_evicts_lowest 0 b H).
Defined.

(** [add_memory] never loses the memory it is given: it is the last of
    the bank afterwards; and below capacity nothing else changes in the
    list. *)
Theorem add_memory_keeps_new (now : Z) (b : MemoryBank) (m : Memory) :
  last (memories (add_memory now b m)) = Some m /\
  ((Z.of_nat (length (memories b)) < capacity b)%Z ->
   memories (add_memory now b m) = memories b ++ [m]).
Proof.
  unfold add_memory. split.
  - simpl. apply last_snoc.
  - intros H. destruct (capacity b <=? Z.of_nat (length (memories b)))%Z eqn:E;
      [lia|reflexivity].
Qed.

(** X9.  From a bank within a non-negative capacity, no sequence of
    insertions takes the bank more than one memory over the capacity. *)
Theorem add_memories_overshoot_bounded (b : MemoryBank)
    (calls : list (Z * Memory)) :
  (0 <= capacity b)%Z ->
  (Z.of_nat (length (memories b)) <= capacity b)%Z ->
  (Z.of_nat (length (memories (add_memories b calls))) <= capacity b + 1)%Z.
Proof.
  intros Hc Hl. apply add_memories_length_bound; [exact Hc|lia].
Qed.

Lemma add_memories_overshoot_bounded_witness :
  let b := new_bank "p1" in
  let calls := repeat (0%Z, sample_memory "m") 102 in
  (0 <= capacity b)%Z /\
  (Z.of_nat (length (memories b)) <= capacity b)%Z /\
  (Z.of_nat (length (memories (add_memories b calls))) <= capacity b + 1)%Z /\
  capacity b = 100%Z /\
  length (memories (add_memories b calls)) = 101%nat.
Proof.
  intros b calls.
  assert (Hc : (0 <= capacity b)%Z) by (simpl; lia).
  assert (Hl : (Z.of_nat (length (memories b)) <= capacity b)%Z)
    by (simpl; lia).
  split; [exact Hc|]. split; [exact Hl|].
  split; [exact (add_memories_overshoot_bounded b calls Hc Hl)|].
  split; [reflexivity|]. vm_compute. reflexivity.
Defined.

(** X10.  [get_relevant_memories] with a non-negative limit returns
    [min(limit, len)] memories of the bank, in decreasing order of their
    relevance score. *)
Theorem get_relevant_memories_top (now : Z) (b : MemoryBank)
    (ctx : MemoryContext) (limit : Z) :
  (0 <= limit)%Z ->
  let r := get_relevant_memories now b ctx limit in
  length r = Nat.min (Z.to_nat limit) (length (memories b)) /\
  (forall m, In m r -> In m (memories b)) /\
  desc (relevance_score now ctx) r.
Proof.
  intros Hl r.
  assert (Hr : r = take (Z.to_nat limit)
                     (sorted_desc (relevance_score now ctx) (memories b))).
  { unfold r, get_relevant_memories, slice_to.
    destruct (0 <=? limit)%Z eqn:E; [|lia].
    rewrite <- (sorted_desc_scored (relevance_score now ctx)).
    symmetry. apply firstn_map. }
  rewrite Hr. split; [|split].
  - now rewrite length_take, sorted_desc_length.
  - intros m Hm.
    apply (Permutation_in _
             (Permutation_sym
                (sorted_desc_perm (relevance_score now ctx) (memories b)))).
    apply list_elem_of_In in Hm. apply list_elem_of_In.
    now apply elem_of_take in Hm as (i & Hm%list_elem_of_lookup_2 & _).
  - apply desc_take, sorted_desc_sorted.
Qed.

Lemma get_relevant_memories_top_witness :
  let b := mkMemoryBank "p1" [sample_memory "a"; sample_memory "b"] 2 100 in
  let ctx := mkMemoryContext None ["x"] in
  (0 <= 5)%Z /\
  let r := get_relevant_memories 0 b ctx 5 in
  length r = Nat.min (Z.to_nat 5) (length (memories b)) /\
  (forall m, In m r -> In m (memories b)) /\
  desc (relevance_score 0 ctx) r.
Proof.
  intros b ctx. assert (H : (0 <= 5)%Z) by lia.
  split; [exact H|]. exact (get_relevant_memories_top 0 b ctx 5 H).
Defined.

(* ===================================================================== *)
(** * Further facts: the evolution engine *)
(* ===================================================================== *)

Lemma dict_mem_str_in {V : Type} (k : string) (d : list (string * V)) :
  dict_mem k d = str_in k (dict_keys d).
Proof.
  unfold dict_mem, str_in. induction d as [|[k' v] d IH]; simpl;
    [reflexivity|].
  destruct (String.eqb k k'); [reflexivity|exact IH].
Qed.

Lemma dict_get_keys_Some {V : Type} (k : string) (d : list (string * V)) :
  In k (dict_keys d) -> exists v, dict_get k d = Some v.
Proof.
  intros H. apply dict_mem_In in H. unfold dict_mem in H.
  destruct (dict_get k d) as [v|]; [now exists v|discriminate].
Qed.

Section Keys.
Implicit Types (s : CognitiveState).

Lemma apply_direct_impacts_keys (impact : list (string * Q)) s :
  dict_keys (modules (apply_direct_impacts s impact)) = dict_keys (modules s).
Proof.
  unfold apply_direct_impacts. revert s.
  induction impact as [|[j d] impact IH]; intros s; simpl; [reflexivity|].
  rewrite IH. destruct (dict_mem j (modules s)); [|reflexivity].
  apply update_module_keys.
Qed.

Lemma fold_update_module_keys (ts : list string) (d : Q) s :
  dict_keys
    (modules
       (fold_left
          (fun state trait =>
             if dict_mem trait (modules state)
             then update_module state trait d else state)
          ts s))
  = dict_keys (modules s).
Proof.
  revert s. induction ts as [|t ts IH]; intros s; simpl; [reflexivity|].
  rewrite IH. destruct (dict_mem t (modules s)); [|reflexivity].
  apply update_module_keys.
Qed.

Lemma apply_mentor_bonus_keys (mentor : option string) s :
  dict_keys (modules (apply_mentor_bonus s mentor)) = dict_keys (modules s).
Proof.
  unfold apply_mentor_bonus.
  destruct mentor as [mentor|]; [|reflexivity].
  destruct (String.eqb mentor ""); [reflexivity|].
  destruct (dict_get mentor MENTORS); [|reflexivity].
  apply fold_update_module_keys.
Qed.

Lemma unlock_step_keys (j : string) s :
  dict_keys (modules (unlock_step s j)) = dict_keys (modules s).
Proof.
  unfold unlock_step.
  destruct (dict_get j (modules s)) eqn:E; [|reflexivity].
  destruct (decide _); [|reflexivity].
  destruct (is_unlocked _ _); [|reflexivity].
  simpl. apply dict_keys_set_present. unfold dict_mem. now rewrite E.
Qed.

Lemma fold_unlock_step_keys (ks : list string) s :
  dict_keys (modules (fold_left unlock_step ks s)) = dict_keys (modules s).
Proof.
  revert s. induction ks as [|j ks IH]; intros s; simpl; [reflexivity|].
  now rewrite IH, unlock_step_keys.
Qed.

Lemma _trigger_breakthrough_keys (o : Oracle) s :
  dict_keys (modules (_trigger_breakthrough o s)) = dict_keys (modules s).
Proof.
  unfold _trigger_breakthrough.
  destruct (dict_keys (List.filter _ (modules s)));
    [reflexivity|apply update_module_keys].
Qed.

Lemma apply_decision_impact_keys (o : Oracle) s
    (impact : list (string * Q)) (mentor : option string) :
  dict_keys (modules (apply_decision_impact o s impact mentor))
  = dict_keys (modules s).
Proof.
  unfold apply_decision_impact.
  destruct (Qltb _ _); [rewrite _trigger_breakthrough_keys|];
    unfold _check_module_unlocks;
    now rewrite fold_unlock_step_keys, apply_mentor_bonus_keys,
      apply_direct_impacts_keys.
Qed.
End Keys.

Lemma apply_decisions_keys (s : CognitiveState) (calls : list Call) :
  dict_keys (modules (apply_decisions s calls)) = dict_keys (modules s).
Proof.
  unfold apply_decisions. revert s.
  induction calls as [|c calls IH]; intros s; simpl; [reflexivity|].
  now rewrite IH, apply_decision_impact_keys.
Qed.

(** X11.  No sequence of [apply_decision_impact] calls adds, removes or
    reorders the modules of a state. *)
Theorem apply_decisions_keeps_modules (s : CognitiveState)
    (calls : list Call) :
  dict_keys (modules (apply_decisions s calls)) = dict_keys (modules s).
Proof. apply apply_decisions_keys. Qed.

Lemma module_step_capped (D : Q -> Prop) (m m' : CognitiveModule) :
  module_step D m m' -> level m' <= 100.
Proof.
  destruct 1; [apply gain_experience_le_100|discriminate].
Qed.

(** X12.  The cap on levels is an invariant of the engine: if every module of
    a state is at level 100 or below, so is every module after any
    sequence of [apply_decision_impact] calls, whatever the deltas. *)
Theorem apply_decisions_levels_capped (s : CognitiveState)
    (calls : list Call) :
  (forall k m, dict_get k (modules s) = Some m -> level m <= 100) ->
  forall k m,
    dict_get k (modules (apply_decisions s calls)) = Some m ->
    level m <= 100.
Proof.
  intros Hcap k m' Hm'.
  assert (Hin : In k (dict_keys (modules s))).
  { rewrite <- (apply_decisions_keys s calls).
    now apply dict_get_Some_In in Hm'. }
  destruct (dict_get_keys_Some k (modules s) Hin) as [m Hm].
  assert (Hany : Forall (fun c => deltas_in (fun _ => True) k (call_impact c))
                   calls).
  { apply Forall_forall. intros c _. apply Forall_forall. now intros. }
  destruct (apply_decisions_evolves (fun _ => True) k calls s I I Hany m Hm)
    as (m2 & Hm2 & R).
  assert (m2 = m') by congruence. subst m2.
  apply rtc_inv_r in R as [->|(y & _ & Hy)].
  - now apply (Hcap k).
  - now apply (module_step_capped (fun _ => True) y).
Qed.

Lemma apply_decisions_levels_capped_witness :
  let s := initialize_cognitive_state 0 "p1" in
  let calls := [mkCall quiet [("logic", 200)] (Some "COMPASSION")] in
  (forall k m, dict_get k (modules s) = Some m -> level m <= 100) /\
  forall k m,
    dict_get k (modules (apply_decisions s calls)) = Some m ->
    level m <= 100.
Proof.
  intros s calls.
  assert (H : forall k m, dict_get k (modules s) = Some m -> level m <= 100).
  { intros k m. unfold s. vm_compute dict_get.
    repeat match goal with
           | |- context [if ?c then _ else _] => destruct c
           end; intros [= <-]; discriminate. }
  split; [exact H|]. exact (apply_decisions_levels_capped s calls H).
Defined.

Lemma fold_update_module_absent (ts : list string) (d : Q)
    (s : CognitiveState) :
  Forall (fun t => str_in t (dict_keys (modules s)) = false) ts ->
  fold_left
    (fun state trait =>
       if dict_mem trait (modules state)
       then update_module state trait d else state)
    ts s
  = s.
Proof.
  induction 1 as [|t ts Ht _ IH]; simpl; [reflexivity|].
  now rewrite dict_mem_str_in, Ht.
Qed.

Lemma fold_update_module_first (t : string) (ts : list string) (d : Q)
    (s : CognitiveState) :
  str_in t (dict_keys (modules s)) = true ->
  Forall (fun t' => str_in t' (dict_keys (modules s)) = false) ts ->
  fold_left
    (fun state trait =>
       if dict_mem trait (modules state)
       then update_module state trait d else state)
    (t :: ts) s
  = update_module s t d.
Proof.
  intros Ht Hts. cbn [fold_left]. rewrite dict_mem_str_in, Ht.
  apply fold_update_module_absent. now rewrite update_module_keys.
Qed.

(** X13.  On a state with the eight configured modules, the mentor bonus is
    one [update_module] of 0.05: on empathy for COMPASSION, on creativity
    for CURIOSITY.  LOGIC and FEAR, none of whose traits is a module
    name, an unknown mentor, the empty name and no mentor leave the
    state as it is. *)
Theorem apply_mentor_bonus_effect (s : CognitiveState)
    (mentor : option string) :
  dict_keys (modules s) = COGNITIVE_MODULES ->
  apply_mentor_bonus s mentor
  = match mentor with
    | None => s
    | Some n =>
        if String.eqb n "COMPASSION" then update_module s "empathy" 0.05
        else if String.eqb n "CURIOSITY"
             then update_module s "creativity" 0.05
             else s
    end.
Proof.
  intros Hk.
  assert (Habs : forall (s' : CognitiveState) (ts : list string),
             dict_keys (modules s') = COGNITIVE_MODULES ->
             forallb (fun t => negb (str_in t COGNITIVE_MODULES)) ts = true ->
             Forall (fun t => str_in t (dict_keys (modules s')) = false) ts).
  { intros s' ts Hk' Hts. apply Forall_forall. intros t Ht.
    rewrite Hk'. rewrite forallb_forall in Hts.
    apply list_elem_of_In, Hts in Ht. now apply negb_true_iff in Ht. }
  unfold apply_mentor_bonus.
  destruct mentor as [n|]; [|reflexivity].
  destruct (String.eqb n "") eqn:E0.
  { apply String.eqb_eq in E0. now subst n. }
  unfold MENTORS, dict_get.
  destruct (String.eqb n "LOGIC") eqn:E1.
  { apply String.eqb_eq in E1. subst n. simpl traits.
    apply fold_update_module_absent, Habs; [exact Hk|reflexivity]. }
  destruct (String.eqb n "COMPASSION") eqn:E2.
  { simpl traits. apply fold_update_module_first;
      [now rewrite Hk|apply Habs; [exact Hk|reflexivity]]. }
  destruct (String.eqb n "CURIOSITY") eqn:E3.
  { simpl traits.
    change ["exploration"; "creativity"; "innovation"]
      with (["exploration"] ++ ["creativity"; "innovation"]).
    rewrite fold_left_app.
    rewrite (fold_update_module_absent ["exploration"])
      by (apply Habs; [exact Hk|reflexivity]).
    apply fold_update_module_first;
      [now rewrite Hk|apply Habs; [exact Hk|reflexivity]]. }
  destruct (String.eqb n "FEAR") eqn:E4; [|reflexivity].
  simpl traits. apply fold_update_module_absent, Habs; [exact Hk|reflexivity].
Qed.

Lemma apply_mentor_bonus_effect_witness :
  let s := initialize_cognitive_state 0 "p1" in
  dict_keys (modules s) = COGNITIVE_MODULES /\
  apply_mentor_bonus s (Some "COMPASSION")
  = if String.eqb "COMPASSION" "COMPASSION"
    then update_module s "empathy" 0.05
    else if String.eqb "COMPASSION" "CURIOSITY"
         then update_module s "creativity" 0.05
         else s.
Proof.
  intros s. assert (H : dict_keys (modules s) = COGNITIVE_MODULES)
    by reflexivity.
  split; [exact H|].
  exact (apply_mentor_bonus_effect s (Some "COMPASSION") H).
Defined.

Lemma unlock_only_steps (m m' : CognitiveModule) :
  rtc (module_step (fun _ => False)) m m' ->
  m' = m \/ (status m = LOCKED /\ m' = unlocked m).
Proof.
  intros R. apply rtc_inv in R as [->|(y & Hy & R)]; [now left|].
  destruct Hy as [m d []|m Hl]. right. split; [exact Hl|].
  apply rtc_inv in R as [<-|(z & Hz & _)]; [reflexivity|].
  inversion Hz as [? ? []|? Hl']. discriminate Hl'.
Qed.

Lemma fold_unlock_step_fields (ks : list string) (s : CognitiveState) :
  let s' := fold_left unlock_step ks s in
  evolution_score s' = evolution_score s /\
  total_experience s' = total_experience s /\
  dominant_traits s' = dominant_traits s /\
  player_id s' = player_id s /\ loop_number s' = loop_number s.
Proof.
  revert s. induction ks as [|j ks IH]; intros s; simpl; [now repeat split|].
  destruct (IH (unlock_step s j)) as (H1 & H2 & H3 & H4 & H5).
  rewrite H1, H2, H3, H4, H5. unfold unlock_step.
  destruct (dict_get j (modules s)); [|now repeat split].
  destruct (decide _); [|now repeat split].
  destruct (is_unlocked _ _); now repeat split.
Qed.

(** X14.  The unlock pass touches LOCKED modules only: every module is either
    left exactly as it was or, if it was LOCKED, rewritten to NASCENT at
    level 5 with its other fields kept.  The pass changes neither the
    set of modules nor the score, the total experience, the dominant
    traits, the player or the loop number. *)
Theorem check_module_unlocks_frame (s : CognitiveState) :
  let s' := _check_module_unlocks s in
  (forall k m, dict_get k (modules s) = Some m ->
     exists m', dict_get k (modules s') = Some m' /\
       (m' = m \/ (status m = LOCKED /\ m' = unlocked m))) /\
  dict_keys (modules s') = dict_keys (modules s) /\
  evolution_score s' = evolution_score s /\
  total_experience s' = total_experience s /\
  dominant_traits s' = dominant_traits s /\
  player_id s' = player_id s /\ loop_number s' = loop_number s.
Proof.
  intros s'. split; [|split].
  - intros k m Hm.
    destruct (_check_module_unlocks_evolves (fun _ => False) k s m Hm)
      as (m' & Hm' & R).
    exists m'. split; [exact Hm'|]. now apply unlock_only_steps.
  - apply fold_unlock_step_keys.
  - apply fold_unlock_step_fields.
Qed.

Lemma filter_nil_Forall {A : Type} (f : A -> bool) (l : list A) :
  List.filter f l = [] -> Forall (fun x => f x = false) l.
Proof.
  induction l as [|x l IH]; simpl; [constructor|].
  destruct (f x) eqn:E; [discriminate|]. intros H. constructor; auto.
Qed.

(** X15.  A breakthrough changes nothing when no module is DEVELOPING;
    otherwise it is one [update_module] of 10 on a module of the state
    whose status is DEVELOPING, whatever the draw. *)
Theorem trigger_breakthrough_cases (o : Oracle) (s : CognitiveState) :
  (Forall (fun nm => status (snd nm) <> DEVELOPING) (modules s) /\
   _trigger_breakthrough o s = s)
  \/
  (exists chosen m,
     In (chosen, m) (modules s) /\ status m = DEVELOPING /\
     _trigger_breakthrough o s = update_module s chosen 10).
Proof.
  unfold _trigger_breakthrough.
  set (f := fun nm : string * CognitiveModule =>
              bool_decide (status (snd nm) = DEVELOPING)).
  destruct (dict_keys (List.filter f (modules s))) as [|d ds] eqn:E.
  - left. split; [|reflexivity].
    unfold dict_keys in E. apply map_eq_nil in E.
    apply filter_nil_Forall in E. eapply Forall_impl; [exact E|].
    intros nm Hnm. unfold f in Hnm. now apply bool_decide_eq_false in Hnm.
  - right. rewrite <- E.
    set (dev := dict_keys (List.filter f (modules s))) in *.
    assert (Hlen : (random_choice o mod length dev < length dev)%nat).
    { apply Nat.mod_upper_bound. rewrite E. discriminate. }
    pose proof (nth_In dev d Hlen) as Hin.
    set (chosen := nth (random_choice o mod length dev) dev d) in *.
    unfold dev, dict_keys in Hin.
    apply in_map_iff in Hin as ([c m] & Hc & Hf).
    apply filter_In in Hf as [Hin Hf]. simpl in Hc.
    exists c, m. split; [exact Hin|]. split.
    + unfold f in Hf. now apply bool_decide_eq_true in Hf.
    + now rewrite <- Hc.
Qed.






(* ===================================================================== *)
(** * Further facts: comparing two states *)
(* ===================================================================== *)

Lemma Qabs'_cases (x : Q) :
  (x < 0 /\ Qabs' x = - x) \/ (0 <= x /\ Qabs' x = x).
Proof.
  unfold Qabs'. destruct (Qltb x 0) eqn:E.
  - left. split; [now apply Qltb_lt|reflexivity].
  - right. split; [now apply Qltb_ge|reflexivity].
Qed.

Lemma Qabs'_nonneg (x : Q) : 0 <= Qabs' x.
Proof. destruct (Qabs'_cases x) as [[H ->]|[H ->]]; lra. Qed.

Lemma Qabs'_le (x b : Q) : - b <= x -> x <= b -> Qabs' x <= b.
Proof. intros. destruct (Qabs'_cases x) as [[H' ->]|[H' ->]]; lra. Qed.

Lemma Qabs'_sym (a b : Q) : Qabs' (a - b) == Qabs' (b - a).
Proof.
  destruct (Qabs'_cases (a - b)) as [[H ->]|[H ->]];
    destruct (Qabs'_cases (b - a)) as [[H' ->]|[H' ->]]; lra.
Qed.

Lemma Qgtb_compat (x x' y : Q) : x == x' -> Qgtb x y = Qgtb x' y.
Proof.
  intros H. destruct (Qgtb x y) eqn:E; symmetry.
  - apply Qgtb_gt. apply Qgtb_gt in E. lra.
  - apply Qgtb_le. apply Qgtb_le in E. lra.
Qed.

Section Similarity.
Variables s1 s2 : CognitiveState.
Hypothesis Hcap1 : forall k, get_module_level s1 k <= 100.
Hypothesis Hcap2 : forall k, get_module_level s2 k <= 100.

Lemma compare_step_unit acc (module_name : string) :
  Forall (fun x => 0 <= x /\ x <= 1) (fst (fst acc)) ->
  Forall (fun x => 0 <= x /\ x <= 1)
    (fst (fst (compare_step s1 s2 acc module_name))).
Proof.
  destruct acc as [[sims shared] divergent]. simpl. intros Hs.
  unfold compare_step.
  destruct (Qgtb (get_module_level s1 module_name) 20) eqn:E1; [|exact Hs].
  destruct (Qgtb (get_module_level s2 module_name) 20) eqn:E2; [|exact Hs].
  apply Qgtb_gt in E1, E2. simpl.
  assert (Hsim : Forall (fun x => 0 <= x /\ x <= 1)
                   (sims ++ [1 - Qabs' (get_module_level s1 module_name
                                        - get_module_level s2 module_name)
                                 / 100])).
  { apply Forall_app. split; [exact Hs|]. constructor; [|constructor].
    pose proof (Hcap1 module_name). pose proof (Hcap2 module_name).
    pose proof (Qabs'_nonneg (get_module_level s1 module_name
                              - get_module_level s2 module_name)).
    assert (Qabs' (get_module_level s1 module_name
                   - get_module_level s2 module_name) <= 80)
      by (apply Qabs'_le; lra).
    unfold Qdiv. change (/ 100) with (1 # 100). split; lra. }
  destruct (Qgtb _ 0.8); [exact Hsim|]. now destruct (Qgtb _ 40).
Qed.

Lemma compare_fold_unit (l : list string) acc :
  Forall (fun x => 0 <= x /\ x <= 1) (fst (fst acc)) ->
  Forall (fun x => 0 <= x /\ x <= 1)
    (fst (fst (fold_left (compare_step s1 s2) l acc))).
Proof.
  revert acc. induction l as [|x l IH]; intros acc H; simpl; [exact H|].
  now apply IH, compare_step_unit.
Qed.

Lemma similarity_score_unit :
  0 <= similarity_score (compare_consciousness_trees s1 s2) /\
  similarity_score (compare_consciousness_trees s1 s2) <= 1.
Proof.
  unfold compare_consciousness_trees.
  pose proof (compare_fold_unit COGNITIVE_MODULES ([], [], [])) as H.
  destruct (fold_left _ COGNITIVE_MODULES _) as [[sims shared] divergent].
  simpl in *. specialize (H ltac:(constructor)).
  destruct sims as [|x sims]; [split; discriminate|].
  destruct (Qsum_bounds 0 1 (x :: sims) H) as [Hlo Hhi].
  set (n := inject_Z (Z.of_nat (length (x :: sims)))) in *.
  assert (Hn : 0 < n).
  { unfold n. change 0 with (inject_Z 0). rewrite <- Zlt_Qlt. simpl. lia. }
  split.
  - apply Qle_shift_div_l; [exact Hn|]. lra.
  - apply Qle_shift_div_r; [exact Hn|]. lra.
Qed.
End Similarity.

(** X17.  When no module of either state is above level 100, the similarity
    score of their comparison lies in [0, 1]. *)
Theorem similarity_score_bounds (s1 s2 : CognitiveState) :
  (forall k, get_module_level s1 k <= 100) ->
  (forall k, get_module_level s2 k <= 100) ->
  0 <= similarity_score (compare_consciousness_trees s1 s2) /\
  similarity_score (compare_consciousness_trees s1 s2) <= 1.
Proof. apply similarity_score_unit. Qed.

Lemma developing_levels_capped (k : string) :
  get_module_level developing_state k <= 100.
Proof.
  unfold get_module_level. vm_compute dict_get.
  repeat match goal with
         | |- context [if ?c then _ else _] => destruct c
         end; discriminate.
Qed.

Lemma advanced_levels_capped (k : string) :
  get_module_level advanced_state k <= 100.
Proof.
  unfold get_module_level. vm_compute dict_get.
  repeat match goal with
         | |- context [if ?c then _ else _] => destruct c
         end; discriminate.
Qed.

Lemma similarity_score_bounds_witness :
  let s1 := developing_state in
  let s2 := advanced_state in
  (forall k, get_module_level s1 k <= 100) /\
  (forall k, get_module_level s2 k <= 100) /\
  (0 <= similarity_score (compare_consciousness_trees s1 s2) /\
   similarity_score (compare_consciousness_trees s1 s2) <= 1) /\
  get_module_level s1 "logic" == 30 /\ get_module_level s2 "logic" == 80 /\
  similarity_score (compare_consciousness_trees s1 s2) == 0.5.
Proof.
  intros s1 s2. split; [exact developing_levels_capped|].
  split; [exact advanced_levels_capped|].
  split; [exact (similarity_score_bounds s1 s2 developing_levels_capped
                   advanced_levels_capped)|].
  repeat split; vm_compute; reflexivity.
Defined.

Lemma Qsum_Qeq (l1 l2 : list Q) : Forall2 Qeq l1 l2 -> Qsum l1 == Qsum l2.
Proof.
  induction 1 as [|x y l1 l2 Hxy _ IH]; [reflexivity|].
  rewrite !Qsum_cons, Hxy, IH. reflexivity.
Qed.

Lemma compare_step_mirror (s1 s2 : CognitiveState) a1 a2 (n : string) :
  mirror_comparison a1 a2 ->
  mirror_comparison (compare_step s1 s2 a1 n) (compare_step s2 s1 a2 n).
Proof.
  destruct a1 as [[sims1 shared1] div1], a2 as [[sims2 shared2] div2].
  unfold mirror_comparison. simpl. intros (Hs & <- & Hd).
  unfold compare_step.
  set (l1 := get_module_level s1 n). set (l2 := get_module_level s2 n).
  rewrite (andb_comm (Qgtb l2 20)).
  destruct (Qgtb l1 20 && Qgtb l2 20); [|now repeat split].
  assert (Hsim : 1 - Qabs' (l1 - l2) / 100 == 1 - Qabs' (l2 - l1) / 100)
    by now rewrite Qabs'_sym.
  assert (Hsims : Forall2 Qeq (sims1 ++ [1 - Qabs' (l1 - l2) / 100])
                    (sims2 ++ [1 - Qabs' (l2 - l1) / 100])).
  { apply Forall2_app; [exact Hs|]. now repeat constructor. }
  rewrite (Qgtb_compat _ _ 0.8 Hsim).
  destruct (Qgtb (1 - Qabs' (l2 - l1) / 100) 0.8); simpl;
    [now repeat split|].
  rewrite (Qgtb_compat _ _ 40 (Qabs'_sym l1 l2)).
  destruct (Qgtb (Qabs' (l2 - l1)) 40); simpl; [|now repeat split].
  split; [exact Hsims|]. split; [reflexivity|].
  apply Forall2_app; [exact Hd|]. now repeat constructor.
Qed.

Lemma compare_fold_mirror (s1 s2 : CognitiveState) (l : list string) a1 a2 :
  mirror_comparison a1 a2 ->
  mirror_comparison (fold_left (compare_step s1 s2) l a1)
    (fold_left (compare_step s2 s1) l a2).
Proof.
  revert a1 a2. induction l as [|n l IH]; intros a1 a2 H; simpl; [exact H|].
  now apply IH, compare_step_mirror.
Qed.

Lemma is_complementary_sym (s1 s2 : CognitiveState) (n : string) :
  is_complementary s1 s2 n = is_complementary s2 s1 n.
Proof. unfold is_complementary. apply orb_comm. Qed.

(** X18.  Comparing two states in either order gives the same similarity
    score, the same shared strengths, the same complementary modules and
    the same evolution distance, and the same divergent modules with the
    two players' levels exchanged. *)
Theorem compare_consciousness_trees_sym (s1 s2 : CognitiveState) :
  let c12 := compare_consciousness_trees s1 s2 in
  let c21 := compare_consciousness_trees s2 s1 in
  similarity_score c12 == similarity_score c21 /\
  shared_strengths c12 = shared_strengths c21 /\
  Forall2 mirror_divergence (divergent_traits c12) (divergent_traits c21) /\
  complementary_modules c12 = complementary_modules c21 /\
  evolution_distance c12 == evolution_distance c21.
Proof.
  unfold compare_consciousness_trees.
  pose proof (compare_fold_mirror s1 s2 COGNITIVE_MODULES ([], [], [])
                ([], [], [])) as H.
  destruct (fold_left (compare_step s1 s2) _ _) as [[sims1 shared1] div1].
  destruct (fold_left (compare_step s2 s1) _ _) as [[sims2 shared2] div2].
  destruct H as (Hs & Hsh & Hd); [now repeat split|].
  cbn [fst snd similarity_score shared_strengths divergent_traits
       complementary_modules evolution_distance] in *.
  split; [|split; [exact Hsh|split; [exact Hd|split]]].
  - destruct Hs as [|x y l1 l2 Hxy Hl]; [reflexivity|].
    assert (Hall : Forall2 Qeq (x :: l1) (y :: l2)) by now constructor.
    rewrite (Qsum_Qeq _ _ Hall), (Forall2_length _ _ _ Hall). reflexivity.
  - apply filter_ext. intros n. apply is_complementary_sym.
  - apply Qabs'_sym.
Qed.

Section SelfComparison.
Variable s : CognitiveState.

Lemma self_similarity_one (n : string) : self_similarity s n == 1.
Proof.
  unfold self_similarity, Qdiv. change (/ 100) with (1 # 100).
  destruct (Qabs'_cases (get_module_level s n - get_module_level s n))
    as [[H ->]|[H ->]]; lra.
Qed.

Lemma compare_step_self (n : string) (sims : list Q) (shared : list string) :
  compare_step s s (sims, shared, []) n
  = if above_20 s n
    then (sims ++ [self_similarity s n], shared ++ [n], [])
    else (sims, shared, []).
Proof.
  unfold compare_step. fold (above_20 s n). rewrite andb_diag.
  destruct (above_20 s n); [|reflexivity].
  fold (self_similarity s n).
  replace (Qgtb (self_similarity s n) 0.8) with true; [reflexivity|].
  symmetry. apply Qgtb_gt. rewrite self_similarity_one. reflexivity.
Qed.

Lemma compare_fold_self (l : list string) (sims : list Q)
    (shared : list string) :
  fold_left (compare_step s s) l (sims, shared, [])
  = (sims ++ map (self_similarity s) (List.filter (above_20 s) l),
     shared ++ List.filter (above_20 s) l, []).
Proof.
  revert sims shared. induction l as [|n l IH]; intros sims shared.
  - simpl. now rewrite !app_nil_r.
  - cbn [fold_left List.filter]. rewrite compare_step_self.
    destruct (above_20 s n).
    + rewrite IH. cbn [map]. now rewrite <- !app_assoc.
    + apply IH.
Qed.

Lemma self_not_complementary (n : string) : is_complementary s s n = false.
Proof.
  unfold is_complementary. rewrite orb_diag.
  destruct (Qltb _ 30) eqn:E1; [|reflexivity].
  destruct (Qgtb _ 60) eqn:E2; [|reflexivity].
  apply Qltb_lt in E1. apply Qgtb_gt in E2. lra.
Qed.

Lemma compare_self :
  let c := compare_consciousness_trees s s in
  shared_strengths c = List.filter (above_20 s) COGNITIVE_MODULES /\
  divergent_traits c = [] /\
  complementary_modules c = [] /\
  evolution_distance c == 0 /\
  similarity_score c == match shared_strengths c with [] => 0 | _ => 1 end.
Proof.
  unfold compare_consciousness_trees. rewrite compare_fold_self.
  cbn [shared_strengths divergent_traits complementary_modules
       evolution_distance similarity_score app].
  split; [reflexivity|]. split; [reflexivity|]. split; [|split].
  - induction COGNITIVE_MODULES as [|n l IH]; [reflexivity|].
    cbn [List.filter]. now rewrite self_not_complementary.
  - destruct (Qabs'_cases (evolution_score s - evolution_score s))
      as [[H ->]|[H ->]]; lra.
  - destruct (List.filter (above_20 s) COGNITIVE_MODULES) as [|n l];
      [reflexivity|].
    set (sims := map (self_similarity s) (n :: l)).
    destruct (Qsum_bounds 1 1 sims) as [Hlo Hhi].
    { unfold sims. apply Forall_map, Forall_forall. intros x _.
      rewrite self_similarity_one. split; apply Qle_refl. }
    assert (Hn : 0 < inject_Z (Z.of_nat (length sims))).
    { change 0 with (inject_Z 0). rewrite <- Zlt_Qlt.
      unfold sims. simpl. lia. }
    change (match sims with
            | [] => 0
            | _ :: _ => Qsum sims / inject_Z (Z.of_nat (length sims))
            end == 1).
    unfold sims at 1. cbn [map].
    apply Qle_antisym.
    + apply Qle_shift_div_r; [exact Hn|]. lra.
    + apply Qle_shift_div_l; [exact Hn|]. lra.
Qed.
End SelfComparison.

(** A state compared with itself shows every known module it has above
    level 20 as a shared strength, no divergent trait, no complementary
    module and distance 0; the similarity is 1, or 0 when no module is
    above 20. *)
Theorem compare_consciousness_trees_self (s : CognitiveState) :
  let c := compare_consciousness_trees s s in
  shared_strengths c
  = List.filter (fun n => Qgtb (get_module_level s n) 20) COGNITIVE_MODULES /\
  divergent_traits c = [] /\
  complementary_modules c = [] /\
  evolution_distance c == 0 /\
  similarity_score c == match shared_strengths c with [] => 0 | _ => 1 end.
Proof. apply compare_self. Qed.

(* ===================================================================== *)
(** * Further facts: the loop environment *)
(* ===================================================================== *)

Lemma alignment_count_le (ds : list DecisionRecord) (a : string) :
  (alignment_count ds a <= length ds)%nat.
Proof. unfold alignment_count. apply List.filter_length_le. Qed.

Lemma alignment_count_disjoint (ds : list DecisionRecord) (a b : string) :
  a <> b ->
  (alignment_count ds a + alignment_count ds b <= length ds)%nat.
Proof.
  intros Hab. unfold alignment_count.
  induction ds as [|d ds IH]; simpl; [lia|].
  destruct (bool_decide (mentor_influence d = Some a)) eqn:Ea;
    destruct (bool_decide (mentor_influence d = Some b)) eqn:Eb;
    simpl; try lia.
  apply bool_decide_eq_true in Ea, Eb. congruence.
Qed.

Lemma relationship_eq (ds : list DecisionRecord) (a : string) :
  relationship (mentor_state ds a) * inject_Z (Z.max (Z.of_nat (length ds)) 1)
  == inject_Z (Z.of_nat (alignment_count ds a)).
Proof.
  unfold mentor_state. cbn [relationship]. field.
  intros H. unfold Qeq in H. simpl in H. lia.
Qed.

(** X19.  [_evolve_mentor_states] reports the four mentors in the order of the
    configuration.  Each relationship is the share of recent decisions
    made under that mentor and lies in [0, 1], each visual clarity in
    [0.3, 1]; since the shares of different mentors add up to at most 1,
    at most one mentor has a deep dialogue, and a supportive mentor is
    that one. *)
Theorem evolve_mentor_states_bounds (state : CognitiveState)
    (recent_decisions : list DecisionRecord) :
  let r := _evolve_mentor_states state recent_decisions in
  dict_keys r = ["LOGIC"; "COMPASSION"; "CURIOSITY"; "FEAR"] /\
  (forall n ms, In (n, ms) r ->
     0 <= relationship ms /\ relationship ms <= 1 /\
     0.3 <= visual_clarity ms /\ visual_clarity ms <= 1 /\
     (attitude ms = "supportive" -> dialogue_depth ms = "deep")) /\
  (forall n1 ms1 n2 ms2, In (n1, ms1) r -> In (n2, ms2) r ->
     dialogue_depth ms1 = "deep" -> dialogue_depth ms2 = "deep" -> n1 = n2).
Proof.
  intros r. unfold r, _evolve_mentor_states.
  set (M := inject_Z (Z.max (Z.of_nat (length recent_decisions)) 1)).
  assert (HM : 1 <= M).
  { unfold M. change 1 with (inject_Z 1). rewrite <- Zle_Qle. lia. }
  assert (HlenM : inject_Z (Z.of_nat (length recent_decisions)) <= M).
  { unfold M. rewrite <- Zle_Qle. lia. }
  assert (Hstate : forall n ms,
             In (n, ms)
               (map (fun mentor => (mentor, mentor_state recent_decisions mentor))
                  (dict_keys MENTORS)) ->
             ms = mentor_state recent_decisions n).
  { intros n ms Hin. apply in_map_iff in Hin as (x & [= <- <-] & _).
    reflexivity. }
  assert (Hrel : forall n,
             0 <= relationship (mentor_state recent_decisions n) /\
             relationship (mentor_state recent_decisions n) <= 1).
  { intros n. pose proof (relationship_eq recent_decisions n) as He.
    fold M in He.
    pose proof (alignment_count_le recent_decisions n) as Hc.
    assert (Hc' : inject_Z (Z.of_nat (alignment_count recent_decisions n))
                  <= inject_Z (Z.of_nat (length recent_decisions)))
      by (rewrite <- Zle_Qle; lia).
    assert (Hc0 : 0 <= inject_Z (Z.of_nat (alignment_count recent_decisions n)))
      by (change 0 with (inject_Z 0); rewrite <- Zle_Qle; lia).
    set (x := relationship _) in *. split; nra. }
  split; [reflexivity|]. split.
  - intros n ms Hin. apply Hstate in Hin. subst ms.
    destruct (Hrel n) as [H0 H1].
    split; [exact H0|]. split; [exact H1|].
    unfold mentor_state in *. cbn [relationship visual_clarity attitude
      dialogue_depth] in *.
    set (x := _ / _) in *.
    split; [apply Q.min_glb; [discriminate|lra]|].
    split; [apply Q.le_min_l|].
    unfold _determine_mentor_attitude.
    destruct (Qgtb x 0.7) eqn:E7.
    + intros _. apply Qgtb_gt in E7.
      replace (Qgtb x 0.6) with true; [reflexivity|].
      symmetry. apply Qgtb_gt. lra.
    + destruct (Qgtb x 0.4); [discriminate|].
      destruct (Qgtb x 0.2); discriminate.
  - intros n1 ms1 n2 ms2 H1 H2 Hd1 Hd2.
    apply Hstate in H1, H2. subst ms1 ms2.
    destruct (String.string_dec n1 n2) as [|Hne]; [assumption|exfalso].
    pose proof (relationship_eq recent_decisions n1) as He1.
    pose proof (relationship_eq recent_decisions n2) as He2.
    fold M in He1, He2.
    pose proof (alignment_count_disjoint recent_decisions n1 n2 Hne) as Hc.
    assert (Hc' : inject_Z (Z.of_nat (alignment_count recent_decisions n1))
                  + inject_Z (Z.of_nat (alignment_count recent_decisions n2))
                  <= inject_Z (Z.of_nat (length recent_decisions))).
    { rewrite <- inject_Z_plus, <- Zle_Qle. lia. }
    unfold mentor_state in Hd1, Hd2. cbn [dialogue_depth] in Hd1, Hd2.
    unfold mentor_state in He1, He2. cbn [relationship] in He1, He2.
    fold M in Hd1, Hd2, He1, He2.
    set (x1 := _ / M) in Hd1, He1. set (x2 := _ / M) in Hd2, He2.
    destruct (Qgtb x1 0.6) eqn:E1; [|discriminate].
    destruct (Qgtb x2 0.6) eqn:E2; [|discriminate].
    apply Qgtb_gt in E1, E2. nra.
Qed.

(** The initial environment of a loop shows at most 4 chambers; the
    training chamber is always accessible, and whoever can enter the
    final chamber can enter the mentor sanctum. *)
Theorem initial_environment_access (s : CognitiveState) :
  let env := _generate_initial_environment s in
  (visible_chambers env <= 4)%Z /\
  (visible_chambers env = 4%Z <-> (2 <= loop_number s)%Z) /\
  training_chamber (accessibility env) = true /\
  (final_chamber (accessibility env) = true ->
   mentor_sanctum (accessibility env) = true).
Proof.
  simpl. split; [lia|]. split; [lia|]. split; [reflexivity|].
  intros H. apply Qgtb_gt in H. apply Qgtb_gt. lra.
Qed.

(* ===================================================================== *)
(** * Further facts: managers built through the interface *)
(* ===================================================================== *)

Lemma manager_ok_put (mgr : LoopManager) (id : string) (l : LoopRecord) :
  manager_ok mgr -> active_ok id l -> manager_ok (put_loop mgr id l).
Proof.
  intros [Ha Hh] Hl. split; [|exact Hh].
  intros id' l' Hl'. simpl in Hl'.
  destruct (decide (id = id')) as [<-|Hne].
  - rewrite lookup_insert_eq in Hl'. now injection Hl' as <-.
  - rewrite lookup_insert_ne in Hl' by exact Hne. now apply Ha.
Qed.

Lemma no_completed_protocols (ps : list ProtocolStub) :
  Forall (fun p => completed p = false) ps ->
  List.filter completed ps = [] /\ _check_special_protocol_in ps = false.
Proof.
  induction 1 as [|p ps Hp _ [IH1 IH2]]; simpl; [now split|].
  rewrite Hp, IH1, IH2. split; [reflexivity|].
  match goal with |- (if ?c then _ else _) = _ => now destruct c end.
Qed.

Lemma manager_ok_complete (now : Z) (mgr : LoopManager) (id : string) :
  manager_ok mgr -> manager_ok (fst (_complete_loop now mgr id)).
Proof.
  intros [Ha Hh]. unfold _complete_loop.
  destruct (active_loops mgr !! id) as [loop|] eqn:E; [|now split].
  destruct (Ha id loop E) as (Hid & Hst & Hstats & Hps). simpl. split.
  - intros id' l' Hl'. simpl in Hl'.
    destruct (decide (id = id')) as [<-|Hne].
    + now rewrite lookup_delete_eq in Hl'.
    + rewrite lookup_delete_ne in Hl' by exact Hne. now apply Ha.
  - intros pid h Hl'. simpl in Hl'.
    destruct (decide (loop_player_id loop = pid)) as [<-|Hne].
    + rewrite lookup_insert_eq in Hl'. injection Hl' as <-.
      apply Forall_app. split.
      * destruct (loop_history mgr !! loop_player_id loop) as [h|] eqn:Eh;
          [now apply Hh|constructor].
      * constructor; [|constructor]. split; [reflexivity|].
        split; [reflexivity|]. eexists. split; [reflexivity|]. simpl.
        destruct (no_completed_protocols _ Hps) as [-> _]. reflexivity.
    + rewrite lookup_insert_ne in Hl' by exact Hne. now apply Hh.
Qed.

Lemma manager_ok_call (settings : Settings) (mgr : LoopManager)
    (c : ManagerCall) :
  manager_ok mgr -> manager_ok (run_call settings mgr c).
Proof.
  intros Hok. pose proof Hok as [Ha Hh].
  destruct c as [now pid s bank|now id elapsed|now id|now id pid ptype
                 |id d protocol_id|now id item_id item_data|now id m];
    cbn [run_call].
  - unfold start_loop. cbn [fst]. split.
    + intros id' l' Hl'. cbn [active_loops] in Hl'.
      destruct (decide (make_loop_id pid (loop_number s + 1) = id'))
        as [<-|Hne].
      * rewrite lookup_insert_eq in Hl'. injection Hl' as <-.
        now repeat split.
      * rewrite lookup_insert_ne in Hl' by exact Hne. now apply Ha.
    + intros p h Hl'. cbn [loop_history] in Hl'.
      destruct (loop_history mgr !! pid) eqn:E; [now apply Hh|].
      destruct (decide (pid = p)) as [<-|Hne].
      * rewrite lookup_insert_eq in Hl'. injection Hl' as <-. constructor.
      * rewrite lookup_insert_ne in Hl' by exact Hne. now apply Hh.
  - unfold update_loop_timer.
    destruct (active_loops mgr !! id) as [loop|] eqn:E; [|exact Hok].
    assert (Hok' : manager_ok
                     (put_loop mgr id
                        (set_time_remaining loop
                           (Z.max 0 (duration_seconds loop - elapsed))))).
    { apply manager_ok_put; [exact Hok|]. exact (Ha id loop E). }
    cbn [time_remaining set_time_remaining duration_seconds loop_status].
    destruct (_ && _).
    + now apply manager_ok_complete.
    + now destruct (duration_seconds loop =? 0)%Z.
  - now apply manager_ok_complete.
  - unfold add_protocol_to_loop.
    destruct (active_loops mgr !! id) as [loop|] eqn:E; [|exact Hok].
    destruct (negb _); [exact Hok|]. cbn [fst].
    apply (manager_ok_put mgr id); [exact Hok|].
    destruct (Ha id loop E) as (H1 & H2 & H3 & H4). repeat split; try assumption.
    simpl. apply Forall_app. split; [exact H4|]. now repeat constructor.
  - unfold record_decision.
    destruct (active_loops mgr !! id) as [loop|] eqn:E; [|exact Hok].
    apply manager_ok_put; [exact Hok|]. exact (Ha id loop E).
  - unfold collect_item.
    destruct (active_loops mgr !! id) as [loop|] eqn:E; [|exact Hok].
    apply manager_ok_put; [exact Hok|]. exact (Ha id loop E).
  - unfold form_memory.
    destruct (active_loops mgr !! id) as [loop|] eqn:E; [|exact Hok].
    apply manager_ok_put; [exact Hok|]. exact (Ha id loop E).
Qed.

Lemma run_calls_ok (settings : Settings) (calls : list ManagerCall) :
  manager_ok (run_calls settings calls).
Proof.
  unfold run_calls.
  assert (H0 : manager_ok new_manager).
  { split; intros k x Hx; simpl in Hx; now rewrite lookup_empty in Hx. }
  revert H0. generalize new_manager as mgr.
  induction calls as [|c calls IH]; intros mgr Hok; simpl; [exact Hok|].
  now apply IH, manager_ok_call.
Qed.

(** X20.  Whatever calls a client makes on a new manager, every loop in the
    active table is stored under its own id, is active, has no
    statistics yet and holds only protocols not completed; every loop in
    a player's history belongs to that player, is completed and carries
    statistics that count 0 completed protocols. *)
Theorem run_calls_manager_ok (settings : Settings)
    (calls : list ManagerCall) :
  (forall id l,
     active_loops (run_calls settings calls) !! id = Some l ->
     loop_id l = id /\ loop_status l = "active" /\ stats l = None /\
     Forall (fun p => completed p = false) (active_protocols l)) /\
  (forall pid h,
     loop_history (run_calls settings calls) !! pid = Some h ->
     Forall
       (fun l =>
          loop_player_id l = pid /\ loop_status l = "completed" /\
          exists st, stats l = Some st /\ protocols_completed st = 0%Z)
       h).
Proof. exact (run_calls_ok settings calls). Qed.

(** X21.  Through the break check, no loop of a manager built through the
    interface can be broken by a state that lacks a module named
    "compassion", as every state of the engine does: the mentor
    condition reads that name, and no protocol is ever marked
    completed. *)
Theorem can_break_never (settings : Settings) (calls : list ManagerCall)
    (id : string) (s : CognitiveState) :
  dict_get "compassion" (modules s) = None ->
  can_break (check_loop_break_conditions (run_calls settings calls) id s)
  = false.
Proof.
  intros Habs.
  destruct (run_calls_ok settings calls) as [Ha _].
  unfold check_loop_break_conditions.
  destruct (active_loops (run_calls settings calls) !! id) as [loop|] eqn:E;
    [|reflexivity].
  destruct (Ha id loop E) as (_ & _ & _ & Hps).
  destruct (no_completed_protocols _ Hps) as [_ Hsp].
  unfold _check_special_protocol. rewrite Hsp. cbn [can_break].
  cbn [evolution_threshold all_mentors_mastered minimum_loops
       special_protocol_completed].
  replace (forallb _ ["LOGIC"; "COMPASSION"; "CURIOSITY"; "FEAR"]) with false.
  - destruct (Qleb 75 _), (10 <=? _)%Z; reflexivity.
  - symmetry. apply not_true_is_false. intros Hall.
    rewrite forallb_forall in Hall.
    specialize (Hall "COMPASSION" ltac:(simpl; tauto)).
    change (lower "COMPASSION") with "compassion" in Hall.
    rewrite (get_module_level_absent s "compassion" Habs) in Hall.
    discriminate Hall.
Qed.

Lemma can_break_never_witness :
  let calls :=
    [call_start_loop 0 "p1" advanced_state (new_bank "p1");
     call_add_protocol_to_loop 1 "p1_loop_12" "proto" "final_test"] in
  dict_get "compassion" (modules advanced_state) = None /\
  can_break
    (check_loop_break_conditions (run_calls default_settings calls)
       "p1_loop_12" advanced_state)
  = false.
Proof.
  intros calls.
  assert (H : dict_get "compassion" (modules advanced_state) = None)
    by reflexivity.
  split; [exact H|].
  exact (can_break_never default_settings calls "p1_loop_12" advanced_state H).
Defined.

Lemma sum_zeros (l : list Z) :
  Forall (fun x => x = 0%Z) l -> fold_left Z.add l 0%Z = 0%Z.
Proof. induction 1 as [|x l -> _ IH]; simpl; [reflexivity|exact IH]. Qed.

Lemma archived_scores (pid : string) (l : list LoopRecord) :
  Forall (archived_ok pid) l ->
  length (omap (fun loop => protocols_completed <$> stats loop) l) = length l /\
  Forall (fun x => x = 0%Z)
    (omap (fun loop => protocols_completed <$> stats loop) l).
Proof.
  induction 1 as [|x l (_ & _ & st & Hst & H0) _ [IH1 IH2]];
    [split; constructor|].
  cbn [omap list_omap]. rewrite Hst. cbn [fmap option_fmap option_map].
  split; [simpl; now rewrite IH1|]. now constructor.
Qed.

(** X22.  For the history of a player in a manager built through the
    interface, the progression trend is "insufficient_data" below three
    archived loops and "stable" from three on: the trend compares counts
    of completed protocols, which are all 0. *)
Theorem progression_trend_of_history (settings : Settings)
    (calls : list ManagerCall) (pid : string) (h : list LoopRecord) :
  loop_history (run_calls settings calls) !! pid = Some h ->
  _calculate_progression_trend h
  = if (length h <? 3)%nat then "insufficient_data" else "stable".
Proof.
  intros Hh.
  destruct (run_calls_ok settings calls) as [_ Hok].
  specialize (Hok pid h Hh).
  unfold _calculate_progression_trend.
  destruct (length h <? 3)%nat eqn:E3; [reflexivity|].
  apply Nat.ltb_ge in E3.
  assert (Hlast : Forall (archived_ok pid) (last_n 5 h)).
  { unfold last_n. now apply Forall_drop. }
  destruct (archived_scores pid (last_n 5 h) Hlast) as [Hlen Hz].
  set (scores := omap _ (last_n 5 h)) in *.
  assert (Hl : (3 <= length scores)%nat).
  { rewrite Hlen. unfold last_n. rewrite length_drop. lia. }
  destruct (length scores <? 2)%nat eqn:E2;
    [apply Nat.ltb_lt in E2; lia|].
  rewrite (sum_zeros (take _ scores)) by now apply Forall_take.
  rewrite (sum_zeros (drop _ scores)) by now apply Forall_drop.
  set (a := inject_Z 0 / _). set (b := inject_Z 0 / _).
  assert (Ha : a == 0) by (unfold a, Qdiv; change (inject_Z 0) with 0; ring).
  assert (Hb : b == 0) by (unfold b, Qdiv; change (inject_Z 0) with 0; ring).
  replace (Qgtb b (a * 1.2)) with false
    by (symmetry; apply Qgtb_le; rewrite Ha, Hb; discriminate).
  replace (Qltb b (a * 0.8)) with false
    by (symmetry; apply Qltb_ge; rewrite Ha, Hb; discriminate).
  reflexivity.
Qed.

Lemma progression_trend_of_history_witness :
  let calls :=
    [call_start_loop 0 "p1" advanced_state (new_bank "p1");
     call_complete_loop 5 "p1_loop_12";
     call_start_loop 10 "p1" advanced_state (new_bank "p1");
     call_complete_loop 15 "p1_loop_12";
     call_start_loop 20 "p1" advanced_state (new_bank "p1");
     call_complete_loop 25 "p1_loop_12"] in
  exists h,
    loop_history (run_calls default_settings calls) !! "p1" = Some h /\
    length h = 3%nat /\
    _calculate_progression_trend h
    = (if (length h <? 3)%nat then "insufficient_data" else "stable") /\
    _calculate_progression_trend h = "stable".
Proof.
  intros calls.
  destruct (loop_history (run_calls default_settings calls) !! "p1")
    as [h|] eqn:E; [|exfalso; vm_compute in E; discriminate E].
  assert (Hlen : length h = 3%nat).
  { assert (El : length <$> loop_history (run_calls default_settings calls)
                   !! "p1" = Some 3%nat) by (vm_compute; reflexivity).
    rewrite E in El. now injection El. }
  pose proof (progression_trend_of_history default_settings calls "p1" h E)
    as Ht.
  exists h. split; [reflexivity|]. split; [exact Hlen|].
  split; [exact Ht|]. rewrite Ht, Hlen. reflexivity.
Defined.

(** X23.  While the duration has not elapsed, a timer update on an active loop
    of non-zero duration writes the remaining time, duration minus
    elapsed, into the loop, changes nothing else and reports it as
    running.  For a non-negative elapsed time the progress it reports is
    a float between 0 and 1, both included, within [2^-53] of elapsed /
    duration: the quotient and the difference are each rounded. *)
Theorem update_loop_timer_running (now : Z) (mgr : LoopManager) (id : string)
    (loop : LoopRecord) (elapsed : Z) :
  active_loops mgr !! id = Some loop ->
  (elapsed < duration_seconds loop)%Z ->
  duration_seconds loop <> 0%Z ->
  exists progress : Q,
    update_loop_timer now mgr id elapsed
    = (put_loop mgr id
         (set_time_remaining loop (duration_seconds loop - elapsed)),
       Ok (running (duration_seconds loop - elapsed) progress)) /\
    ((0 <= elapsed)%Z ->
     let ratio := inject_Z elapsed / inject_Z (duration_seconds loop) in
     0 <= progress /\ progress <= 1 /\
     - 2 ^ (-53) <= progress - ratio /\ progress - ratio <= 2 ^ (-53)).
Proof.
  intros Hl He Hd. unfold update_loop_timer. rewrite Hl.
  replace (Z.max 0 (duration_seconds loop - elapsed))
    with (duration_seconds loop - elapsed)%Z by lia.
  cbn [time_remaining set_time_remaining duration_seconds loop_status].
  destruct (duration_seconds loop - elapsed =? 0)%Z eqn:E0; [lia|].
  cbn [andb].
  destruct (duration_seconds loop =? 0)%Z eqn:Ed; [lia|].
  eexists. split; [reflexivity|].
  intros H0. unfold int_truediv.
  set (dq := inject_Z (duration_seconds loop)).
  assert (Hpos : 0 < dq).
  { unfold dq. change 0 with (inject_Z 0). rewrite <- Zlt_Qlt. lia. }
  set (x := inject_Z (duration_seconds loop - elapsed) / dq).
  assert (Hx : inject_Z elapsed / dq == 1 - x).
  { unfold x, Z.sub. rewrite inject_Z_plus, inject_Z_opp. fold dq.
    field. lra. }
  assert (Hx0 : 0 <= x).
  { unfold x. apply Qle_shift_div_l; [exact Hpos|].
    rewrite Qmult_0_l. change 0 with (inject_Z 0). rewrite <- Zle_Qle. lia. }
  assert (Hx1 : x <= 1).
  { unfold x. apply Qle_shift_div_r; [exact Hpos|].
    rewrite Qmult_1_l. unfold dq. rewrite <- Zle_Qle. lia. }
  destruct (round_double_unit x Hx0 Hx1) as ((R0 & R1) & E1 & E2).
  set (r := round_double x) in *.
  destruct (round_double_unit (1 - r) ltac:(lra) ltac:(lra))
    as ((P0 & P1) & F1 & F2).
  set (p := round_double (1 - r)) in *.
  assert (H54 : 2 ^ (-53) == 2 ^ (-54) + 2 ^ (-54)) by reflexivity.
  rewrite Hx, H54. repeat split; lra.
Qed.

Lemma update_loop_timer_running_witness :
  let started := start_loop default_settings 0 new_manager "p1"
                   advanced_state (new_bank "p1") in
  let mgr := fst started in
  let loop := snd started in
  active_loops mgr !! "p1_loop_12" = Some loop /\
  (60 < duration_seconds loop)%Z /\
  duration_seconds loop <> 0%Z /\
  exists progress : Q,
    update_loop_timer 60 mgr "p1_loop_12" 60
    = (put_loop mgr "p1_loop_12"
         (set_time_remaining loop (duration_seconds loop - 60)),
       Ok (running (duration_seconds loop - 60) progress)) /\
    ((0 <= 60)%Z ->
     let ratio := inject_Z 60 / inject_Z (duration_seconds loop) in
     0 <= progress /\ progress <= 1 /\
     - 2 ^ (-53) <= progress - ratio /\ progress - ratio <= 2 ^ (-53)).
Proof.
  intros started mgr loop.
  assert (H1 : active_loops mgr !! "p1_loop_12" = Some loop)
    by (vm_compute; reflexivity).
  assert (H2 : (60 < duration_seconds loop)%Z) by (simpl; lia).
  assert (H3 : duration_seconds loop <> 0%Z) by (simpl; lia).
  split; [exact H1|]. split; [exact H2|]. split; [exact H3|].
  exact (update_loop_timer_running 60 mgr "p1_loop_12" loop 60 H1 H2 H3).
Defined.

(** X24.  A loop of duration 0 that is active is completed by any timer update
    with a non-negative elapsed time; with a negative one the update
    writes the remaining time and then fails on the division. *)
Theorem update_loop_timer_zero_duration (now : Z) (mgr : LoopManager)
    (id : string) (loop : LoopRecord) (elapsed : Z) :
  active_loops mgr !! id = Some loop ->
  duration_seconds loop = 0%Z ->
  loop_status loop = "active" ->
  update_loop_timer now mgr id elapsed
  = if (0 <=? elapsed)%Z
    then _complete_loop now (put_loop mgr id (set_time_remaining loop 0)) id
    else (put_loop mgr id (set_time_remaining loop (- elapsed)),
          Raise "ZeroDivisionError").
Proof.
  intros Hl Hd Hs.
  destruct (0 <=? elapsed)%Z eqn:E.
  - apply update_loop_timer_completes; [exact Hl|exact Hs|lia].
  - unfold update_loop_timer. rewrite Hl.
    replace (Z.max 0 (duration_seconds loop - elapsed)) with (- elapsed)%Z
      by lia.
    cbn [time_remaining set_time_remaining duration_seconds loop_status].
    destruct (- elapsed =? 0)%Z eqn:E0; [lia|]. cbn [andb].
    now rewrite Hd.
Qed.

Lemma update_loop_timer_zero_duration_witness :
  let started := start_loop (mkSettings 0 50 100) 0 new_manager "p1"
                   advanced_state (new_bank "p1") in
  let mgr := fst started in
  let loop := snd started in
  active_loops mgr !! "p1_loop_12" = Some loop /\
  duration_seconds loop = 0%Z /\
  loop_status loop = "active" /\
  update_loop_timer 1 mgr "p1_loop_12" (-1)
  = if (0 <=? -1)%Z
    then _complete_loop 1
           (put_loop mgr "p1_loop_12" (set_time_remaining loop 0))
           "p1_loop_12"
    else (put_loop mgr "p1_loop_12" (set_time_remaining loop (- -1)),
          Raise "ZeroDivisionError").
Proof.
  intros started mgr loop.
  assert (H1 : active_loops mgr !! "p1_loop_12" = Some loop)
    by (vm_compute; reflexivity).
  assert (H2 : duration_seconds loop = 0%Z) by reflexivity.
  assert (H3 : loop_status loop = "active") by reflexivity.
  split; [exact H1|]. split; [exact H2|]. split; [exact H3|].
  exact (update_loop_timer_zero_duration 1 mgr "p1_loop_12" loop (-1)
           H1 H2 H3).
Defined.

(** A loop id that is not in the active table: the four recording calls
    return False, the timer reports "not_found", the break check reports
    that the loop was not found, each leaving the manager untouched;
    only [_complete_loop] raises. *)
Theorem unknown_loop_id (mgr : LoopManager) (id : string) :
  active_loops mgr !! id = None ->
  (forall now pid ptype,
     add_protocol_to_loop now mgr id pid ptype = (mgr, false)) /\
  (forall d protocol_id, record_decision mgr id d protocol_id = (mgr, false)) /\
  (forall now item_id item_data,
     collect_item now mgr id item_id item_data = (mgr, false)) /\
  (forall now m, form_memory now mgr id m = (mgr, false)) /\
  (forall now elapsed,
     update_loop_timer now mgr id elapsed = (mgr, Ok not_found)) /\
  (forall s, check_loop_break_conditions mgr id s = loop_not_found) /\
  (forall now, _complete_loop now mgr id = (mgr, Raise "KeyError")).
Proof.
  intros H.
  unfold add_protocol_to_loop, record_decision, collect_item, form_memory,
    update_loop_timer, check_loop_break_conditions, _complete_loop.
  rewrite H. now repeat split.
Qed.

Lemma unknown_loop_id_witness :
  active_loops new_manager !! "p1_loop_1" = None /\
  (forall now pid ptype,
     add_protocol_to_loop now new_manager "p1_loop_1" pid ptype
     = (new_manager, false)) /\
  (forall d protocol_id,
     record_decision new_manager "p1_loop_1" d protocol_id
     = (new_manager, false)) /\
  (forall now item_id item_data,
     collect_item now new_manager "p1_loop_1" item_id item_data
     = (new_manager, false)) /\
  (forall now m, form_memory now new_manager "p1_loop_1" m
                 = (new_manager, false)) /\
  (forall now elapsed,
     update_loop_timer now new_manager "p1_loop_1" elapsed
     = (new_manager, Ok not_found)) /\
  (forall s, check_loop_break_conditions new_manager "p1_loop_1" s
             = loop_not_found) /\
  (forall now, _complete_loop now new_manager "p1_loop_1"
               = (new_manager, Raise "KeyError")).
Proof.
  assert (H : active_loops new_manager !! "p1_loop_1" = None)
    by reflexivity.
  split; [exact H|]. exact (unknown_loop_id new_manager "p1_loop_1" H).
Defined.

(** X25.  What is recorded in an active loop is what its statistics count: a
    decision, an item and a memory recorded and the loop then completed
    give statistics one above the loop's previous counts in each of the
    three, with the time from start to completion. *)
Theorem recorded_events_counted (mgr : LoopManager) (id : string)
    (loop : LoopRecord) (d : Decision) (protocol_id item_id : string)
    (item_data : list (string * PyValue)) (m : Memory) (t1 t2 now : Z) :
  active_loops mgr !! id = Some loop ->
  let mgr1 := fst (record_decision mgr id d protocol_id) in
  let mgr2 := fst (collect_item t1 mgr1 id item_id item_data) in
  let mgr3 := fst (form_memory t2 mgr2 id m) in
  snd (_complete_loop now mgr3 id)
  = Ok (completed_result (loop_loop_number loop)
          (mkLoopStats
             (Z.of_nat (length (List.filter completed (active_protocols loop))))
             (Z.of_nat (length (decisions_made loop)) + 1)
             (Z.of_nat (length (items_collected loop)) + 1)
             (Z.of_nat (length (memories_formed loop)) + 1)
             (now - started_at loop))
          true).
Proof.
  intros Hl. unfold record_decision. rewrite Hl. cbn [fst].
  unfold collect_item, put_loop. cbn [active_loops].
  rewrite lookup_insert_eq. cbn [fst].
  unfold form_memory, put_loop. cbn [active_loops].
  rewrite lookup_insert_eq. cbn [fst].
  unfold _complete_loop, put_loop. cbn [active_loops].
  rewrite lookup_insert_eq. cbn [snd].
  cbn [set_completion set_memories_formed set_items_collected
       set_decisions_made loop_loop_number active_protocols decisions_made
       items_collected memories_formed started_at].
  rewrite !length_app. simpl length.
  repeat f_equal; lia.
Qed.

Lemma recorded_events_counted_witness :
  let started := start_loop default_settings 0 new_manager "p1"
                   advanced_state (new_bank "p1") in
  let mgr := fst started in
  let loop := snd started in
  let d := mkDecision 1 "c1" "text" None [] 0.5 in
  active_loops mgr !! "p1_loop_12" = Some loop /\
  let mgr1 := fst (record_decision mgr "p1_loop_12" d "proto") in
  let mgr2 := fst (collect_item 2 mgr1 "p1_loop_12" "item_1" []) in
  let mgr3 := fst (form_memory 3 mgr2 "p1_loop_12" (sample_memory "m")) in
  snd (_complete_loop 9 mgr3 "p1_loop_12")
  = Ok (completed_result (loop_loop_number loop)
          (mkLoopStats
             (Z.of_nat (length (List.filter completed (active_protocols loop))))
             (Z.of_nat (length (decisions_made loop)) + 1)
             (Z.of_nat (length (items_collected loop)) + 1)
             (Z.of_nat (length (memories_formed loop)) + 1)
             (9 - started_at loop))
          true).
Proof.
  intros started mgr loop d.
  assert (H : active_loops mgr !! "p1_loop_12" = Some loop)
    by (vm_compute; reflexivity).
  split; [exact H|].
  exact (recorded_events_counted mgr "p1_loop_12" loop d "proto" "item_1" []
           (sample_memory "m") 2 3 9 H).
Defined.

(** X26.  Completing a loop makes its player known to [get_persistent_data]
    and extends what it reports for that player by the loop's items
    whose "persists" value is true in Python's sense and by all its
    memory stubs, with one more loop in the total. *)
Theorem get_persistent_data_after_completion (now : Z) (mgr : LoopManager)
    (id : string) (loop : LoopRecord) :
  active_loops mgr !! id = Some loop ->
  let pid := loop_player_id loop in
  let before := get_persistent_data mgr pid in
  get_persistent_data (fst (_complete_loop now mgr id)) pid
  = persistent_data
      (persistent_items before
       ++ List.filter (fun item => truthy (persists item))
            (items_collected loop))
      (persistent_memories before ++ memories_formed loop)
      []
      (Z.of_nat (length (default [] (loop_history mgr !! pid))) + 1).
Proof.
  intros Hl pid before. unfold _complete_loop. rewrite Hl. cbn [fst].
  unfold get_persistent_data at 1. cbn [loop_history].
  cbn [set_completion loop_player_id]. fold pid.
  rewrite lookup_insert_eq.
  rewrite !flat_map_app, length_app. cbn [flat_map length].
  rewrite !app_nil_r.
  cbn [items_collected memories_formed].
  unfold before, get_persistent_data.
  destruct (loop_history mgr !! pid) as [h|]; cbn [default persistent_items
    persistent_memories flat_map length]; f_equal; lia.
Qed.

Lemma get_persistent_data_after_completion_witness :
  let started := start_loop default_settings 0 new_manager "p1"
                   advanced_state (new_bank "p1") in
  let mgr := fst (collect_item 1 (fst started) "p1_loop_12" "item_1"
                    [("persistent", PyBool true)]) in
  exists loop,
    active_loops mgr !! "p1_loop_12" = Some loop /\
    let pid := loop_player_id loop in
    let before := get_persistent_data mgr pid in
    get_persistent_data (fst (_complete_loop 9 mgr "p1_loop_12")) pid
    = persistent_data
        (persistent_items before
         ++ List.filter (fun item => truthy (persists item))
              (items_collected loop))
        (persistent_memories before ++ memories_formed loop)
        []
        (Z.of_nat (length (default [] (loop_history mgr !! pid))) + 1).
Proof.
  intros started mgr.
  destruct (active_loops mgr !! "p1_loop_12") as [loop|] eqn:E;
    [|exfalso; vm_compute in E; discriminate E].
  exists loop. split; [reflexivity|].
  exact (get_persistent_data_after_completion 9 mgr "p1_loop_12" loop E).
Defined.

(* ===================================================================== *)
(** * Further facts: sessions, the neural tree, the protocol selector *)
(* ===================================================================== *)

Lemma Qsum_nonneg (l : list Q) : Forall (fun x => 0 <= x) l -> 0 <= Qsum l.
Proof.
  induction 1 as [|x l Hx _ IH]; [discriminate|].
  rewrite Qsum_cons. lra.
Qed.

Lemma growth_score_nonneg (before after : list (string * Q)) :
  0 <= growth_score before after.
Proof.
  unfold growth_score. apply Qsum_nonneg, Forall_map, Forall_forall.
  intros k _. apply Qabs'_nonneg.
Qed.

(** X27.  Completing a session whose decisions have confidences in [0, 1]
    never fails and leaves a score in [0, 100], which is exactly 0 when
    no decision was made; the decisions are kept and the outcome and
    the final state recorded. *)
Theorem complete_score_bounds (now : Z) (p : ProtocolSession)
    (result : string) (final_state : list (string * Q)) :
  Forall (fun d => 0 <= d_confidence d /\ d_confidence d <= 1) (decisions p) ->
  exists p',
    complete now p result final_state = Ok p' /\
    0 <= score p' /\ score p' <= 100 /\
    (decisions p = [] -> score p' = 0) /\
    decisions p' = decisions p /\
    outcome p' = Some result /\
    cognitive_state_after p' = Some final_state /\
    session_completed_at p' = Some now.
Proof.
  intros Hc. unfold complete, calculate_score.
  cbn [decisions cognitive_state_after cognitive_state_before].
  destruct (decisions p) as [|d ds] eqn:E.
  - eexists. split; [reflexivity|]. cbn.
    repeat split; discriminate.
  - eexists. split; [reflexivity|]. cbn [score set_score decisions outcome
      cognitive_state_after session_completed_at].
    set (g := growth_score (cognitive_state_before p) final_state).
    pose proof (growth_score_nonneg (cognitive_state_before p) final_state)
      as Hg. fold g in Hg.
    assert (Hm0 : 0 <= Qmin g 1) by (apply Q.min_glb; [exact Hg|discriminate]).
    assert (Hm1 : Qmin g 1 <= 1) by apply Q.le_min_r.
    destruct (Qsum_bounds 0 1 (map d_confidence (d :: ds))) as [Hlo Hhi].
    { apply Forall_map. exact Hc. }
    rewrite length_map in Hlo, Hhi.
    set (n := inject_Z (Z.of_nat (length (d :: ds)))) in *.
    assert (Hn : 0 < n).
    { unfold n. change 0 with (inject_Z 0). rewrite <- Zlt_Qlt. simpl. lia. }
    set (t := Qsum _) in *.
    assert (Ha0 : 0 <= t / n) by (apply Qle_shift_div_l; [exact Hn|lra]).
    assert (Ha1 : t / n <= 1) by (apply Qle_shift_div_r; [exact Hn|lra]).
    set (a := t / n) in *.
    split; [lra|]. split; [lra|]. now repeat split.
Qed.

Lemma complete_score_bounds_witness :
  let p := mkProtocolSession "s1" "proto" 1 "p1" 0 None
             [mkDecision 1 "c1" "text" None [] 0.5] None 0
             [("logic", 5)] None [] [] in
  Forall (fun d => 0 <= d_confidence d /\ d_confidence d <= 1) (decisions p) /\
  exists p',
    complete 9 p "done" [("logic", 5.2)] = Ok p' /\
    0 <= score p' /\ score p' <= 100 /\
    (decisions p = [] -> score p' = 0) /\
    decisions p' = decisions p /\
    outcome p' = Some "done" /\
    cognitive_state_after p' = Some [("logic", 5.2)] /\
    session_completed_at p' = Some 9%Z.
Proof.
  intros p.
  assert (H : Forall (fun d => 0 <= d_confidence d /\ d_confidence d <= 1)
                (decisions p)).
  { repeat constructor; discriminate. }
  split; [exact H|].
  exact (complete_score_bounds 9 p "done" [("logic", 5.2)] H).
Defined.

(** X28.  The neural tree has one node per module, in order, and no dangling
    link: every link runs from a module of the state to a module of the
    state that requires it, with the strength level / 100 of the
    requiring module. *)
Theorem get_neural_tree_data_links (s : CognitiveState) :
  let t := get_neural_tree_data s in
  map node_id (tree_nodes t) = dict_keys (modules s) /\
  (forall l, In l (tree_links t) ->
     In (link_source l) (map node_id (tree_nodes t)) /\
     In (link_target l) (map node_id (tree_nodes t)) /\
     exists m, In (link_target l, m) (modules s) /\
       In (link_source l) (dict_keys (unlock_requirements m)) /\
       link_strength l = level m / 100).
Proof.
  intros t.
  assert (Hn : map node_id (tree_nodes t) = dict_keys (modules s)).
  { unfold t, get_neural_tree_data, dict_keys. cbn [tree_nodes].
    rewrite map_map. reflexivity. }
  split; [exact Hn|]. intros l Hl. rewrite Hn.
  unfold t, get_neural_tree_data in Hl. cbn [tree_links] in Hl.
  apply in_flat_map in Hl as ([k m] & Hkm & Hl).
  unfold links_into in Hl. cbn [fst snd] in Hl.
  apply in_map_iff in Hl as (r & <- & Hr).
  apply filter_In in Hr as [Hr Hmem]. cbn [link_source link_target
    link_strength].
  split; [now apply dict_mem_In|]. split.
  - unfold dict_keys. apply in_map_iff. now exists (k, m).
  - exists m. now repeat split.
Qed.

Lemma str_in_In (x : string) (l : list string) :
  str_in x l = true <-> In x l.
Proof.
  unfold str_in. rewrite existsb_exists. split.
  - intros (y & Hy & E). apply String.eqb_eq in E. now subst.
  - intros H. exists x. split; [exact H|apply String.eqb_refl].
Qed.

(** X29.  [get_protocol_recommendation] returns for no input.  A
    [DecisionNode] is built exactly when the call passes a [condition];
    [build_protocol_selector] builds each leaf as
    [DecisionNode(result=...)], without it, so building the first leaf
    raises [TypeError] and no tree is ever traversed. *)
Theorem get_protocol_recommendation_raises (cs : list (string * Q))
    (recent : list string) (loop_number : Z) :
  (forall condition threshold true_branch false_branch result,
     DecisionNode_init condition threshold true_branch false_branch result
     = Raise "TypeError"
     <-> condition = None) /\
  build_protocol_selector = Raise "TypeError" /\
  get_protocol_recommendation cs recent loop_number = Raise "TypeError".
Proof.
  split; [|split; reflexivity].
  intros [c|] threshold true_branch false_branch result; simpl.
  - split; discriminate.
  - split; reflexivity.
Qed.
